(** * Openfermion-Dirac: the integral-ingestion pipeline of [MolecularData_Dirac]

    A shallow embedding of the three methods of
    [src/openfermion_dirac/_molecular_data_Dirac.py] that carry the
    algorithmic content of the class:

    - [get_integrals_FCIDUMP] (the dump parser),
    - [get_energies]          (the energy-log scanner),
    - [get_molecular_hamiltonian] (index transformer, symmetry expander,
      truncation and assembly).

    Python [float] values are modelled as exact rationals ([Q]); Python
    [int] values as [Z]; the loop counters produced by [range] as [nat].
    Dictionaries keyed by integer tuples are [gmap]s, numpy arrays are nested
    lists with checked (raising) reads and writes. The built-in conversions
    [int] and [float] and the tolerance [EQ_TOLERANCE] of [openfermion.config]
    are parameters.

    The rest of the module is embedded next to them: the periodic table and
    its hash table, [name_molecule], [geometry_from_file], the constructor
    and the two electron counts. The order in which Python iterates over a
    set and [str] on a float are parameters there. The methods [save] and
    [get_from_file] are input and output through [h5py] and are left out, as
    are the two unit conversions, which are floating-point products.

    The file has two parts. The first holds the definitions: the Python
    runtime, the functions, and the vocabulary of the statements (write
    logs, shapes, symmetry classes, record classes). The second holds the
    proofs: laws of loops and arrays, one section per branch of
    [get_molecular_hamiltonian], the parser and the scanner, the claims C1 to
    C10, and at the end further properties of the code, X1 to X22. *)

From Stdlib Require Import QArith Qabs Ascii.
From stdpp Require Import gmap strings list fin_maps pretty sorting.

(** ** Python exceptions and the error monad *)

Inductive exn : Type :=
| FileNotFoundError (msg : string)
| ValueError
| IndexError.

Inductive result (A : Type) : Type :=
| Ok (a : A)
| Raise (e : exn).

Arguments Ok {A} a.
Arguments Raise {A} e.

#[global] Instance result_ret : MRet result := fun A a => Ok a.

#[global] Instance result_bind : MBind result := fun A B f m =>
  match m with
  | Ok a => f a
  | Raise e => Raise e
  end.

(** [for x in xs: body], threading the mutated state [s]; an exception raised
    by the body leaves the loop. *)
Fixpoint for_in {S B : Type} (xs : list B) (body : S -> B -> result S) (s : S)
  : result S :=
  match xs with
  | [] => Ok s
  | x :: xs' => s' ← body s x; for_in xs' body s'
  end.

Definition range (n : nat) : list nat := seq 0 n.

(** [l[i]] for a non-negative index. *)
Definition item {A : Type} (l : list A) (i : nat) : result A :=
  match l !! i with
  | Some x => Ok x
  | None => Raise IndexError
  end.

(** ** Python strings *)

(** [pat in s] for strings; also [re.search(pat, s)] for the three label
    patterns of the log scanner, which hold no regular-expression
    metacharacter. *)
Fixpoint contains (pat s : string) : bool :=
  String.prefix pat s ||
  match s with
  | EmptyString => false
  | String _ s' => contains pat s'
  end.

(** The ASCII characters for which [str.isspace] holds. *)
Definition py_isspace (c : Ascii.ascii) : bool :=
  let n := Ascii.nat_of_ascii c in
  ((9 <=? n) && (n <=? 13)) || ((28 <=? n) && (n <=? 32)).

Definition flush (cur : string) : list string :=
  match cur with
  | EmptyString => []
  | _ => [String.rev cur]
  end.

(** [s.split()]: the maximal runs of non-whitespace characters, in order.
    [cur] is the run being read, reversed. *)
Fixpoint split_go (cur s : string) : list string :=
  match s with
  | EmptyString => flush cur
  | String a s' =>
      if py_isspace a then flush cur ++ split_go EmptyString s'
      else split_go (String a cur) s'
  end.

Definition split (s : string) : list string := split_go EmptyString s.

(** [s.rsplit(None, 1)[-1]]: the last whitespace-delimited token; the
    subscript raises on a line without any token. *)
Definition rsplit_last (s : string) : result string :=
  match last (split s) with
  | Some t => Ok t
  | None => Raise IndexError
  end.

(** ** numpy arrays of rank 2 and 4 *)

Abbreviation array2 := (list (list Q)).
Abbreviation array4 := (list (list (list (list Q)))).
Abbreviation cell2 := (nat * nat)%type.
Abbreviation cell4 := (nat * nat * nat * nat)%type.

(** [numpy.zeros((n, n))] and [numpy.zeros((n, n, n, n))]. *)
Definition zeros2 (n : nat) : array2 := replicate n (replicate n 0%Q).

Definition zeros4 (n : nat) : array4 :=
  replicate n (replicate n (replicate n (replicate n 0%Q))).

Definition lookup2 (a : array2) (c : cell2) : option Q :=
  let '(p, q) := c in row ← a !! p; row !! q.

Definition upd2 (a : array2) (c : cell2) (v : Q) : array2 :=
  let '(p, q) := c in alter (<[q := v]>) p a.

Definition lookup4 (a : array4) (c : cell4) : option Q :=
  let '(p, q, r, s) := c in a1 ← a !! p; a2 ← a1 !! q; a3 ← a2 !! r; a3 !! s.

Definition upd4 (a : array4) (c : cell4) (v : Q) : array4 :=
  let '(p, q, r, s) := c in alter (alter (alter (<[s := v]>) r) q) p a.

(** The interface shared by the two ranks: a partial read and an in-place
    update. *)
Class Dense (A C : Type) := {
  dlookup : A -> C -> option Q;
  dupd : A -> C -> Q -> A;
}.

(** The two laws every proof about the filling loops uses. *)
Class DenseLaws (A C : Type) `{Dense A C} := {
  dlookup_upd_eq : forall a c v,
    is_Some (dlookup a c) -> dlookup (dupd a c v) c = Some v;
  dlookup_upd_ne : forall a c c' v,
    c <> c' -> dlookup (dupd a c v) c' = dlookup a c';
}.

(** [a[c]] and [a[c] = v]; numpy raises [IndexError] for an index outside the
    shape (the indices here are never negative). *)
Definition dget {A C : Type} `{Dense A C} (a : A) (c : C) : result Q :=
  match dlookup a c with
  | Some v => Ok v
  | None => Raise IndexError
  end.

Definition dset {A C : Type} `{Dense A C} (a : A) (c : C) (v : Q) : result A :=
  match dlookup a c with
  | Some _ => Ok (dupd a c v)
  | None => Raise IndexError
  end.

#[global] Instance dense2 : Dense array2 cell2 :=
  {| dlookup := lookup2; dupd := upd2 |}.

#[global] Instance dense4 : Dense array4 cell4 :=
  {| dlookup := lookup4; dupd := upd4 |}.

(** ** The integral dump, the energies and the assembled operator *)

(** What [get_integrals_FCIDUMP] stores on [self] and returns:
    [E_core], [spinor], [one_body_int], [two_body_int]. Keys are the
    integers of the records, as read. *)
Record dump : Type := {
  E_core : Q;
  spinor : gmap Z Q;
  one_body_int : gmap (Z * Z) Q;
  two_body_int : gmap (Z * Z * Z * Z) Q;
}.

(** What [get_energies] returns; [None] is Python's [None]. *)
Record energies : Type := {
  hf_energy : option string;
  mp2_energy : option string;
  ccsd_energy : option string;
}.

(** [InteractionOperator(constant, one_body_tensor, two_body_tensor)]. *)
Record InteractionOperator : Type := {
  constant : Q;
  one_body_tensor : array2;
  two_body_tensor : array4;
}.

(** The attributes of [self] the three methods read. *)
Record MolecularData_Dirac : Type := {
  name : string;
  relativistic : bool;
}.

(** The files on disk: a path names the list of the lines of a text file. *)
Abbreviation files := (gmap string (list string)).

(** [x < y] on floats. *)
Definition Qltb (x y : Q) : bool := negb (Qle_bool y x).

(** The 1-based dictionary index [p + 1] of a loop counter. *)
Definition succ_key (p : nat) : Z := Z.of_nat p + 1.

(** The odd 1-based dictionary index [2 * p + 1] of a spatial counter. *)
Definition odd_key (p : nat) : Z := 2 * Z.of_nat p + 1.

Section Pipeline.

(** Python's [int(token)] and [float(token)]; [None] stands for the
    [ValueError] they raise. *)
Variable py_int : string -> option Z.
Variable py_float : string -> option Q.

(** [openfermion.config.EQ_TOLERANCE]. *)
Variable EQ_TOLERANCE : Q.

Definition int (t : string) : result Z :=
  match py_int t with
  | Some z => Ok z
  | None => Raise ValueError
  end.

Definition float (t : string) : result Q :=
  match py_float t with
  | Some v => Ok v
  | None => Raise ValueError
  end.

(** *** [get_integrals_FCIDUMP] *)

(** The header loop: count the lines up to and including the first one that
    contains [&END]; the remaining lines are left for [f.readlines()]. *)
Fixpoint skip_header (lines : list string) (start_reading : nat)
  : nat * list string :=
  match lines with
  | [] => (start_reading, [])
  | line :: rest =>
      if contains "&END" line then (S start_reading, rest)
      else skip_header rest (S start_reading)
  end.

(** The body of the loop over the rows. *)
Definition store_row (d : dump) (tokens : list string) : result dump :=
  t1 ← item tokens 1; a_1 ← int t1;
  t2 ← item tokens 2; a_2 ← int t2;
  t3 ← item tokens 3; a_3 ← int t3;
  t4 ← item tokens 4; a_4 ← int t4;
  if (a_4 =? 0)%Z && (a_3 =? 0)%Z then
    if (a_2 =? 0)%Z then
      if (a_1 =? 0)%Z then
        t0 ← item tokens 0; v ← float t0;
        Ok {| E_core := v; spinor := spinor d;
              one_body_int := one_body_int d; two_body_int := two_body_int d |}
      else
        t0 ← item tokens 0; v ← float t0;
        Ok {| E_core := E_core d; spinor := <[a_1 := v]> (spinor d);
              one_body_int := one_body_int d; two_body_int := two_body_int d |}
    else
      t0 ← item tokens 0; v ← float t0;
      Ok {| E_core := E_core d; spinor := spinor d;
            one_body_int := <[(a_1, a_2) := v]> (one_body_int d);
            two_body_int := two_body_int d |}
  else
    t0 ← item tokens 0; v ← float t0;
    Ok {| E_core := E_core d; spinor := spinor d;
          one_body_int := one_body_int d;
          two_body_int := <[(a_1, a_2, a_3, a_4) := v]> (two_body_int d) |}.

Definition empty_dump : dump :=
  {| E_core := 0; spinor := ∅; one_body_int := ∅; two_body_int := ∅ |}.

Definition get_integrals_FCIDUMP (fs : files) (self : MolecularData_Dirac)
  : result dump :=
  match fs !! ("FCIDUMP_" +:+ name self) with
  | Some lines =>
      let num_lines := length lines in
      let '(start_reading, rest) := skip_header lines 0 in
      let listed_values := split <$> rest in
      for_in (range (num_lines - start_reading))
        (fun d row => tokens ← item listed_values row; store_row d tokens)
        empty_dump
  | None =>
      Raise (FileNotFoundError
               "FCIDUMP not found, first make a run_dirac calculation")
  end.

(** *** [get_energies] *)

Definition hf_label : string := "Total energy                             :".
Definition mp2_label : string := "@ Total MP2 energy".
Definition ccsd_label : string := "@ Total CCSD energy".

(** The body of the loop over the lines of the log. *)
Definition scan_line (e : energies) (line : string) : result energies :=
  e ← (if contains hf_label line
       then t ← rsplit_last line;
            Ok {| hf_energy := Some t; mp2_energy := mp2_energy e;
                  ccsd_energy := ccsd_energy e |}
       else Ok e);
  e ← (if contains mp2_label line
       then t ← rsplit_last line;
            Ok {| hf_energy := hf_energy e; mp2_energy := Some t;
                  ccsd_energy := ccsd_energy e |}
       else Ok e);
  if contains ccsd_label line
  then t ← rsplit_last line;
       Ok {| hf_energy := hf_energy e; mp2_energy := mp2_energy e;
             ccsd_energy := Some t |}
  else Ok e.

Definition no_energies : energies :=
  {| hf_energy := None; mp2_energy := None; ccsd_energy := None |}.

Definition get_energies (fs : files) (self : MolecularData_Dirac)
  : result energies :=
  match fs !! (name self +:+ ".out") with
  | Some lines => for_in lines scan_line no_energies
  | None =>
      Raise (FileNotFoundError
               "output not found, check your run_dirac calculation")
  end.

(** *** [get_molecular_hamiltonian] *)

(** The relativistic branch: one loop nest fills both arrays. [rel] is the
    test [self.relativistic is True] of the innermost condition. *)
Definition fill_relativistic (rel : bool)
    (one_body_integrals : gmap (Z * Z) Q)
    (two_body_integrals : gmap (Z * Z * Z * Z) Q)
    (n_qubits : nat) (st : array2 * array4) : result (array2 * array4) :=
  for_in (range n_qubits) (fun st p =>
    for_in (range n_qubits) (fun st q =>
      st ← match one_body_integrals !! (succ_key p, succ_key q) with
           | Some v => one ← dset st.1 (p, q) v; Ok (one, st.2)
           | None => Ok st
           end;
      for_in (range n_qubits) (fun st r =>
        for_in (range n_qubits) (fun st s =>
          match two_body_integrals
                  !! (succ_key p, succ_key q, succ_key r, succ_key s) with
          | Some v =>
              if rel then two ← dset st.2 (p, r, s, q) (v / 2)%Q; Ok (st.1, two)
              else Ok st
          | None => Ok st
          end) st) st) st) st.

(** The restricted branch, first loop nest: the one-body integrals, mirrored. *)
Definition fill_one_body_restricted (one_body_integrals : gmap (Z * Z) Q)
    (n_qubits : nat) (one : array2) : result array2 :=
  for_in (range n_qubits) (fun one p =>
    for_in (range n_qubits) (fun one q =>
      match one_body_integrals !! (succ_key p, succ_key q) with
      | Some v => one ← dset one (p, q) v; dset one (q, p) v
      | None => Ok one
      end) one) one.

(** The eight assignments of the [#permutation symmetry] loop body, in the
    order of the source. *)
Definition symmetric_cells (p q r s : nat) : list cell4 :=
  [ (2 * p, 2 * r, 2 * s, 2 * q);
    (2 * q, 2 * r, 2 * s, 2 * p);
    (2 * p, 2 * s, 2 * r, 2 * q);
    (2 * q, 2 * s, 2 * r, 2 * p);
    (2 * r, 2 * p, 2 * q, 2 * s);
    (2 * s, 2 * p, 2 * q, 2 * r);
    (2 * r, 2 * q, 2 * p, 2 * s);
    (2 * s, 2 * q, 2 * p, 2 * r) ]%nat.

(** Second loop nest: [#permutation symmetry]. *)
Definition permutation_symmetry (two_body_integrals : gmap (Z * Z * Z * Z) Q)
    (n_qubits : nat) (two : array4) : result array4 :=
  for_in (range (n_qubits / 2)) (fun two p =>
    for_in (range (n_qubits / 2)) (fun two q =>
      for_in (range (n_qubits / 2)) (fun two r =>
        for_in (range (n_qubits / 2)) (fun two s =>
          match two_body_integrals
                  !! (odd_key p, odd_key q, odd_key r, odd_key s) with
          | Some v =>
              for_in (symmetric_cells p q r s)
                (fun two c => dset two c (v / 2)%Q) two
          | None => Ok two
          end) two) two) two) two.

(** Third loop nest: [# restricted calculation]. Each assignment reads the
    all-even cell again. *)
Definition restricted_calculation (n_qubits : nat) (two : array4)
  : result array4 :=
  for_in (range (n_qubits / 2)) (fun two p =>
    for_in (range (n_qubits / 2)) (fun two q =>
      for_in (range (n_qubits / 2)) (fun two r =>
        for_in (range (n_qubits / 2)) (fun two s =>
          v ← dget two (2 * p, 2 * q, 2 * r, 2 * s)%nat;
          two ← dset two (2 * p + 1, 2 * q, 2 * r, 2 * s + 1)%nat v;
          v ← dget two (2 * p, 2 * q, 2 * r, 2 * s)%nat;
          two ← dset two (2 * p, 2 * q + 1, 2 * r + 1, 2 * s)%nat v;
          v ← dget two (2 * p, 2 * q, 2 * r, 2 * s)%nat;
          dset two (2 * p + 1, 2 * q + 1, 2 * r + 1, 2 * s + 1)%nat v)
        two) two) two) two.

(** The two branches, up to the [# Truncate.] comment. *)
Definition fill_coefficients (rel : bool)
    (one_body_integrals : gmap (Z * Z) Q)
    (two_body_integrals : gmap (Z * Z * Z * Z) Q)
    (n_qubits : nat) : result (array2 * array4) :=
  let one_body_coefficients := zeros2 n_qubits in
  let two_body_coefficients := zeros4 n_qubits in
  if rel then
    fill_relativistic rel one_body_integrals two_body_integrals n_qubits
      (one_body_coefficients, two_body_coefficients)
  else
    one ← fill_one_body_restricted one_body_integrals n_qubits
            one_body_coefficients;
    two ← permutation_symmetry two_body_integrals n_qubits
            two_body_coefficients;
    two ← restricted_calculation n_qubits two;
    Ok (one, two).

(** [a[numpy.absolute(a) < EQ_TOLERANCE] = 0.] on one entry, with the
    tolerance made explicit. *)
Definition truncate_at (tol x : Q) : Q :=
  if Qltb (Qabs x) tol then 0%Q else x.

Definition truncate2_at (tol : Q) (a : array2) : array2 :=
  fmap (M := list) (fmap (M := list) (truncate_at tol)) a.

Definition truncate4_at (tol : Q) (a : array4) : array4 :=
  fmap (M := list) (fmap (M := list) (fmap (M := list)
    (fmap (M := list) (truncate_at tol)))) a.

Definition truncate2 : array2 -> array2 := truncate2_at EQ_TOLERANCE.
Definition truncate4 : array4 -> array4 := truncate4_at EQ_TOLERANCE.

Definition get_molecular_hamiltonian (fs : files) (self : MolecularData_Dirac)
  : result (InteractionOperator * array2 * array4) :=
  d ← get_integrals_FCIDUMP fs self;
  let one_body_integrals := one_body_int d in
  let two_body_integrals := two_body_int d in
  let n_qubits := size one_body_integrals in
  st ← fill_coefficients (relativistic self) one_body_integrals
         two_body_integrals n_qubits;
  let one_body_coefficients := truncate2 st.1 in
  let two_body_coefficients := truncate4 st.2 in
  let molecular_hamiltonian :=
    {| constant := E_core d; one_body_tensor := one_body_coefficients;
       two_body_tensor := two_body_coefficients |} in
  Ok (molecular_hamiltonian, one_body_coefficients, two_body_coefficients).

(** [save]: [self.n_orbitals = len(self.spinor)]. *)
Definition n_orbitals (d : dump) : nat := size (spinor d).

End Pipeline.

(** ** Decimal conversions for the worked examples

    The proofs hold for any [py_int] and [py_float]; the examples run with
    these two, which read plain decimal numerals. *)

Definition digit (c : Ascii.ascii) : option Z :=
  let n := Ascii.nat_of_ascii c in
  if (48 <=? n) && (n <=? 57) then Some (Z.of_nat (n - 48)) else None.

Fixpoint digits (acc : Z) (s : string) : option Z :=
  match s with
  | EmptyString => Some acc
  | String c s' => d ← digit c; digits (10 * acc + d) s'
  end.

Definition dec_int (s : string) : option Z :=
  match s with
  | EmptyString => None
  | String "-"%char (String c s') => Z.opp <$> digits 0 (String c s')
  | _ => digits 0 s
  end.

(** Digits after the point: the numerator and the power of ten. *)
Fixpoint fraction (num : Z) (den : positive) (s : string)
  : option (Z * positive) :=
  match s with
  | EmptyString => Some (num, den)
  | String c s' => d ← digit c; fraction (10 * num + d) (10 * den) s'
  end.

Fixpoint dec_unsigned (acc : Z) (s : string) : option Q :=
  match s with
  | EmptyString => Some (acc # 1)
  | String "."%char s' => '(num, den) ← fraction acc 1 s'; Some (Qred (num # den))
  | String c s' => d ← digit c; dec_unsigned (10 * acc + d) s'
  end.

Definition dec_float (s : string) : option Q :=
  match s with
  | EmptyString => None
  | String "-"%char s' => Qopp <$> dec_unsigned 0 s'
  | _ => dec_unsigned 0 s
  end.

(** * Write logs, ranges and symmetry classes *)

Section WriteLogs.
Context {A C : Type} `{Dense A C}.

(** The unchecked replay of a list of assignments [a[c] = v]. *)
Definition apply_writes (a : A) (ws : list (C * Q)) : A :=
  foldl (fun a w => dupd a w.1 w.2) a ws.

(** The checked replay, as a Python loop. *)
Definition store_all (a : A) (ws : list (C * Q)) : result A :=
  for_in ws (fun a w => dset a w.1 w.2) a.

(** Two arrays with the same cells in range. *)
Definition same_cells (a b : A) : Prop :=
  forall c, is_Some (dlookup a c) <-> is_Some (dlookup b c).

(** [a] has the cells of [a0] and agrees with it on the cells [E]. *)
Definition agrees (E : C -> Prop) (a0 a : A) : Prop :=
  same_cells a0 a /\ forall c, E c -> dlookup a c = dlookup a0 c.

End WriteLogs.

Definition in_range2 (n : nat) (c : cell2) : Prop :=
  let '(p, q) := c in p < n /\ q < n.

Definition in_range4 (n : nat) (c : cell4) : Prop :=
  let '(p, q, r, s) := c in p < n /\ q < n /\ r < n /\ s < n.

(** The numpy shape [(n, n)], resp. [(n, n, n, n)]. *)
Definition has_shape2 (n : nat) (a : array2) : Prop :=
  length a = n /\ Forall (fun row => length row = n) a.

Definition has_shape4 (n : nat) (a : array4) : Prop :=
  length a = n /\
  Forall (fun a1 => length a1 = n /\
    Forall (fun a2 => length a2 = n /\
      Forall (fun a3 : list Q => length a3 = n) a2) a1) a.

(** The eight index tuples of the real-integral symmetry group, in chemist
    order, as the specification lists them. *)
Definition symmetry_group (t : cell4) : list cell4 :=
  let '(p, q, r, s) := t in
  [ (p, q, r, s); (q, p, r, s); (p, q, s, r); (q, p, s, r);
    (r, s, p, q); (s, r, p, q); (r, s, q, p); (s, r, q, p) ].

(** Chemist [(p, q, r, s)] to physicist [(p, r, s, q)]. *)
Definition physicist (t : cell4) : cell4 :=
  let '(p, q, r, s) := t in (p, r, s, q).

(** The spin-up position of a spatial tuple. *)
Definition spin_up (t : cell4) : cell4 :=
  let '(p, q, r, s) := t in (2 * p, 2 * q, 2 * r, 2 * s).

Definition even_cell (t : cell4) : cell4 := spin_up (physicist t).

(** The stored key of a spatial tuple: four odd 1-based indices. *)
Definition odd_keys (t : cell4) : Z * Z * Z * Z :=
  let '(p, q, r, s) := t in (odd_key p, odd_key q, odd_key r, odd_key s).

(** The cells the third loop nest reads: the spin-up positions. *)
Definition all_even (c : cell4) : Prop := exists t, c = spin_up t.

(** The four spin sectors of a spatial tuple, as the third loop nest names
    them. *)
Definition spin_sectors (p q r s : nat) : list cell4 :=
  [ (2 * p, 2 * q, 2 * r, 2 * s);
    (2 * p + 1, 2 * q, 2 * r, 2 * s + 1);
    (2 * p, 2 * q + 1, 2 * r + 1, 2 * s);
    (2 * p + 1, 2 * q + 1, 2 * r + 1, 2 * s + 1) ]%nat.

(** The assignments of the loop nests, as lists. *)
Section Logs.
Variable one_body_integrals : gmap (Z * Z) Q.
Variable two_body_integrals : gmap (Z * Z * Z * Z) Q.
Variable n : nat.

(** What one iteration of the relativistic loop nest assigns. *)
Definition one_body_write (p q : nat) : list (cell2 * Q) :=
  match one_body_integrals !! (succ_key p, succ_key q) with
  | Some v => [((p, q), v)]
  | None => []
  end.

Definition two_body_write (p q r s : nat) : list (cell4 * Q) :=
  match two_body_integrals
          !! (succ_key p, succ_key q, succ_key r, succ_key s) with
  | Some v => [((p, r, s, q), (v / 2)%Q)]
  | None => []
  end.

(** The assignments of the whole loop nest, in program order. *)
Definition one_body_writes : list (cell2 * Q) :=
  p ← range n; q ← range n; one_body_write p q.

Definition two_body_writes : list (cell4 * Q) :=
  p ← range n; q ← range n; r ← range n; s ← range n; two_body_write p q r s.

(** What one iteration of each restricted loop nest assigns. *)
Definition mirror_write (p q : nat) : list (cell2 * Q) :=
  match one_body_integrals !! (succ_key p, succ_key q) with
  | Some v => [((p, q), v); ((q, p), v)]
  | None => []
  end.

Definition symmetry_write (p q r s : nat) : list (cell4 * Q) :=
  match two_body_integrals !! (odd_key p, odd_key q, odd_key r, odd_key s) with
  | Some v => (fun c => (c, (v / 2)%Q)) <$> symmetric_cells p q r s
  | None => []
  end.

(** [two] is the array the third loop nest starts from. *)
Definition spin_write (two : array4) (p q r s : nat) : list (cell4 * Q) :=
  let v := default 0%Q (lookup4 two (2 * p, 2 * q, 2 * r, 2 * s)) in
  [ ((2 * p + 1, 2 * q, 2 * r, 2 * s + 1), v);
    ((2 * p, 2 * q + 1, 2 * r + 1, 2 * s), v);
    ((2 * p + 1, 2 * q + 1, 2 * r + 1, 2 * s + 1), v) ].

(** The assignments of the three loop nests, in program order. *)
Definition mirror_writes : list (cell2 * Q) :=
  p ← range n; q ← range n; mirror_write p q.

Definition symmetry_writes : list (cell4 * Q) :=
  p ← range (n / 2); q ← range (n / 2); r ← range (n / 2); s ← range (n / 2);
  symmetry_write p q r s.

Definition spin_writes (two : array4) : list (cell4 * Q) :=
  p ← range (n / 2); q ← range (n / 2); r ← range (n / 2); s ← range (n / 2);
  spin_write two p q r s.

(** The arrays the restricted branch computes. *)
Definition one_restricted : array2 := apply_writes (zeros2 n) mirror_writes.
Definition two_symmetric : array4 := apply_writes (zeros4 n) symmetry_writes.
Definition two_restricted : array4 :=
  apply_writes two_symmetric (spin_writes two_symmetric).

End Logs.

(** The arrays before truncation, by branch. *)
Definition filled (rel : bool) (one_body_integrals : gmap (Z * Z) Q)
    (two_body_integrals : gmap (Z * Z * Z * Z) Q) (n : nat) : array2 * array4 :=
  if rel then
    (apply_writes (zeros2 n) (one_body_writes one_body_integrals n),
     apply_writes (zeros4 n) (two_body_writes two_body_integrals n))
  else
    (one_restricted one_body_integrals n, two_restricted two_body_integrals n).

(** * Records of the dump, and the reading of a log *)

(** The four classes of a record, and the rule of the specification: the
    trailing-zero pattern, checked in this order. *)
Inductive record_class : Type :=
| CoreEnergy
| OrbitalEnergy (a : Z)
| OneBodyIntegral (a b : Z)
| TwoBodyIntegral (a b c d : Z).

#[global] Instance record_class_eq_dec : EqDecision record_class.
Proof. solve_decision. Defined.

Definition classify (a b c d : Z) : record_class :=
  if decide (d = 0 /\ c = 0 /\ b = 0 /\ a = 0)%Z then CoreEnergy
  else if decide (d = 0 /\ c = 0 /\ b = 0 /\ a <> 0)%Z then OrbitalEnergy a
  else if decide (d = 0 /\ c = 0 /\ b <> 0)%Z then OneBodyIntegral a b
  else TwoBodyIntegral a b c d.

(** Where a record of a class is kept, and what storing it means. *)
Definition slot (cls : record_class) (dmp : dump) : option Q :=
  match cls with
  | CoreEnergy => Some (E_core dmp)
  | OrbitalEnergy a => spinor dmp !! a
  | OneBodyIntegral a b => one_body_int dmp !! (a, b)
  | TwoBodyIntegral a b c d => two_body_int dmp !! (a, b, c, d)
  end.

Definition record_store (cls : record_class) (v : Q) (dmp : dump) : dump :=
  match cls with
  | CoreEnergy =>
      {| E_core := v; spinor := spinor dmp;
         one_body_int := one_body_int dmp; two_body_int := two_body_int dmp |}
  | OrbitalEnergy a =>
      {| E_core := E_core dmp; spinor := <[a := v]> (spinor dmp);
         one_body_int := one_body_int dmp; two_body_int := two_body_int dmp |}
  | OneBodyIntegral a b =>
      {| E_core := E_core dmp; spinor := spinor dmp;
         one_body_int := <[(a, b) := v]> (one_body_int dmp);
         two_body_int := two_body_int dmp |}
  | TwoBodyIntegral a b c d =>
      {| E_core := E_core dmp; spinor := spinor dmp;
         one_body_int := one_body_int dmp;
         two_body_int := <[(a, b, c, d) := v]> (two_body_int dmp) |}
  end.

(** A parsed record: the value and the four integers. *)
Record integral_record : Type := {
  rec_value : Q;
  rec_a : Z; rec_b : Z; rec_c : Z; rec_d : Z;
}.

Definition rec_class (r : integral_record) : record_class :=
  classify (rec_a r) (rec_b r) (rec_c r) (rec_d r).

Definition store_record (dmp : dump) (r : integral_record) : dump :=
  record_store (rec_class r) (rec_value r) dmp.

Section Rows.
Variable py_int : string -> option Z.
Variable py_float : string -> option Q.

(** A row of tokens that the conversions accept: at least five tokens, a
    float and four integers. *)
Definition row_parses (tokens : list string) (r : integral_record) : Prop :=
  exists t0 t1 t2 t3 t4 rest,
    tokens = t0 :: t1 :: t2 :: t3 :: t4 :: rest /\
    py_float t0 = Some (rec_value r) /\
    py_int t1 = Some (rec_a r) /\ py_int t2 = Some (rec_b r) /\
    py_int t3 = Some (rec_c r) /\ py_int t4 = Some (rec_d r).

End Rows.

(** A label that starts with a non-blank character. *)
Definition starts_visible (label : string) : bool :=
  match label with
  | String c _ => negb (py_isspace c)
  | EmptyString => false
  end.

(** One label on one line: the last token of a matching line replaces what
    was found before. *)
Definition scan_label (label : string) (old : option string) (line : string)
  : option string :=
  if contains label line then last (split line) else old.

Definition scan_labels (e : energies) (line : string) : energies :=
  {| hf_energy := scan_label hf_label (hf_energy e) line;
     mp2_energy := scan_label mp2_label (mp2_energy e) line;
     ccsd_energy := scan_label ccsd_label (ccsd_energy e) line |}.

(** The token a label gets from a whole log: that of the last matching line,
    resp. of the first one (the reading of the specification). *)
Definition last_match (label : string) (lines : list string) : option string :=
  line ← last (filter (fun l => contains label l = true) lines);
  last (split line).

Definition first_match (label : string) (lines : list string) : option string :=
  line ← head (filter (fun l => contains label l = true) lines);
  last (split line).

(** * The rest of the module: tables, names, geometry files, the constructor *)

(** ** Further exceptions *)

(** The exceptions of the naming function and of the constructor, next to the
    built-in ones of the readers. *)
Inductive py_exn : Type :=
| Builtin (e : exn)
| KeyError
| AttributeError (attribute : string)
| MoleculeNameError (msg : string).

Inductive attempt (A : Type) : Type :=
| Return (a : A)
| Throw (e : py_exn).

Arguments Return {A} a.
Arguments Throw {A} e.

#[global] Instance attempt_ret : MRet attempt := fun A a => Return a.

#[global] Instance attempt_bind : MBind attempt := fun A B f m =>
  match m with
  | Return a => f a
  | Throw e => Throw e
  end.

(** ** The periodic table *)

Definition periodic_table : list string :=
  [ "?"; "H"; "He"; "Li"; "Be"; "B"; "C"; "N"; "O"; "F"; "Ne"; "Na"; "Mg";
    "Al"; "Si"; "P"; "S"; "Cl"; "Ar"; "K"; "Ca"; "Sc"; "Ti"; "V"; "Cr";
    "Mn"; "Fe"; "Co"; "Ni"; "Cu"; "Zn"; "Ga"; "Ge"; "As"; "Se"; "Br"; "Kr";
    "Rb"; "Sr"; "Y"; "Zr"; "Nb"; "Mo"; "Tc"; "Ru"; "Rh"; "Pd"; "Ag"; "Cd";
    "In"; "Sn"; "Sb"; "Te"; "I"; "Xe"; "Cs"; "Ba"; "La"; "Ce"; "Pr"; "Nd";
    "Pm"; "Sm"; "Eu"; "Gd"; "Tb"; "Dy"; "Ho"; "Er"; "Tm"; "Yb"; "Lu"; "Hf";
    "Ta"; "W"; "Re"; "Os"; "Ir"; "Pt"; "Au"; "Hg"; "Tl"; "Pb"; "Bi"; "Po";
    "At"; "Rn"; "Fr"; "Ra"; "Ac"; "Th"; "Pa"; "U"; "Np"; "Pu"; "Am"; "Cm";
    "Bk"; "Cf"; "Es"; "Fm"; "Md"; "No"; "Lr" ]%string.

(** [enumerate(l)]. *)
Definition enumerate {A : Type} (l : list A) : list (nat * A) :=
  zip (seq 0 (length l)) l.

(** The loop [periodic_hash_table[atom] = atomic_number]. *)
Definition periodic_hash_table : gmap string nat :=
  foldl (fun table '(atomic_number, atom) => <[atom := atomic_number]> table)
    ∅ (enumerate periodic_table).

(** [periodic_hash_table[atom]]. *)
Definition atomic_number (atom : string) : attempt nat :=
  match periodic_hash_table !! atom with
  | Some z => Return z
  | None => Throw KeyError
  end.

(** ** [sorted(l, key=...)] and other list operations *)

(** [l.count(x)]. *)
Definition count (x : string) (l : list string) : nat :=
  length (filter (fun y => y = x) l).

(** The keys are computed first, in the order of the list; the first failure
    is raised. *)
Fixpoint decorate {A : Type} (key : A -> attempt nat) (l : list A)
  : attempt (list (nat * A)) :=
  match l with
  | [] => Return []
  | x :: l' => k ← key x; d ← decorate key l'; Return ((k, x) :: d)
  end.

(** Insertion before the first element that is not smaller, from the right
    end of the list: a stable sort. *)
Fixpoint insert_sorted {A : Type} (x : nat * A) (l : list (nat * A))
  : list (nat * A) :=
  match l with
  | [] => [x]
  | y :: l' => if x.1 <=? y.1 then x :: y :: l' else y :: insert_sorted x l'
  end.

Definition sorted {A : Type} (key : A -> attempt nat) (l : list A)
  : attempt (list A) :=
  d ← decorate key l; Return (snd <$> foldr insert_sorted [] d).

(** [[f(x) for x in l]] for an [f] that may raise. *)
Fixpoint comprehension {A B : Type} (f : A -> attempt B) (l : list A)
  : attempt (list B) :=
  match l with
  | [] => Return []
  | x :: l' => y ← f x; ys ← comprehension f l'; Return (y :: ys)
  end.

(** [s[-n:]] and [s[:len(s) - n]]; the latter is only evaluated on strings of
    [n] characters or more. *)
Definition last_chars (n : nat) (s : string) : string :=
  String.substring (String.length s - n) n s.

Definition without_last_chars (n : nat) (s : string) : string :=
  String.substring 0 (String.length s - n) s.

(** ** [name_molecule] *)

(** The [geometry] argument: a string, or a list of atoms with coordinates. *)
Inductive geometry_arg : Type :=
| GeometryName (s : string)
| GeometryAtoms (atoms : list (string * (Q * Q * Q))).

Definition multiplicity_dict : gmap Z string :=
  list_to_map
    [ (1, "singlet"); (2, "doublet"); (3, "triplet"); (4, "quartet");
      (5, "quintet"); (6, "sextet"); (7, "septet"); (8, "octet");
      (9, "nonet"); (10, "dectet"); (11, "undectet");
      (12, "duodectet") ]%Z%string.

Section Naming.

(** The order in which [set(atoms)] is iterated, and [str] on the speed of
    light. *)
Variable set_order : list string -> list string.
Variable float_str : Q -> string.

(** The molecular formula: the atoms with their counts, by atomic number. *)
Definition formula (geometry : list (string * (Q * Q * Q))) : attempt string :=
  let atoms := fst <$> geometry in
  let atom_charge_info :=
    (fun atom => (atom, count atom atoms)) <$> set_order atoms in
  sorted_info ← sorted (fun atom => atomic_number atom.1) atom_charge_info;
  match sorted_info with
  | [] => Throw (Builtin IndexError)
  | first :: rest =>
      Return (foldl (fun name info => name +:+ "-" +:+ info.1 +:+ pretty info.2)
                (first.1 +:+ pretty first.2) rest)
  end.

Definition name_molecule (geometry : geometry_arg) (basis : string)
    (multiplicity charge : Z) (relativistic symmetry : bool)
    (speed_of_light : option Q) (description : string) : attempt string :=
  name ← match geometry with
         | GeometryAtoms g => formula g
         | GeometryName s => Return s
         end;
  let name := name +:+ "_" +:+ basis in
  name ← match multiplicity_dict !! multiplicity with
         | None => Throw (MoleculeNameError "Invalid spin multiplicity provided.")
         | Some word => Return (name +:+ "_" +:+ word)
         end;
  let name :=
    if (0 <? charge)%Z then name +:+ "_" +:+ pretty charge +:+ "+"
    else if (charge <? 0)%Z then name +:+ "_" +:+ pretty charge +:+ "-"
    else name in
  let name :=
    match description with
    | EmptyString => name
    | _ => name +:+ "_" +:+ description
    end in
  let name := if relativistic then name +:+ "_rel" else name in
  let name := if symmetry then name else name +:+ "_nosym" in
  let name :=
    match speed_of_light with
    | Some c => name +:+ "_c" +:+ float_str c
    | None => name
    end in
  Return name.

End Naming.

(** ** [geometry_from_file] *)

Section Geometry.

(** [float(token)], and the message of the error [open] raises on a path. *)
Variable py_float : string -> option Q.
Variable open_error : string -> string.

(** The body of the loop over the lines. *)
Definition read_atom (geometry : list (string * (Q * Q * Q))) (line : string)
  : result (list (string * (Q * Q * Q))) :=
  let data := split line in
  if length data =? 4 then
    atom ← item data 0;
    t1 ← item data 1; x ← float py_float t1;
    t2 ← item data 2; y ← float py_float t2;
    t3 ← item data 3; z ← float py_float t3;
    Ok (geometry ++ [(atom, (x, y, z))])
  else Ok geometry.

Definition geometry_from_file (fs : files) (file_name : string)
  : result (list (string * (Q * Q * Q))) :=
  match fs !! file_name with
  | Some lines => for_in lines read_atom []
  | None => Raise (FileNotFoundError (open_error file_name))
  end.

End Geometry.

(** ** The constructor and the electron counts *)

Inductive protons_value : Type :=
| ProtonNumbers (l : list nat)
| ProtonsZero.

(** The attributes [__init__] sets to something else than [None]. *)
Module Molecule.
Record t : Type := {
  geometry : geometry_arg;
  basis : string;
  multiplicity : Z;
  charge : Z;
  description : string;
  relativistic : bool;
  symmetry : bool;
  speed_of_light : option Q;
  special_basis : option (list string);
  name : string;
  filename : string;
  n_atoms : nat;
  atoms : list string;
  protons : protons_value;
  n_electrons : Z;
}.
End Molecule.

(** [sum(l)]. *)
Definition sum (l : list nat) : Z := foldl (fun acc z => acc + Z.of_nat z)%Z 0%Z l.

Section Constructor.
Variable set_order : list string -> list string.
Variable float_str : Q -> string.

(** [openfermion.config.DATA_DIRECTORY]. *)
Variable DATA_DIRECTORY : string.

(** [None] is an argument left at its default [None]; [speed_of_light] is
    [None] for the default [False]. The methods [load] and
    [init_lazy_properties] the loading branch calls are not defined by the
    class: the call of the first one raises [AttributeError]. *)
Definition __init__ (geometry : option geometry_arg) (basis : option string)
    (special_basis : option (list string)) (multiplicity : option Z)
    (charge : Z) (description filename : string)
    (data_directory : option string) (relativistic symmetry : bool)
    (speed_of_light : option Q) : attempt Molecule.t :=
  match geometry, basis, multiplicity with
  | Some geometry, Some basis, Some multiplicity =>
      name ← name_molecule set_order float_str geometry basis multiplicity
               charge relativistic symmetry speed_of_light description;
      let filename :=
        match filename with
        | EmptyString =>
            match data_directory with
            | None => DATA_DIRECTORY +:+ "/" +:+ name
            | Some directory => directory +:+ "/" +:+ name
            end
        | _ =>
            if String.eqb (last_chars 5 filename) ".hdf5"
            then without_last_chars 5 filename else filename
        end in
      match geometry with
      | GeometryAtoms g =>
          atoms ← sorted atomic_number (fst <$> g);
          protons ← comprehension atomic_number atoms;
          Return {| Molecule.geometry := geometry; Molecule.basis := basis;
                    Molecule.multiplicity := multiplicity;
                    Molecule.charge := charge;
                    Molecule.description := description;
                    Molecule.relativistic := relativistic;
                    Molecule.symmetry := symmetry;
                    Molecule.speed_of_light := speed_of_light;
                    Molecule.special_basis := special_basis;
                    Molecule.name := name; Molecule.filename := filename;
                    Molecule.n_atoms := length g; Molecule.atoms := atoms;
                    Molecule.protons := ProtonNumbers protons;
                    Molecule.n_electrons := (sum protons - charge)%Z |}
      | GeometryName _ =>
          Return {| Molecule.geometry := geometry; Molecule.basis := basis;
                    Molecule.multiplicity := multiplicity;
                    Molecule.charge := charge;
                    Molecule.description := description;
                    Molecule.relativistic := relativistic;
                    Molecule.symmetry := symmetry;
                    Molecule.speed_of_light := speed_of_light;
                    Molecule.special_basis := special_basis;
                    Molecule.name := name; Molecule.filename := filename;
                    Molecule.n_atoms := 0; Molecule.atoms := [];
                    Molecule.protons := ProtonsZero;
                    Molecule.n_electrons := 0 |}
      end
  | _, _, _ =>
      match filename with
      | EmptyString => Throw (Builtin ValueError)
      | _ => Throw (AttributeError "load")
      end
  end.

End Constructor.

Definition get_n_alpha_electrons (self : Molecule.t) : Z :=
  (Molecule.n_electrons self + (Molecule.multiplicity self - 1)) / 2.

Definition get_n_beta_electrons (self : Molecule.t) : Z :=
  (Molecule.n_electrons self - (Molecule.multiplicity self - 1)) / 2.

(** The view of a molecule the readers take. *)
Definition reader_view (self : Molecule.t) : MolecularData_Dirac :=
  {| name := Molecule.name self; relativistic := Molecule.relativistic self |}.

(** What is known of the iteration over [set(atoms)]: every atom of the list
    once, in some order. *)
Definition set_iteration (set_order : list string -> list string) : Prop :=
  forall l, NoDup (set_order l) /\ forall x, x ∈ set_order l <-> x ∈ l.

(** The order of the keys in a decorated list. *)
Definition key_le {A : Type} (x y : nat * A) : Prop := x.1 <= y.1.

(** The key of an element, where there is one. *)
Definition key_of {A : Type} (key : A -> attempt nat) (x : A) : nat * A :=
  (match key x with Return k => k | Throw _ => 0 end, x).

(** * Laws of the arrays *)

Lemma lookup2_upd2_eq (a : array2) (c : cell2) (v : Q) :
  is_Some (lookup2 a c) -> lookup2 (upd2 a c v) c = Some v.
Proof.
  destruct c as [p q]; simpl. intros [x Hx].
  rewrite list_lookup_alter. rewrite decide_True by done.
  destruct (a !! p) as [row|] eqn:Hrow; simpl in *; [|done].
  apply list_lookup_insert_eq. by eapply lookup_lt_Some.
Qed.

Lemma lookup2_upd2_ne (a : array2) (c c' : cell2) (v : Q) :
  c <> c' -> lookup2 (upd2 a c v) c' = lookup2 a c'.
Proof.
  destruct c as [p q], c' as [p' q']; simpl. intros Hne.
  rewrite list_lookup_alter. destruct (decide (p = p')) as [->|]; [|done].
  destruct (a !! p') as [row|]; simpl; [|done].
  apply list_lookup_insert_ne. congruence.
Qed.

Lemma lookup4_upd4_eq (a : array4) (c : cell4) (v : Q) :
  is_Some (lookup4 a c) -> lookup4 (upd4 a c v) c = Some v.
Proof.
  destruct c as [[[p q] r] s]; simpl. intros [x Hx].
  rewrite list_lookup_alter, decide_True by done.
  destruct (a !! p) as [a1|]; simpl in *; [|done].
  rewrite list_lookup_alter, decide_True by done.
  destruct (a1 !! q) as [a2|]; simpl in *; [|done].
  rewrite list_lookup_alter, decide_True by done.
  destruct (a2 !! r) as [a3|]; simpl in *; [|done].
  apply list_lookup_insert_eq. by eapply lookup_lt_Some.
Qed.

Lemma lookup4_upd4_ne (a : array4) (c c' : cell4) (v : Q) :
  c <> c' -> lookup4 (upd4 a c v) c' = lookup4 a c'.
Proof.
  destruct c as [[[p q] r] s], c' as [[[p' q'] r'] s']; simpl. intros Hne.
  rewrite list_lookup_alter. destruct (decide (p = p')) as [->|]; [|done].
  destruct (a !! p') as [a1|]; simpl; [|done].
  rewrite list_lookup_alter. destruct (decide (q = q')) as [->|]; [|done].
  destruct (a1 !! q') as [a2|]; simpl; [|done].
  rewrite list_lookup_alter. destruct (decide (r = r')) as [->|]; [|done].
  destruct (a2 !! r') as [a3|]; simpl; [|done].
  apply list_lookup_insert_ne. congruence.
Qed.

#[global] Instance dense2_laws : DenseLaws array2 cell2.
Proof. split; [exact lookup2_upd2_eq|exact lookup2_upd2_ne]. Qed.

#[global] Instance dense4_laws : DenseLaws array4 cell4.
Proof. split; [exact lookup4_upd4_eq|exact lookup4_upd4_ne]. Qed.

(** * Reasoning about loops in the error monad *)

Lemma bind_Ok {A B : Type} (m : result A) (f : A -> result B) (a : A) :
  m = Ok a -> (m ≫= f) = f a.
Proof. by intros ->. Qed.

Lemma for_in_ext {S B : Type} (xs : list B) (f g : S -> B -> result S) (s : S) :
  (forall s' x, x ∈ xs -> f s' x = g s' x) ->
  for_in xs f s = for_in xs g s.
Proof.
  revert s. induction xs as [|x xs IH]; intros s Hfg; simpl; [done|].
  rewrite Hfg by left. destruct (g s x) as [s'|e]; simpl; [|done].
  apply IH. intros s'' y Hy. apply Hfg. by right.
Qed.

Lemma for_in_app {S B : Type} (xs ys : list B) (f : S -> B -> result S) (s : S)
    :
  for_in (xs ++ ys) f s = s' ← for_in xs f s; for_in ys f s'.
Proof.
  revert s. induction xs as [|x xs IH]; intros s; simpl; [done|].
  destruct (f s x) as [s'|e]; simpl; [apply IH|done].
Qed.

(** A loop nest is one loop over the concatenated inner iterations. *)
Lemma for_in_bind {S B D : Type} (xs : list B) (h : B -> list D)
    (g : S -> D -> result S) (s : S) :
  for_in xs (fun s x => for_in (h x) g s) s = for_in (xs ≫= h) g s.
Proof.
  revert s. induction xs as [|x xs IH]; intros s; simpl; [done|].
  rewrite for_in_app. destruct (for_in (h x) g s) as [s'|e]; simpl; [apply
      IH|done].
Qed.

Lemma for_in_fmap {S B D : Type} (xs : list B) (h : B -> D)
    (g : S -> D -> result S) (s : S) :
  for_in (h <$> xs) g s = for_in xs (fun s x => g s (h x)) s.
Proof.
  revert s. induction xs as [|x xs IH]; intros s; simpl; [done|].
  destruct (g s (h x)) as [s'|e]; simpl; [apply IH|done].
Qed.

(** A loop whose body succeeds and keeps an invariant succeeds, and computes
    the left fold of the pure body. *)
Lemma for_in_foldl {S B : Type} (P : S -> Prop) (xs : list B)
    (f : S -> B -> result S) (g : S -> B -> S) (s : S) :
  P s ->
  (forall s' x, x ∈ xs -> P s' -> f s' x = Ok (g s' x) /\ P (g s' x)) ->
  for_in xs f s = Ok (foldl g s xs) /\ P (foldl g s xs).
Proof.
  revert s. induction xs as [|x xs IH]; intros s Hs Hf; simpl; [done|].
  destruct (Hf s x) as [-> HP]; [by left|done|]. simpl.
  apply IH; [done|]. intros s' y Hy. apply Hf. by right.
Qed.

(** Two loops over the same list that touch the two halves of a pair. *)
Lemma for_in_pair {S1 S2 B : Type} (xs : list B)
    (f : S1 * S2 -> B -> result (S1 * S2))
    (f1 : S1 -> B -> result S1) (f2 : S2 -> B -> result S2)
    (s1 s1' : S1) (s2 s2' : S2) :
  (forall a b a' b' x, x ∈ xs ->
     f1 a x = Ok a' -> f2 b x = Ok b' -> f (a, b) x = Ok (a', b')) ->
  for_in xs f1 s1 = Ok s1' ->
  for_in xs f2 s2 = Ok s2' ->
  for_in xs f (s1, s2) = Ok (s1', s2').
Proof.
  revert s1 s2. induction xs as [|x xs IH]; intros s1 s2 Hf H1 H2; simpl in *.
  - by simplify_eq.
  - destruct (f1 s1 x) as [a'|] eqn:E1; simpl in *; [|done].
    destruct (f2 s2 x) as [b'|] eqn:E2; simpl in *; [|done].
    rewrite (Hf s1 s2 a' b') by (done || by left). simpl.
    apply IH; [|done..]. intros a b a'' b'' y Hy. apply Hf. by right.
Qed.

(** A loop on a pair that only touches the second half. *)
Lemma for_in_snd {S1 S2 B : Type} (xs : list B)
    (f : S1 * S2 -> B -> result (S1 * S2)) (f2 : S2 -> B -> result S2)
    (s1 : S1) (s2 s2' : S2) :
  (forall b b' x, x ∈ xs -> f2 b x = Ok b' -> f (s1, b) x = Ok (s1, b')) ->
  for_in xs f2 s2 = Ok s2' ->
  for_in xs f (s1, s2) = Ok (s1, s2').
Proof.
  revert s2. induction xs as [|x xs IH]; intros s2 Hf H2; simpl in *.
  - by simplify_eq.
  - destruct (f2 s2 x) as [b'|] eqn:E2; simpl in *; [|done].
    rewrite (Hf s2 b') by (done || by left). simpl.
    apply IH; [|done]. intros b b'' y Hy. apply Hf. by right.
Qed.

Lemma foldl_bind {S B D : Type} (xs : list B) (h : B -> list D)
    (g : S -> D -> S) (s : S) :
  foldl g s (xs ≫= h) = foldl (fun s x => foldl g s (h x)) s xs.
Proof.
  revert s. induction xs as [|x xs IH]; intros s; simpl; [done|].
  by rewrite foldl_app, IH.
Qed.

Lemma foldl_invariant {S B : Type} (P : S -> Prop) (xs : list B)
    (g : S -> B -> S) (s : S) :
  P s -> (forall s' x, x ∈ xs -> P s' -> P (g s' x)) -> P (foldl g s xs).
Proof.
  revert s. induction xs as [|x xs IH]; intros s Hs Hg; simpl; [done|].
  apply IH; [apply Hg; [by left|done]|]. intros s' y Hy. apply Hg. by right.
Qed.

(** * Write logs on a dense array *)

Section WriteLog.
Context {A C : Type} `{DenseLaws A C}.

Lemma same_cells_refl (a : A) : same_cells a a.
Proof. by intros c. Qed.

Lemma same_cells_trans (a b d : A) :
  same_cells a b -> same_cells b d -> same_cells a d.
Proof. intros Hab Hbd c. by rewrite (Hab c). Qed.

Context `{EqDecision C}.

Lemma same_cells_upd (a : A) (c : C) (v : Q) :
  is_Some (dlookup a c) -> same_cells a (dupd a c v).
Proof.
  intros Hc c'. destruct (decide (c = c')) as [<-|Hne].
  - rewrite dlookup_upd_eq by done. split; [by eauto|done].
  - by rewrite dlookup_upd_ne.
Qed.

Lemma store_all_Ok (a : A) (ws : list (C * Q)) :
  (forall w, w ∈ ws -> is_Some (dlookup a w.1)) ->
  store_all a ws = Ok (apply_writes a ws) /\ same_cells a (apply_writes a ws).
Proof.
  intros Hws. unfold store_all, apply_writes.
  destruct (for_in_foldl (fun b => same_cells a b) ws
              (fun a w => dset a w.1 w.2) (fun a w => dupd a w.1 w.2) a)
    as [-> ?]; [apply same_cells_refl| |done].
  intros b w Hw Hb. unfold dset.
  destruct (proj1 (Hb w.1) (Hws w Hw)) as [x Hx]. rewrite Hx. split; [done|].
  eapply same_cells_trans; [done|]. apply same_cells_upd. by rewrite Hx.
Qed.

Lemma apply_writes_app (a : A) (ws1 ws2 : list (C * Q)) :
  apply_writes a (ws1 ++ ws2) = apply_writes (apply_writes a ws1) ws2.
Proof. apply foldl_app. Qed.

(** A cell no assignment of the log names keeps its content. *)
Lemma dlookup_apply_writes_notin (a : A) (ws : list (C * Q)) (c : C) :
  (forall v, (c, v) ∉ ws) ->
  dlookup (apply_writes a ws) c = dlookup a c.
Proof.
  revert a. induction ws as [|[c' v'] ws IH]; intros a Hc; simpl; [done|].
  unfold apply_writes in *. simpl. rewrite IH.
  - apply dlookup_upd_ne. intros ->. apply (Hc v'). by left.
  - intros v Hv. apply (Hc v). by right.
Qed.

(** A cell that holds [v] keeps it when every assignment to it stores [v]. *)
Lemma dlookup_apply_writes_keep (a : A) (ws : list (C * Q)) (c : C) (v : Q) :
  dlookup a c = Some v ->
  (forall v', (c, v') ∈ ws -> v' = v) ->
  dlookup (apply_writes a ws) c = Some v.
Proof.
  revert a. induction ws as [|[c' v'] ws IH]; intros a Ha Hall; [done|].
  unfold apply_writes in *. simpl. apply IH.
  - destruct (decide (c' = c)) as [->|Hne].
    + rewrite (Hall v') by left. apply dlookup_upd_eq. by rewrite Ha.
    + by rewrite dlookup_upd_ne.
  - intros x Hx. apply Hall. by right.
Qed.

(** A cell in range for which every assignment of the log stores the same
    value holds that value. *)
Lemma dlookup_apply_writes_unique (a : A) (ws : list (C * Q)) (c : C) (v : Q) :
  is_Some (dlookup a c) ->
  (c, v) ∈ ws ->
  (forall v', (c, v') ∈ ws -> v' = v) ->
  dlookup (apply_writes a ws) c = Some v.
Proof.
  revert a. induction ws as [|[c' v'] ws IH]; intros a Ha Hin Hall.
  - by apply elem_of_nil in Hin.
  - change (dlookup (apply_writes (dupd a c' v') ws) c = Some v).
    assert (Htl : forall x, (c, x) ∈ ws -> x = v).
    { intros x Hx. apply Hall. by right. }
    destruct (decide (c' = c)) as [->|Hne].
    + apply dlookup_apply_writes_keep; [|done].
      rewrite (Hall v') by left. by apply dlookup_upd_eq.
    + apply IH; [by rewrite dlookup_upd_ne| |done].
      apply elem_of_cons in Hin as [?|?]; [by simplify_eq|done].
Qed.

End WriteLog.

(** * Shapes and ranges *)

Lemma lookup2_zeros2 (n : nat) (c : cell2) :
  in_range2 n c -> lookup2 (zeros2 n) c = Some 0%Q.
Proof.
  destruct c as [p q]. intros [Hp Hq]. unfold lookup2, zeros2.
  rewrite lookup_replicate_2 by done. simpl. by apply lookup_replicate_2.
Qed.

Lemma lookup4_zeros4 (n : nat) (c : cell4) :
  in_range4 n c -> lookup4 (zeros4 n) c = Some 0%Q.
Proof.
  destruct c as [[[p q] r] s]. intros (Hp & Hq & Hr & Hs). unfold lookup4,
      zeros4.
  rewrite lookup_replicate_2 by done. simpl.
  rewrite lookup_replicate_2 by done. simpl.
  rewrite lookup_replicate_2 by done. simpl. by apply lookup_replicate_2.
Qed.

Lemma lookup2_zeros2_is_Some (n : nat) (c : cell2) :
  is_Some (lookup2 (zeros2 n) c) <-> in_range2 n c.
Proof.
  split; [|intros Hc; rewrite lookup2_zeros2; eauto].
  destruct c as [p q]. unfold lookup2, zeros2. intros [x Hx].
  destruct (replicate n (replicate n 0%Q) !! p) as [row|] eqn:Hrow; [|done].
  apply lookup_replicate in Hrow as [-> Hp]. simpl in Hx.
  apply lookup_replicate in Hx as [_ Hq]. done.
Qed.

Lemma lookup4_zeros4_is_Some (n : nat) (c : cell4) :
  is_Some (lookup4 (zeros4 n) c) <-> in_range4 n c.
Proof.
  split; [|intros Hc; rewrite lookup4_zeros4; eauto].
  destruct c as [[[p q] r] s]. unfold lookup4, zeros4. intros [x Hx].
  destruct (replicate n _ !! p) as [a1|] eqn:H1; [|done].
  apply lookup_replicate in H1 as [-> Hp]. simpl in Hx.
  destruct (replicate n _ !! q) as [a2|] eqn:H2; [|done].
  apply lookup_replicate in H2 as [-> Hq]. simpl in Hx.
  destruct (replicate n _ !! r) as [a3|] eqn:H3; [|done].
  apply lookup_replicate in H3 as [-> Hr]. simpl in Hx.
  apply lookup_replicate in Hx as [_ Hs]. done.
Qed.

Lemma elem_of_range (n k : nat) : k ∈ range n <-> k < n.
Proof. unfold range. rewrite elem_of_seq. lia. Qed.

Lemma has_shape2_zeros2 (n : nat) : has_shape2 n (zeros2 n).
Proof.
  split; [apply length_replicate|].
  apply Forall_replicate, length_replicate.
Qed.

Lemma has_shape4_zeros4 (n : nat) : has_shape4 n (zeros4 n).
Proof.
  unfold zeros4.
  repeat (split; [apply length_replicate|apply Forall_replicate]).
  apply length_replicate.
Qed.

Lemma has_shape2_upd2 (n : nat) (a : array2) (c : cell2) (v : Q) :
  has_shape2 n a -> has_shape2 n (upd2 a c v).
Proof.
  destruct c as [p q]. intros [Hlen Hrows]. split; simpl.
  - by rewrite length_alter.
  - apply Forall_alter; [done|]. intros row _ Hrow. by rewrite length_insert.
Qed.

Lemma has_shape4_upd4 (n : nat) (a : array4) (c : cell4) (v : Q) :
  has_shape4 n a -> has_shape4 n (upd4 a c v).
Proof.
  destruct c as [[[p q] r] s]. intros [Hlen H1]. split; simpl.
  - by rewrite length_alter.
  - apply Forall_alter; [done|]. intros a1 _ [Hl1 H2]. split.
    + by rewrite length_alter.
    + apply Forall_alter; [done|]. intros a2 _ [Hl2 H3]. split.
      * by rewrite length_alter.
      * apply Forall_alter; [done|]. intros a3 _ Hl3. by rewrite length_insert.
Qed.

Lemma has_shape2_apply_writes (n : nat) (ws : list (cell2 * Q)) (a : array2) :
  has_shape2 n a -> has_shape2 n (apply_writes a ws).
Proof.
  intros Ha. unfold apply_writes.
  apply (foldl_invariant (has_shape2 n)); [done|].
  intros a' w _ Ha'. by apply has_shape2_upd2.
Qed.

Lemma has_shape4_apply_writes (n : nat) (ws : list (cell4 * Q)) (a : array4) :
  has_shape4 n a -> has_shape4 n (apply_writes a ws).
Proof.
  intros Ha. unfold apply_writes.
  apply (foldl_invariant (has_shape4 n)); [done|].
  intros a' w _ Ha'. by apply has_shape4_upd4.
Qed.

(** * The relativistic branch *)

Section Relativistic.
Variable one_body_integrals : gmap (Z * Z) Q.
Variable two_body_integrals : gmap (Z * Z * Z * Z) Q.
Variable n : nat.

Lemma store_all_singleton {A C : Type} `{Dense A C} (a a' : A) (c : C) (v : Q) :
  store_all a [(c, v)] = Ok a' -> dset a c v = Ok a'.
Proof. unfold store_all. simpl. by destruct (dset a c v). Qed.

Lemma store_all_nil {A C : Type} `{Dense A C} (a a' : A) :
  store_all a [] = Ok a' -> a' = a.
Proof. unfold store_all. simpl. congruence. Qed.

Lemma fill_relativistic_split (one one' : array2) (two two' : array4) :
  store_all one (one_body_writes one_body_integrals n) = Ok one' ->
  store_all two (two_body_writes two_body_integrals n) = Ok two' ->
  fill_relativistic true one_body_integrals two_body_integrals n (one, two)
  = Ok (one', two').
Proof.
  intros H1 H2. unfold fill_relativistic.
  apply (for_in_pair _ _
    (fun one p => store_all one (q ← range n; (one_body_write
        one_body_integrals) p q))
    (fun two p => store_all two
       (q ← range n; r ← range n; s ← range n; (two_body_write
           two_body_integrals) p q r s))).
  2: { unfold store_all in *. by rewrite for_in_bind. }
  2: { unfold store_all in *. by rewrite for_in_bind. }
  intros a b a' b' p _ Ha Hb.
  apply (for_in_pair _ _
    (fun one q => store_all one ((one_body_write one_body_integrals) p q))
    (fun two q => store_all two
       (r ← range n; s ← range n; (two_body_write two_body_integrals) p q r
           s))).
  2: { unfold store_all in *. by rewrite for_in_bind. }
  2: { unfold store_all in *. by rewrite for_in_bind. }
  clear. intros a b a' b' q _ Ha Hb.
  assert (Hst : match one_body_integrals !! (succ_key p, succ_key q) with
                | Some v => one ← dset (a, b).1 (p, q) v; Ok (one, (a, b).2)
                | None => Ok (a, b)
                end = Ok (a', b)).
  { unfold one_body_write in Ha.
    destruct (one_body_integrals !! _) as [v|]; simpl.
    - by rewrite (store_all_singleton _ _ _ _ Ha).
    - by rewrite (store_all_nil _ _ Ha). }
  rewrite (bind_Ok _ _ _ Hst). clear Hst Ha.
  apply (for_in_snd _ _
    (fun two r => store_all two (s ← range n; (two_body_write
        two_body_integrals) p q r s))).
  2: { unfold store_all in *. by rewrite for_in_bind. }
  clear. intros b b' r _ Hb.
  apply (for_in_snd _ _ (fun two s => store_all two ((two_body_write
      two_body_integrals) p q r s))).
  2: { unfold store_all in *. by rewrite for_in_bind. }
  clear. intros b b' s _ Hb.
  unfold two_body_write in Hb.
  destruct (two_body_integrals !! _) as [v|]; simpl.
  - by rewrite (store_all_singleton _ _ _ _ Hb).
  - by rewrite (store_all_nil _ _ Hb).
Qed.

Lemma elem_of_one_body_writes (c : cell2) (v : Q) :
  (c, v) ∈ (one_body_writes one_body_integrals n) <->
  exists p q, p < n /\ q < n /\ c = (p, q) /\
    one_body_integrals !! (succ_key p, succ_key q) = Some v.
Proof.
  unfold one_body_writes. rewrite list_elem_of_bind. split.
  - intros (p & Hq & Hp%elem_of_range).
    apply list_elem_of_bind in Hq as (q & Hw & Hq%elem_of_range).
    unfold one_body_write in Hw. exists p, q.
    destruct (one_body_integrals !! _) as [x|]; [|by apply elem_of_nil in Hw].
    apply list_elem_of_singleton in Hw. by simplify_eq.
  - intros (p & q & Hp & Hq & -> & Hv). exists p. split; [|by apply
      elem_of_range].
    apply list_elem_of_bind. exists q. split; [|by apply elem_of_range].
    unfold one_body_write. rewrite Hv. by left.
Qed.

Lemma elem_of_two_body_writes (c : cell4) (x : Q) :
  (c, x) ∈ (two_body_writes two_body_integrals n) <->
  exists p q r s v, p < n /\ q < n /\ r < n /\ s < n /\ c = (p, r, s, q) /\
    two_body_integrals !! (succ_key p, succ_key q, succ_key r, succ_key s)
      = Some v /\ x = (v / 2)%Q.
Proof.
  unfold two_body_writes. rewrite list_elem_of_bind. split.
  - intros (p & Hq & Hp%elem_of_range).
    apply list_elem_of_bind in Hq as (q & Hr & Hq%elem_of_range).
    apply list_elem_of_bind in Hr as (r & Hs & Hr%elem_of_range).
    apply list_elem_of_bind in Hs as (s & Hw & Hs%elem_of_range).
    unfold two_body_write in Hw.
    destruct (two_body_integrals !! _) as [v|] eqn:Hv;
      [|by apply elem_of_nil in Hw].
    apply list_elem_of_singleton in Hw. exists p, q, r, s, v. by simplify_eq.
  - intros (p & q & r & s & v & Hp & Hq & Hr & Hs & -> & Hv & ->).
    exists p. split; [|by apply elem_of_range].
    apply list_elem_of_bind. exists q. split; [|by apply elem_of_range].
    apply list_elem_of_bind. exists r. split; [|by apply elem_of_range].
    apply list_elem_of_bind. exists s. split; [|by apply elem_of_range].
    unfold two_body_write. rewrite Hv. by left.
Qed.

(** The content of a one-body cell after the loop nest. *)
Lemma lookup2_one_body_writes (p q : nat) :
  p < n -> q < n ->
  lookup2 (apply_writes (zeros2 n) (one_body_writes one_body_integrals n)) (p,
      q)
  = Some (default 0%Q (one_body_integrals !! (succ_key p, succ_key q))).
Proof.
  intros Hp Hq.
  destruct (one_body_integrals !! (succ_key p, succ_key q)) as [v|] eqn:Hv;
    cbn [default from_option id].
  - apply (dlookup_apply_writes_unique (H := dense2)).
    + apply lookup2_zeros2_is_Some. done.
    + apply elem_of_one_body_writes. by exists p, q.
    + intros v' (p' & q' & _ & _ & ? & Hv')%elem_of_one_body_writes.
      simplify_eq; congruence.
  - rewrite (dlookup_apply_writes_notin (H := dense2)).
    + by apply lookup2_zeros2.
    + intros v' (p' & q' & _ & _ & ? & Hv')%elem_of_one_body_writes.
      simplify_eq; congruence.
Qed.

(** The content of a two-body cell after the loop nest: the cell
    [(p, r, s, q)] is decided by the key [(p+1, q+1, r+1, s+1)] alone. *)
Lemma lookup4_two_body_writes (p q r s : nat) :
  p < n -> q < n -> r < n -> s < n ->
  lookup4 (apply_writes (zeros4 n) (two_body_writes two_body_integrals n)) (p,
      r, s, q)
  = Some (from_option (fun v => (v / 2)%Q) 0%Q
            (two_body_integrals
               !! (succ_key p, succ_key q, succ_key r, succ_key s))).
Proof.
  intros Hp Hq Hr Hs.
  destruct (two_body_integrals !! _) as [v|] eqn:Hv; cbn [from_option].
  - apply (dlookup_apply_writes_unique (H := dense4)).
    + apply lookup4_zeros4_is_Some. done.
    + apply elem_of_two_body_writes. by exists p, q, r, s, v.
    + intros x (p' & q' & r' & s' & v' & _ & _ & _ & _ & ? & Hv' & ->)
        %elem_of_two_body_writes.
      simplify_eq; congruence.
  - rewrite (dlookup_apply_writes_notin (H := dense4)).
    + by apply lookup4_zeros4.
    + intros x (p' & q' & r' & s' & v' & _ & _ & _ & _ & ? & Hv' & ->)
        %elem_of_two_body_writes.
      simplify_eq; congruence.
Qed.

Lemma one_body_writes_in_range (w : cell2 * Q) :
  w ∈ (one_body_writes one_body_integrals n) -> is_Some (lookup2 (zeros2 n)
      w.1).
Proof.
  destruct w as [c v]. intros (p & q & ? & ? & -> & _)%elem_of_one_body_writes.
  by apply lookup2_zeros2_is_Some.
Qed.

Lemma two_body_writes_in_range (w : cell4 * Q) :
  w ∈ (two_body_writes two_body_integrals n) -> is_Some (lookup4 (zeros4 n)
      w.1).
Proof.
  destruct w as [c v].
  intros (p & q & r & s & x & ? & ? & ? & ? & -> & _)%elem_of_two_body_writes.
  by apply lookup4_zeros4_is_Some.
Qed.

(** The relativistic branch never raises, and replays the two logs. *)
Lemma fill_coefficients_relativistic :
  fill_coefficients true one_body_integrals two_body_integrals n
  = Ok (apply_writes (zeros2 n) (one_body_writes one_body_integrals n),
        apply_writes (zeros4 n) (two_body_writes two_body_integrals n)).
Proof.
  unfold fill_coefficients. apply fill_relativistic_split.
  - apply (store_all_Ok (zeros2 n)), one_body_writes_in_range.
  - apply (store_all_Ok (zeros4 n)), two_body_writes_in_range.
Qed.

End Relativistic.

(** * The restricted branch *)

Lemma symmetric_cells_group (p q r s : nat) :
  symmetric_cells p q r s = even_cell <$> symmetry_group (p, q, r, s).
Proof. reflexivity. Qed.

Lemma even_cell_inj (t u : cell4) : even_cell t = even_cell u -> t = u.
Proof.
  destruct t as [[[p q] r] s], u as [[[p' q'] r'] s'].
  unfold even_cell, spin_up, physicist. intros [=]. repeat f_equal; lia.
Qed.

Lemma symmetry_group_refl (t : cell4) : t ∈ symmetry_group t.
Proof. destruct t as [[[p q] r] s]. by left. Qed.

Lemma symmetry_group_closed (t t' u : cell4) :
  t' ∈ symmetry_group t -> u ∈ symmetry_group t' <-> u ∈ symmetry_group t.
Proof.
  destruct t as [[[p q] r] s]. unfold symmetry_group at 1.
  rewrite !elem_of_cons, elem_of_nil.
  intros [->|[->|[->|[->|[->|[->|[->|[->|[]]]]]]]]]; unfold symmetry_group;
    rewrite !elem_of_cons, !elem_of_nil; tauto.
Qed.

Lemma symmetry_group_sym (t t' : cell4) :
  t' ∈ symmetry_group t -> t ∈ symmetry_group t'.
Proof.
  intros Ht. apply (symmetry_group_closed t t' t Ht), symmetry_group_refl.
Qed.

Lemma symmetry_group_in_range (h : nat) (t t' : cell4) :
  t' ∈ symmetry_group t -> in_range4 h t -> in_range4 h t'.
Proof.
  destruct t as [[[p q] r] s]. unfold symmetry_group.
  rewrite !elem_of_cons, elem_of_nil.
  intros [->|[->|[->|[->|[->|[->|[->|[->|[]]]]]]]]]; simpl; tauto.
Qed.

Lemma even_cell_in_range (n : nat) (t : cell4) :
  in_range4 (n / 2) t -> in_range4 n (even_cell t).
Proof.
  destruct t as [[[p q] r] s].
  unfold even_cell, spin_up, physicist, in_range4.
  pose proof (Nat.Div0.mul_div_le n 2). lia.
Qed.

Lemma bind_Ok_r {A : Type} (m : result A) : (m ≫= Ok) = m.
Proof. by destruct m. Qed.

(** A loop whose body replays a log that depends on cells the log never
    assigns replays the concatenated log. [E] marks the cells read. *)
Section StableReads.
Context {A C X : Type} `{DenseLaws A C} `{EqDecision C}.
Variable E : C -> Prop.
Variable a0 : A.

Lemma agrees_refl : agrees E a0 a0.
Proof. split; [apply same_cells_refl|done]. Qed.

Lemma agrees_apply_writes (a : A) (ws : list (C * Q)) :
  agrees E a0 a ->
  (forall w, w ∈ ws -> is_Some (dlookup a0 w.1) /\ ~ E w.1) ->
  store_all a ws = Ok (apply_writes a ws) /\ agrees E a0 (apply_writes a ws).
Proof.
  intros [Hsame HE] Hws.
  destruct (store_all_Ok a ws) as [Hok Hsame'].
  { intros w Hw. apply Hsame, Hws, Hw. }
  split; [done|]. split.
  - by eapply same_cells_trans.
  - intros c Hc. rewrite dlookup_apply_writes_notin; [by apply HE|].
    intros v Hv. by destruct (Hws _ Hv) as [_ []].
Qed.

Lemma for_in_log (xs : list X) (body : A -> X -> result A)
    (W : X -> list (C * Q)) (a : A) :
  (forall x w, x ∈ xs -> w ∈ W x -> is_Some (dlookup a0 w.1) /\ ~ E w.1) ->
  (forall a' x, x ∈ xs -> agrees E a0 a' -> body a' x = store_all a' (W x)) ->
  agrees E a0 a ->
  for_in xs body a = store_all a (xs ≫= W).
Proof.
  revert a. induction xs as [|x xs IH]; intros a Hw Hb Ha; [done|].
  simpl. rewrite Hb by (done || by left).
  destruct (agrees_apply_writes a (W x) Ha) as [Hok Ha'].
  { intros w. apply Hw. by left. }
  unfold store_all in *. rewrite for_in_app, Hok. simpl.
  apply IH; [| |done].
  - intros y w Hy. apply Hw. by right.
  - intros a' y Hy. apply Hb. by right.
Qed.

End StableReads.

Section Restricted.
Variable one_body_integrals : gmap (Z * Z) Q.
Variable two_body_integrals : gmap (Z * Z * Z * Z) Q.
Variable n : nat.

Lemma fill_one_body_restricted_log (one : array2) :
  fill_one_body_restricted one_body_integrals n one = store_all one
      (mirror_writes one_body_integrals n).
Proof.
  unfold fill_one_body_restricted, mirror_writes, store_all.
  rewrite <- for_in_bind. apply for_in_ext. intros a p _.
  rewrite <- for_in_bind. apply for_in_ext. intros a' q _.
  unfold mirror_write. destruct (one_body_integrals !! _) as [v|]; [|done].
  simpl. destruct (dset a' (p, q) v) as [a''|]; [|done]. simpl.
  by rewrite bind_Ok_r.
Qed.

Lemma permutation_symmetry_log (two : array4) :
  permutation_symmetry two_body_integrals n two = store_all two
      (symmetry_writes two_body_integrals n).
Proof.
  unfold permutation_symmetry, symmetry_writes, store_all.
  rewrite <- for_in_bind. apply for_in_ext. intros a p _.
  rewrite <- for_in_bind. apply for_in_ext. intros a1 q _.
  rewrite <- for_in_bind. apply for_in_ext. intros a2 r _.
  rewrite <- for_in_bind. apply for_in_ext. intros a3 s _.
  unfold symmetry_write. destruct (two_body_integrals !! _) as [v|]; [|done].
  by rewrite for_in_fmap.
Qed.

Lemma spin_write_targets (two : array4) (p q r s : nat) (w : cell4 * Q) :
  p < n / 2 -> q < n / 2 -> r < n / 2 -> s < n / 2 ->
  w ∈ spin_write two p q r s -> in_range4 n w.1 /\ ~ all_even w.1.
Proof.
  intros Hp Hq Hr Hs. unfold spin_write. rewrite !elem_of_cons, elem_of_nil.
  pose proof (Nat.Div0.mul_div_le n 2).
  intros [->|[->|[->|[]]]]; cbn [fst]; (split; [unfold in_range4; lia|]);
    intros [[[[a b] c] d] Heq]; unfold spin_up in Heq; simplify_eq; lia.
Qed.

Lemma restricted_calculation_log (two0 two : array4) :
  same_cells (zeros4 n) two0 ->
  agrees all_even two0 two ->
  restricted_calculation n two = store_all two ((spin_writes n) two0).
Proof.
  intros Hz Htwo. unfold restricted_calculation, spin_writes.
  assert (Hrange : forall p q r s w, p < n / 2 -> q < n / 2 -> r < n / 2 ->
            s < n / 2 -> w ∈ spin_write two0 p q r s ->
            is_Some (dlookup two0 w.1) /\ ~ all_even w.1).
  { intros p q r s w Hp Hq Hr Hs Hw.
    destruct (spin_write_targets two0 p q r s w) as [Hin Hodd]; [done..|].
    split; [|done]. apply Hz. by apply lookup4_zeros4_is_Some. }
  apply (for_in_log all_even two0); [| |done].
  { intros p w Hp%elem_of_range Hw.
    apply list_elem_of_bind in Hw as (q & Hw & Hq%elem_of_range).
    apply list_elem_of_bind in Hw as (r & Hw & Hr%elem_of_range).
    apply list_elem_of_bind in Hw as (s & Hw & Hs%elem_of_range).
    by apply (Hrange p q r s). }
  clear two Htwo. intros a1 p Hp%elem_of_range Ha1.
  apply (for_in_log all_even two0); [| |done].
  { intros q w Hq%elem_of_range Hw.
    apply list_elem_of_bind in Hw as (r & Hw & Hr%elem_of_range).
    apply list_elem_of_bind in Hw as (s & Hw & Hs%elem_of_range).
    by apply (Hrange p q r s). }
  clear a1 Ha1. intros a2 q Hq%elem_of_range Ha2.
  apply (for_in_log all_even two0); [| |done].
  { intros r w Hr%elem_of_range Hw.
    apply list_elem_of_bind in Hw as (s & Hw & Hs%elem_of_range).
    by apply (Hrange p q r s). }
  clear a2 Ha2. intros a3 r Hr%elem_of_range Ha3.
  apply (for_in_log all_even two0); [| |done].
  { intros s w Hs%elem_of_range Hw. by apply (Hrange p q r s). }
  clear a3 Ha3. intros a s Hs%elem_of_range Ha.
  assert (Hev : all_even (2 * p, 2 * q, 2 * r, 2 * s)) by (by exists (p, q, r,
      s)).
  assert (Hin : in_range4 n (2 * p, 2 * q, 2 * r, 2 * s)).
  { unfold in_range4. pose proof (Nat.Div0.mul_div_le n 2). lia. }
  destruct (proj1 (Hz _) (proj2 (lookup4_zeros4_is_Some n _) Hin)) as [v Hv].
  unfold spin_write. change (dlookup two0 (2 * p, 2 * q, 2 * r, 2 * s) = Some
      v) in Hv.
  change (lookup4 two0 (2 * p, 2 * q, 2 * r, 2 * s)) with (dlookup two0 (2 * p,
      2 * q, 2 * r, 2 * s)).
  rewrite Hv. cbn [default from_option id].
  assert (Hstep : forall (b : array4) (c : cell4),
            agrees all_even two0 b -> ~ all_even c ->
            dget b (2 * p, 2 * q, 2 * r, 2 * s) = Ok v /\
            (forall b', dset b c v = Ok b' -> agrees all_even two0 b')).
  { intros b c Hb Hc. split.
    - unfold dget. destruct Hb as [_ HE]. by rewrite (HE _ Hev), Hv.
    - intros b'. unfold dset. destruct (dlookup b c) as [x|] eqn:Hx; [|done].
      intros [= <-]. destruct Hb as [Hsame HE]. split.
      + eapply same_cells_trans; [done|].
        apply (same_cells_upd (H := dense4)). by rewrite Hx.
      + intros c' Hc'. rewrite (dlookup_upd_ne (H := dense4)); [by apply HE|].
        by intros ->. }
  unfold store_all. cbn [for_in fst snd].
  set (c1 := (2 * p + 1, 2 * q, 2 * r, 2 * s + 1)).
  set (c2 := (2 * p, 2 * q + 1, 2 * r + 1, 2 * s)).
  set (c3 := (2 * p + 1, 2 * q + 1, 2 * r + 1, 2 * s + 1)).
  assert (Hc1 : ~ all_even c1).
  { intros [[[[? ?] ?] ?] Heq]. unfold spin_up, c1 in Heq. simplify_eq; lia. }
  assert (Hc2 : ~ all_even c2).
  { intros [[[[? ?] ?] ?] Heq]. unfold spin_up, c2 in Heq. simplify_eq; lia. }
  assert (Hc3 : ~ all_even c3).
  { intros [[[[? ?] ?] ?] Heq]. unfold spin_up, c3 in Heq. simplify_eq; lia. }
  destruct (Hstep a c1 Ha Hc1) as [-> Hb1]. cbn [mbind result_bind].
  destruct (dset a c1 v) as [b1|]; [|done]. cbn [mbind result_bind].
  specialize (Hb1 b1 eq_refl).
  destruct (Hstep b1 c2 Hb1 Hc2) as [-> Hb2]. cbn [mbind result_bind].
  destruct (dset b1 c2 v) as [b2|]; [|done]. cbn [mbind result_bind].
  specialize (Hb2 b2 eq_refl).
  destruct (Hstep b2 c3 Hb2 Hc3) as [-> _]. cbn [mbind result_bind].
  by rewrite bind_Ok_r.
Qed.

Lemma elem_of_mirror_writes (c : cell2) (x : Q) :
  (c, x) ∈ (mirror_writes one_body_integrals n) <->
  exists p q, p < n /\ q < n /\ (c = (p, q) \/ c = (q, p)) /\
    one_body_integrals !! (succ_key p, succ_key q) = Some x.
Proof.
  unfold mirror_writes. rewrite list_elem_of_bind. split.
  - intros (p & Hq & Hp%elem_of_range).
    apply list_elem_of_bind in Hq as (q & Hw & Hq%elem_of_range).
    unfold mirror_write in Hw. exists p, q.
    destruct (one_body_integrals !! _) as [v|]; [|by apply elem_of_nil in Hw].
    rewrite !elem_of_cons, elem_of_nil in Hw.
    destruct Hw as [?|[?|[]]]; simplify_eq; eauto.
  - intros (p & q & Hp & Hq & Hc & Hv). exists p. split; [|by apply
      elem_of_range].
    apply list_elem_of_bind. exists q. split; [|by apply elem_of_range].
    unfold mirror_write. rewrite Hv. rewrite !elem_of_cons.
    destruct Hc as [->| ->]; eauto.
Qed.

Lemma elem_of_symmetry_writes (c : cell4) (x : Q) :
  (c, x) ∈ (symmetry_writes two_body_integrals n) <->
  exists t v, in_range4 (n / 2) t /\
    two_body_integrals !! odd_keys t = Some v /\
    x = (v / 2)%Q /\ c ∈ even_cell <$> symmetry_group t.
Proof.
  unfold symmetry_writes. rewrite list_elem_of_bind. split.
  - intros (p & Hq & Hp%elem_of_range).
    apply list_elem_of_bind in Hq as (q & Hr & Hq%elem_of_range).
    apply list_elem_of_bind in Hr as (r & Hs & Hr%elem_of_range).
    apply list_elem_of_bind in Hs as (s & Hw & Hs%elem_of_range).
    unfold symmetry_write in Hw.
    destruct (two_body_integrals !! _) as [v|] eqn:Hv;
      [|by apply elem_of_nil in Hw].
    apply list_elem_of_fmap in Hw as (c' & [= -> ->] & Hc').
    exists (p, q, r, s), v. by rewrite <- symmetric_cells_group.
  - intros ([[[p q] r] s] & v & (Hp & Hq & Hr & Hs) & Hv & -> & Hc).
    exists p. split; [|by apply elem_of_range].
    apply list_elem_of_bind. exists q. split; [|by apply elem_of_range].
    apply list_elem_of_bind. exists r. split; [|by apply elem_of_range].
    apply list_elem_of_bind. exists s. split; [|by apply elem_of_range].
    unfold symmetry_write. unfold odd_keys in Hv. rewrite Hv.
    apply list_elem_of_fmap.
    exists c. by rewrite symmetric_cells_group.
Qed.

Lemma elem_of_spin_writes (two : array4) (w : cell4 * Q) :
  w ∈ (spin_writes n) two <->
  exists p q r s, p < n / 2 /\ q < n / 2 /\ r < n / 2 /\ s < n / 2 /\
    w ∈ spin_write two p q r s.
Proof.
  unfold spin_writes. rewrite list_elem_of_bind. split.
  - intros (p & Hq & Hp%elem_of_range).
    apply list_elem_of_bind in Hq as (q & Hr & Hq%elem_of_range).
    apply list_elem_of_bind in Hr as (r & Hs & Hr%elem_of_range).
    apply list_elem_of_bind in Hs as (s & Hw & Hs%elem_of_range).
    by exists p, q, r, s.
  - intros (p & q & r & s & Hp & Hq & Hr & Hs & Hw).
    exists p. split; [|by apply elem_of_range].
    apply list_elem_of_bind. exists q. split; [|by apply elem_of_range].
    apply list_elem_of_bind. exists r. split; [|by apply elem_of_range].
    apply list_elem_of_bind. exists s. split; [|by apply elem_of_range].
    done.
Qed.

Lemma mirror_writes_in_range (w : cell2 * Q) :
  w ∈ (mirror_writes one_body_integrals n) -> is_Some (lookup2 (zeros2 n) w.1).
Proof.
  destruct w as [c v]. intros (p & q & ? & ? & Hc & _)%elem_of_mirror_writes.
  apply lookup2_zeros2_is_Some. by destruct Hc as [-> | ->].
Qed.

Lemma symmetry_writes_in_range (w : cell4 * Q) :
  w ∈ (symmetry_writes two_body_integrals n) -> in_range4 (2 * (n / 2)) w.1.
Proof.
  destruct w as [c x].
  intros (t & v & Ht & _ & _ & Hc)%elem_of_symmetry_writes.
  apply list_elem_of_fmap in Hc as (u & -> & Hu).
  apply (symmetry_group_in_range _ _ _ Hu) in Ht.
  destruct u as [[[p q] r] s].
  unfold in_range4, even_cell, spin_up, physicist in *. cbn [fst]. lia.
Qed.

Lemma spin_writes_in_range (two : array4) (w : cell4 * Q) :
  w ∈ (spin_writes n) two -> in_range4 (2 * (n / 2)) w.1 /\ ~ all_even w.1.
Proof.
  intros (p & q & r & s & Hp & Hq & Hr & Hs & Hw)%elem_of_spin_writes.
  split; [|by destruct (spin_write_targets two p q r s w)].
  unfold spin_write in Hw. rewrite !elem_of_cons, elem_of_nil in Hw.
  destruct Hw as [->|[->|[->|[]]]]; unfold in_range4; cbn [fst]; lia.
Qed.

Lemma in_range4_half (c : cell4) : in_range4 (2 * (n / 2)) c -> in_range4 n c.
Proof.
  destruct c as [[[p q] r] s]. unfold in_range4.
  pose proof (Nat.Div0.mul_div_le n 2). lia.
Qed.

Lemma same_cells_two_symmetric : same_cells (zeros4 n) (two_symmetric
    two_body_integrals n).
Proof.
  apply (store_all_Ok (zeros4 n)). intros w Hw.
  apply lookup4_zeros4_is_Some, in_range4_half.
  by apply symmetry_writes_in_range.
Qed.

Lemma same_cells_two_restricted : same_cells (zeros4 n) (two_restricted
    two_body_integrals n).
Proof.
  eapply same_cells_trans; [apply same_cells_two_symmetric|].
  apply (store_all_Ok (two_symmetric two_body_integrals n)). intros w Hw.
  apply same_cells_two_symmetric, lookup4_zeros4_is_Some, in_range4_half.
  by destruct (spin_writes_in_range (two_symmetric two_body_integrals n) w).
Qed.

(** The restricted branch never raises, and replays the three logs. *)
Lemma fill_coefficients_restricted :
  fill_coefficients false one_body_integrals two_body_integrals n
  = Ok ((one_restricted one_body_integrals n), (two_restricted
      two_body_integrals n)).
Proof.
  unfold fill_coefficients.
  rewrite fill_one_body_restricted_log.
  destruct (store_all_Ok (zeros2 n) (mirror_writes one_body_integrals n)) as
      [-> _];
    [apply mirror_writes_in_range|]. cbn [mbind result_bind].
  rewrite permutation_symmetry_log.
  destruct (store_all_Ok (zeros4 n) (symmetry_writes two_body_integrals n)) as
      [-> _].
  { intros w Hw. apply lookup4_zeros4_is_Some, in_range4_half.
    by apply symmetry_writes_in_range. }
  cbn [mbind result_bind]. fold (two_symmetric two_body_integrals n).
  rewrite (restricted_calculation_log (two_symmetric two_body_integrals n));
    [|apply same_cells_two_symmetric|apply agrees_refl].
  destruct (store_all_Ok (two_symmetric two_body_integrals n) ((spin_writes n)
      (two_symmetric two_body_integrals n))) as [-> _];
    [|done].
  intros w Hw. apply same_cells_two_symmetric, lookup4_zeros4_is_Some.
  apply in_range4_half. by destruct (spin_writes_in_range (two_symmetric
      two_body_integrals n) w).
Qed.

(** One block of eight assignments. *)
Lemma symmetry_block (a : array4) (k : cell4) (y : Q) :
  same_cells (zeros4 n) a ->
  in_range4 (n / 2) k ->
  let a' := apply_writes a ((fun c => (c, y)) <$> (even_cell <$> symmetry_group
      k)) in
  same_cells (zeros4 n) a' /\
  (forall u, u ∈ symmetry_group k -> lookup4 a' (even_cell u) = Some y) /\
  (forall u, u ∉ symmetry_group k -> lookup4 a' (even_cell u) = lookup4 a
      (even_cell u)).
Proof.
  intros Ha Hk a'. split; [|split].
  - eapply same_cells_trans; [done|]. apply (store_all_Ok a).
    intros w (c & -> & (u & -> & Hu)%list_elem_of_fmap)%list_elem_of_fmap.
    apply Ha, lookup4_zeros4_is_Some, even_cell_in_range.
    by eapply symmetry_group_in_range.
  - intros u Hu. apply (dlookup_apply_writes_unique (H := dense4)).
    + apply Ha, lookup4_zeros4_is_Some, even_cell_in_range.
      by eapply symmetry_group_in_range.
    + apply list_elem_of_fmap. eexists. split; [done|].
      apply list_elem_of_fmap. by exists u.
    + intros x (c & [= _ ->] & _)%list_elem_of_fmap. done.
  - intros u Hu. apply (dlookup_apply_writes_notin (H := dense4)).
    intros x (c & [= <- _] & (u' & Heq &
        Hu')%list_elem_of_fmap)%list_elem_of_fmap.
    apply even_cell_inj in Heq as ->. done.
Qed.

(** After the second loop nest the eight cells of every symmetry class hold
    one value, whatever the dictionary stores. *)
Lemma two_symmetric_class (t u : cell4) :
  in_range4 (n / 2) t -> u ∈ symmetry_group t ->
  lookup4 (two_symmetric two_body_integrals n) (even_cell u) = lookup4
      (two_symmetric two_body_integrals n) (even_cell t).
Proof.
  revert t u.
  set (P := fun a : array4 => same_cells (zeros4 n) a /\
    forall t u, in_range4 (n / 2) t -> u ∈ symmetry_group t ->
      lookup4 a (even_cell u) = lookup4 a (even_cell t)).
  enough (HP : P (two_symmetric two_body_integrals n)) by apply HP.
  unfold two_symmetric, symmetry_writes, apply_writes.
  rewrite foldl_bind. apply foldl_invariant.
  { split; [apply same_cells_refl|]. intros t u Ht Hu.
    rewrite !lookup4_zeros4; [done|apply even_cell_in_range..]; [done|].
    by eapply symmetry_group_in_range. }
  intros a0 p Hp%elem_of_range Ha0. rewrite foldl_bind.
  apply foldl_invariant; [done|]. clear a0 Ha0.
  intros a1 q Hq%elem_of_range Ha1. rewrite foldl_bind.
  apply foldl_invariant; [done|]. clear a1 Ha1.
  intros a2 r Hr%elem_of_range Ha2. rewrite foldl_bind.
  apply foldl_invariant; [done|]. clear a2 Ha2.
  intros a s Hs%elem_of_range [Hsame Hclass].
  unfold symmetry_write. destruct (two_body_integrals !! _) as [v|]; [|done].
  rewrite symmetric_cells_group.
  destruct (symmetry_block a (p, q, r, s) (v / 2)%Q Hsame) as (Hsame' & Hin &
      Hout);
    [done|].
  split; [done|]. intros t u Ht Hu.
  destruct (decide (t ∈ symmetry_group (p, q, r, s))) as [Hk|Hk].
  - rewrite !Hin; [done..|]. by apply (symmetry_group_closed _ _ u Hk).
  - rewrite !Hout; [by apply Hclass|done|]. intros Hu'. apply Hk.
    apply (symmetry_group_closed _ _ t Hu'). by apply symmetry_group_sym.
Qed.

(** A class of which every stored member carries the value [v] holds
    [v / 2] in its eight cells. *)
Lemma two_symmetric_stored (t u : cell4) (v : Q) :
  in_range4 (n / 2) t ->
  two_body_integrals !! odd_keys t = Some v ->
  (forall k v', k ∈ symmetry_group t ->
     two_body_integrals !! odd_keys k = Some v' -> v' = v) ->
  u ∈ symmetry_group t ->
  lookup4 (two_symmetric two_body_integrals n) (even_cell u) = Some (v / 2)%Q.
Proof.
  intros Ht Hv Hclass Hu. apply (dlookup_apply_writes_unique (H := dense4)).
  - apply lookup4_zeros4_is_Some, even_cell_in_range.
    by eapply symmetry_group_in_range.
  - apply elem_of_symmetry_writes. exists t, v. repeat split; [done..|].
    apply list_elem_of_fmap. by exists u.
  - intros x (k & v' & Hk & Hv' & -> & (u' & Heq & Hu')%list_elem_of_fmap)
      %elem_of_symmetry_writes.
    apply even_cell_inj in Heq as <-. f_equal. apply (Hclass k); [|done].
    apply (symmetry_group_closed _ _ k Hu). by apply symmetry_group_sym.
Qed.

(** A class without stored member keeps its zeros. *)
Lemma two_symmetric_absent (t : cell4) :
  in_range4 (n / 2) t ->
  (forall k, k ∈ symmetry_group t -> two_body_integrals !! odd_keys k = None) ->
  lookup4 (two_symmetric two_body_integrals n) (even_cell t) = Some 0%Q.
Proof.
  intros Ht Hnone. unfold two_symmetric.
  rewrite (dlookup_apply_writes_notin (H := dense4)).
  - by apply lookup4_zeros4, even_cell_in_range.
  - intros x (k & v' & Hk & Hv' & -> & (u' & Heq & Hu')%list_elem_of_fmap)
      %elem_of_symmetry_writes.
    apply even_cell_inj in Heq as <-.
    rewrite Hnone in Hv'; [done|]. by apply symmetry_group_sym.
Qed.

(** The third loop nest leaves the spin-up positions alone ... *)
Lemma two_restricted_even (c : cell4) :
  all_even c -> lookup4 (two_restricted two_body_integrals n) c = lookup4
      (two_symmetric two_body_integrals n) c.
Proof.
  intros Hc. apply (dlookup_apply_writes_notin (H := dense4)).
  intros x Hx. by destruct (spin_writes_in_range _ _ Hx) as [_ []].
Qed.

(** ... and copies each of them to three spin sectors. *)
Lemma two_restricted_spin (p q r s : nat) :
  p < n / 2 -> q < n / 2 -> r < n / 2 -> s < n / 2 ->
  let v := lookup4 (two_restricted two_body_integrals n) (2 * p, 2 * q, 2 * r,
      2 * s) in
  is_Some v /\
  lookup4 (two_restricted two_body_integrals n) (2 * p + 1, 2 * q, 2 * r, 2 * s
      + 1) = v /\
  lookup4 (two_restricted two_body_integrals n) (2 * p, 2 * q + 1, 2 * r + 1, 2
      * s) = v /\
  lookup4 (two_restricted two_body_integrals n) (2 * p + 1, 2 * q + 1, 2 * r +
      1, 2 * s + 1) = v.
Proof.
  intros Hp Hq Hr Hs v.
  assert (Hev : all_even (2 * p, 2 * q, 2 * r, 2 * s)) by (by exists (p, q, r,
      s)).
  assert (Hin : in_range4 n (2 * p, 2 * q, 2 * r, 2 * s)).
  { unfold in_range4. pose proof (Nat.Div0.mul_div_le n 2). lia. }
  destruct (proj1 (same_cells_two_symmetric _)
              (proj2 (lookup4_zeros4_is_Some n _) Hin)) as [x Hx].
  assert (Hv : v = Some x).
  { unfold v. by rewrite two_restricted_even. }
  rewrite Hv. split; [by eauto|].
  assert (Hcopy : forall c, in_range4 n c ->
            (c, x) ∈ spin_write (two_symmetric two_body_integrals n) p q r s ->
            (forall p' q' r' s' y, (c, y) ∈ spin_write (two_symmetric
                two_body_integrals n) p' q' r' s' ->
               p' = p /\ q' = q /\ r' = r /\ s' = s) ->
            lookup4 (two_restricted two_body_integrals n) c = Some x).
  { intros c Hc Hw Huniq. apply (dlookup_apply_writes_unique (H := dense4)).
    - by apply same_cells_two_symmetric, lookup4_zeros4_is_Some.
    - apply elem_of_spin_writes. by exists p, q, r, s.
    - intros y (p' & q' & r' & s' & _ & _ & _ & _ & Hy)%elem_of_spin_writes.
      destruct (Huniq _ _ _ _ _ Hy) as (-> & -> & -> & ->).
      unfold spin_write in Hy.
      change (lookup4 (two_symmetric two_body_integrals n) (2 * p, 2 * q, 2 *
          r, 2 * s)) with
        (dlookup (two_symmetric two_body_integrals n) (2 * p, 2 * q, 2 * r, 2 *
            s)) in Hy.
      change (dlookup (two_symmetric two_body_integrals n) (2 * p, 2 * q, 2 *
          r, 2 * s) = Some x) in Hx.
      rewrite Hx in Hy. cbn [default from_option id] in Hy.
      rewrite !elem_of_cons, elem_of_nil in Hy.
      destruct Hy as [?|[?|[?|[]]]]; by simplify_eq. }
  pose proof (Nat.Div0.mul_div_le n 2) as Hdiv.
  assert (Hw : forall c, c ∈ [ (2 * p + 1, 2 * q, 2 * r, 2 * s + 1);
                               (2 * p, 2 * q + 1, 2 * r + 1, 2 * s);
                               (2 * p + 1, 2 * q + 1, 2 * r + 1, 2 * s + 1) ] ->
            (c, x) ∈ spin_write (two_symmetric two_body_integrals n) p q r s).
  { intros c Hc. unfold spin_write.
    change (lookup4 (two_symmetric two_body_integrals n) (2 * p, 2 * q, 2 * r,
        2 * s)) with
      (dlookup (two_symmetric two_body_integrals n) (2 * p, 2 * q, 2 * r, 2 *
          s)).
    change (dlookup (two_symmetric two_body_integrals n) (2 * p, 2 * q, 2 * r,
        2 * s) = Some x) in Hx.
    rewrite Hx. cbn [default from_option id].
    rewrite !elem_of_cons, elem_of_nil in Hc. rewrite !elem_of_cons.
    destruct Hc as [->|[->|[->|[]]]];
      [by left|by right; left|by right; right; left]. }
  repeat split; apply Hcopy; try (unfold in_range4; lia);
    try (apply Hw; rewrite !elem_of_cons; by eauto);
    intros p' q' r' s' y Hy; unfold spin_write in Hy;
    rewrite !elem_of_cons, elem_of_nil in Hy;
    destruct Hy as [?|[?|[?|[]]]]; simplify_eq; lia.
Qed.

(** Neither loop nest assigns a cell with an index of [2 * (n / 2)] or more:
    for an odd [n] the last spin orbital stays untouched. *)
Lemma two_restricted_untouched (c : cell4) :
  in_range4 n c -> ~ in_range4 (2 * (n / 2)) c ->
  lookup4 (two_restricted two_body_integrals n) c = Some 0%Q.
Proof.
  intros Hc Hout. unfold two_restricted.
  rewrite (dlookup_apply_writes_notin (H := dense4)).
  - unfold two_symmetric. rewrite (dlookup_apply_writes_notin (H := dense4)).
    + by apply lookup4_zeros4.
    + intros x Hx. by apply symmetry_writes_in_range in Hx.
  - intros x Hx. by apply spin_writes_in_range in Hx as [? _].
Qed.

(** The one-body array: a cell of which neither the key nor the mirrored key
    is stored keeps its zero. *)
Lemma one_restricted_absent (p q : nat) :
  p < n -> q < n ->
  one_body_integrals !! (succ_key p, succ_key q) = None ->
  one_body_integrals !! (succ_key q, succ_key p) = None ->
  lookup2 (one_restricted one_body_integrals n) (p, q) = Some 0%Q.
Proof.
  intros Hp Hq H1 H2. unfold one_restricted.
  rewrite (dlookup_apply_writes_notin (H := dense2)).
  - by apply lookup2_zeros2.
  - intros x (p' & q' & _ & _ & [?|?] & Hv)%elem_of_mirror_writes;
      simplify_eq; congruence.
Qed.

(** A stored key is mirrored, when the mirrored key does not carry another
    value. *)
Lemma one_restricted_stored (p q : nat) (v : Q) :
  p < n -> q < n ->
  one_body_integrals !! (succ_key p, succ_key q) = Some v ->
  (forall v', one_body_integrals !! (succ_key q, succ_key p) = Some v' -> v' =
      v) ->
  lookup2 (one_restricted one_body_integrals n) (p, q) = Some v /\
  lookup2 (one_restricted one_body_integrals n) (q, p) = Some v.
Proof.
  intros Hp Hq Hv Hmirror.
  split; apply (dlookup_apply_writes_unique (H := dense2));
    try (by apply lookup2_zeros2_is_Some);
    try (apply elem_of_mirror_writes; exists p, q; by eauto);
    intros x (p' & q' & _ & _ & [?|?] & Hx)%elem_of_mirror_writes;
    simplify_eq; (congruence || by apply Hmirror).
Qed.

(** One iteration of the second loop nest on a stored key: the eight cells
    receive the value, every other cell is kept. *)
Lemma symmetry_iteration (a : array4) (p q r s : nat) (y : Q) :
  same_cells (zeros4 n) a ->
  p < n / 2 -> q < n / 2 -> r < n / 2 -> s < n / 2 ->
  exists a',
    for_in (symmetric_cells p q r s) (fun two c => dset two c y) a = Ok a' /\
    same_cells (zeros4 n) a' /\
    (forall c, c ∈ symmetric_cells p q r s -> lookup4 a' c = Some y) /\
    (forall c, c ∉ symmetric_cells p q r s -> lookup4 a' c = lookup4 a c).
Proof.
  intros Ha Hp Hq Hr Hs.
  assert (Hin : forall c, c ∈ symmetric_cells p q r s -> is_Some (lookup4 a c)).
  { intros c. rewrite symmetric_cells_group.
    intros (u & -> & Hu)%list_elem_of_fmap.
    apply Ha, lookup4_zeros4_is_Some, even_cell_in_range.
    by apply (symmetry_group_in_range _ (p, q, r, s)). }
  exists (apply_writes a ((fun c => (c, y)) <$> symmetric_cells p q r s)).
  destruct (store_all_Ok a ((fun c => (c, y)) <$> symmetric_cells p q r s))
    as [Hok Hsame].
  { intros w (c & -> & Hc)%list_elem_of_fmap. by apply Hin. }
  split; [|split; [|split]].
  - rewrite <- Hok. unfold store_all. by rewrite for_in_fmap.
  - by eapply same_cells_trans.
  - intros c Hc. apply (dlookup_apply_writes_unique (H := dense4)).
    + by apply Hin.
    + apply list_elem_of_fmap. by exists c.
    + by intros x (c' & [= _ ->] & _)%list_elem_of_fmap.
  - intros c Hc. apply (dlookup_apply_writes_notin (H := dense4)).
    by intros x (c' & [= <- _] & Hc')%list_elem_of_fmap.
Qed.

End Restricted.

(** * Truncation *)

Lemma Qltb_lt (x y : Q) : Qltb x y = true <-> (x < y)%Q.
Proof.
  unfold Qltb. rewrite negb_true_iff, <- not_true_iff_false, Qle_bool_iff.
  split; [apply Qnot_le_lt|apply Qlt_not_le].
Qed.

Lemma truncate_at_below (tol x : Q) : (Qabs x < tol)%Q -> truncate_at tol x =
    0%Q.
Proof. intros Hx%Qltb_lt. unfold truncate_at. by rewrite Hx. Qed.

Lemma truncate_at_above (tol x : Q) : ~ (Qabs x < tol)%Q -> truncate_at tol x =
    x.
Proof.
  intros Hx. unfold truncate_at.
  destruct (Qltb (Qabs x) tol) eqn:E; [|done]. by apply Qltb_lt in E.
Qed.

Lemma truncate_at_zero (tol : Q) : truncate_at tol 0 = 0%Q.
Proof. unfold truncate_at. by destruct (Qltb _ _). Qed.

Lemma truncate_at_idem (tol x : Q) :
  truncate_at tol (truncate_at tol x) = truncate_at tol x.
Proof.
  unfold truncate_at at 2 3. destruct (Qltb (Qabs x) tol) eqn:E.
  - apply truncate_at_zero.
  - unfold truncate_at. by rewrite E.
Qed.

Lemma truncate_at_mono (t1 t2 x : Q) :
  (t1 <= t2)%Q -> Qltb (Qabs x) t1 = true -> Qltb (Qabs x) t2 = true.
Proof.
  rewrite !Qltb_lt. intros Hle Hlt. by eapply Qlt_le_trans.
Qed.

Lemma fmap_idem {A : Type} (f : A -> A) (l : list A) :
  (forall x, f (f x) = f x) -> f <$> (f <$> l) = f <$> l.
Proof.
  intros Hf. rewrite <- list_fmap_compose. apply list_fmap_ext.
  intros i x _. apply Hf.
Qed.

Lemma truncate2_at_idem (tol : Q) (a : array2) :
  truncate2_at tol (truncate2_at tol a) = truncate2_at tol a.
Proof.
  unfold truncate2_at. apply fmap_idem. intros row.
  apply fmap_idem, truncate_at_idem.
Qed.

Lemma truncate4_at_idem (tol : Q) (a : array4) :
  truncate4_at tol (truncate4_at tol a) = truncate4_at tol a.
Proof.
  unfold truncate4_at. apply fmap_idem. intros a1.
  apply fmap_idem. intros a2. apply fmap_idem. intros a3.
  apply fmap_idem, truncate_at_idem.
Qed.

Lemma lookup2_truncate2_at (tol : Q) (a : array2) (c : cell2) :
  lookup2 (truncate2_at tol a) c = truncate_at tol <$> lookup2 a c.
Proof.
  destruct c as [p q]. unfold lookup2, truncate2_at.
  rewrite list_lookup_fmap. destruct (a !! p) as [row|]; simpl; [|done].
  apply list_lookup_fmap.
Qed.

Lemma lookup4_truncate4_at (tol : Q) (a : array4) (c : cell4) :
  lookup4 (truncate4_at tol a) c = truncate_at tol <$> lookup4 a c.
Proof.
  destruct c as [[[p q] r] s]. unfold lookup4, truncate4_at.
  rewrite list_lookup_fmap. destruct (a !! p) as [a1|]; simpl; [|done].
  rewrite list_lookup_fmap. destruct (a1 !! q) as [a2|]; simpl; [|done].
  rewrite list_lookup_fmap. destruct (a2 !! r) as [a3|]; simpl; [|done].
  apply list_lookup_fmap.
Qed.

Lemma has_shape2_truncate2_at (tol : Q) (n : nat) (a : array2) :
  has_shape2 n a -> has_shape2 n (truncate2_at tol a).
Proof.
  intros [Hlen Hrows]. split; unfold truncate2_at.
  - by rewrite length_fmap.
  - apply Forall_fmap. eapply Forall_impl; [done|].
    intros row Hrow. simpl. by rewrite length_fmap.
Qed.

Lemma has_shape4_truncate4_at (tol : Q) (n : nat) (a : array4) :
  has_shape4 n a -> has_shape4 n (truncate4_at tol a).
Proof.
  intros [Hlen H1]. split; unfold truncate4_at.
  - by rewrite length_fmap.
  - apply Forall_fmap. eapply Forall_impl; [done|].
    intros a1 [Hl1 H2]. simpl. split; [by rewrite length_fmap|].
    apply Forall_fmap. eapply Forall_impl; [done|].
    intros a2 [Hl2 H3]. simpl. split; [by rewrite length_fmap|].
    apply Forall_fmap. eapply Forall_impl; [done|].
    intros a3 Hl3. simpl. by rewrite length_fmap.
Qed.

(** * The dump parser *)

Lemma slot_record_store_eq (cls : record_class) (v : Q) (dmp : dump) :
  slot cls (record_store cls v dmp) = Some v.
Proof. destruct cls; simpl; [done|apply lookup_insert_eq..]. Qed.

Lemma slot_record_store_ne (cls cls' : record_class) (v : Q) (dmp : dump) :
  cls <> cls' -> slot cls' (record_store cls v dmp) = slot cls' dmp.
Proof.
  intros Hne. destruct cls, cls'; simpl; try done;
    apply lookup_insert_ne; congruence.
Qed.

(** Later wins: a slot holds the value of the last record of its class. *)
Lemma slot_foldl_store_record (cls : record_class) (recs : list integral_record)
    (dmp : dump) :
  slot cls (foldl store_record dmp recs)
  = match last (filter (fun r => rec_class r = cls) recs) with
    | Some r => Some (rec_value r)
    | None => slot cls dmp
    end.
Proof.
  induction recs as [|r recs IH] using rev_ind; [done|].
  rewrite foldl_app, filter_app. simpl. unfold store_record at 1.
  destruct (decide (rec_class r = cls)) as [<-|Hne].
  - rewrite slot_record_store_eq.
    rewrite filter_cons_True, filter_nil by done. by rewrite last_snoc.
  - rewrite slot_record_store_ne by done.
    rewrite filter_cons_False, filter_nil, app_nil_r by done. apply IH.
Qed.

Section Parser.
Variable py_int : string -> option Z.
Variable py_float : string -> option Q.

Lemma store_row_classify (dmp : dump) (tokens : list string) (r :
    integral_record) :
  row_parses py_int py_float tokens r ->
  store_row py_int py_float dmp tokens = Ok (store_record dmp r).
Proof.
  intros (t0 & t1 & t2 & t3 & t4 & rest & -> & Hv & Ha & Hb & Hc & Hd).
  unfold store_row, item, int, float. simpl. rewrite Ha, Hb, Hc, Hd, Hv. simpl.
  unfold store_record, rec_class, classify.
  destruct (Z.eqb_spec (rec_d r) 0), (Z.eqb_spec (rec_c r) 0),
    (Z.eqb_spec (rec_b r) 0), (Z.eqb_spec (rec_a r) 0); simpl;
    repeat case_decide; try done; lia.
Qed.

(** A parse error is one of the two subscript and conversion errors. *)
Lemma store_row_Raise (dmp : dump) (tokens : list string) (e : exn) :
  store_row py_int py_float dmp tokens = Raise e ->
  e = ValueError \/ e = IndexError.
Proof.
  unfold store_row, item, int, float. intros H.
  repeat match type of H with
         | context [match ?x with _ => _ end] => destruct x; simpl in H
         end; simplify_eq; auto.
Qed.

Lemma skip_header_length (lines : list string) (k : nat) :
  (skip_header lines k).1 + length (skip_header lines k).2 = k + length lines.
Proof.
  revert k. induction lines as [|line lines IH]; intros k; simpl; [done|].
  destruct (contains "&END" line); simpl; [lia|]. rewrite IH. lia.
Qed.

Lemma for_in_range_item {S B : Type} (pre l : list B) (f : S -> B -> result S)
    (s : S) :
  for_in (seq (length pre) (length l))
    (fun s i => x ← item (pre ++ l) i; f s x) s
  = for_in l f s.
Proof.
  revert pre s. induction l as [|x l IH]; intros pre s; [done|].
  cbn [length seq for_in].
  assert (item (pre ++ x :: l) (length pre) = Ok x) as ->.
  { unfold item. by rewrite list_lookup_middle. }
  cbn [mbind result_bind].
  destruct (f s x) as [s'|]; cbn [mbind result_bind]; [|done].
  specialize (IH (pre ++ [x]) s').
  rewrite length_app, Nat.add_1_r, <- app_assoc in IH. apply IH.
Qed.

(** The parser as a loop over the token rows that follow the header. *)
Lemma get_integrals_FCIDUMP_rows (fs : files) (self : MolecularData_Dirac)
    (lines : list string) :
  fs !! ("FCIDUMP_" +:+ name self) = Some lines ->
  get_integrals_FCIDUMP py_int py_float fs self
  = for_in (split <$> (skip_header lines 0).2) (store_row py_int py_float)
      empty_dump.
Proof.
  intros Hfile. unfold get_integrals_FCIDUMP. rewrite Hfile.
  pose proof (skip_header_length lines 0) as Hlen.
  destruct (skip_header lines 0) as [start_reading rest]. simpl in *.
  replace (length lines - start_reading) with (length (split <$> rest))
    by (rewrite length_fmap; lia).
  apply (for_in_range_item []).
Qed.

Lemma for_in_store_row (rows : list (list string)) (recs : list integral_record)
    (dmp : dump) :
  Forall2 (row_parses py_int py_float) rows recs ->
  for_in rows (store_row py_int py_float) dmp = Ok (foldl store_record dmp
      recs).
Proof.
  intros Hrows. revert dmp.
  induction Hrows as [|tokens r rows recs Hrow _ IH]; intros dmp; simpl;
      [done|].
  rewrite (store_row_classify _ _ _ Hrow). simpl. apply IH.
Qed.

Lemma for_in_Raise {S B : Type} (xs : list B) (f : S -> B -> result S) (s : S)
    (e : exn) :
  for_in xs f s = Raise e -> exists s' x, x ∈ xs /\ f s' x = Raise e.
Proof.
  revert s. induction xs as [|x xs IH]; intros s; simpl; [done|].
  destruct (f s x) as [s'|e'] eqn:E; simpl.
  - intros (s'' & y & Hy & Hf)%IH. exists s'', y. split; [by right|done].
  - intros [= ->]. exists s, x. split; [by left|done].
Qed.

End Parser.

(** * The energy-log scanner *)

Lemma split_go_cur (cur s : string) : cur <> EmptyString -> split_go cur s <>
    [].
Proof.
  revert cur. induction s as [|a s IH]; intros cur Hcur; simpl.
  - by destruct cur.
  - destruct (py_isspace a); [by destruct cur|]. by apply IH.
Qed.

(** A line that contains a pattern starting with a non-blank character has a
    token. *)
Lemma split_contains (c : ascii) (pat s cur : string) :
  py_isspace c = false ->
  contains (String c pat) s = true ->
  split_go cur s <> [].
Proof.
  intros Hc. revert cur. induction s as [|a s IH]; intros cur; [done|].
  cbn [contains split_go]. intros [Hpre|Hin]%orb_true_iff.
  - cbn [String.prefix] in Hpre.
    destruct (ascii_dec c a) as [<-|]; [|done]. rewrite Hc.
    by apply split_go_cur.
  - destruct (py_isspace a).
    + intros [_ Hnil]%app_eq_nil. by apply (IH EmptyString).
    + by apply IH.
Qed.

Lemma rsplit_last_contains (label line : string) :
  starts_visible label = true ->
  contains label line = true ->
  exists t, last (split line) = Some t /\ rsplit_last line = Ok t.
Proof.
  destruct label as [|c pat]; [done|]. intros Hc%negb_true_iff Hin.
  unfold rsplit_last.
  destruct (last (split line)) as [t|] eqn:Hlast; [by eauto|].
  apply last_None in Hlast.
  by apply (split_contains c pat line EmptyString) in Hlast.
Qed.

Lemma scan_line_Ok (e : energies) (line : string) :
  scan_line e line = Ok (scan_labels e line).
Proof.
  unfold scan_line, scan_labels, scan_label.
  destruct (last (split line)) as [t|] eqn:Hlast.
  - assert (rsplit_last line = Ok t) as ->.
    { unfold rsplit_last. by rewrite Hlast. }
    destruct e as [hf mp2 ccsd].
    by destruct (contains hf_label line), (contains mp2_label line),
      (contains ccsd_label line).
  - assert (Hno : forall label, starts_visible label = true ->
              contains label line = false).
    { intros label Hlabel. destruct (contains label line) eqn:Hin; [|done].
      destruct (rsplit_last_contains label line Hlabel Hin) as (t & ? & _).
      congruence. }
    rewrite !Hno by done. by destruct e.
Qed.

Lemma foldl_scan_label (label : string) (lines : list string) :
  foldl (scan_label label) None lines = last_match label lines.
Proof.
  induction lines as [|line lines IH] using rev_ind; [done|].
  rewrite foldl_app. simpl. unfold last_match, scan_label at 1.
  rewrite filter_app.
  destruct (contains label line) eqn:Hin.
  - rewrite filter_cons_True, filter_nil by done. by rewrite last_snoc.
  - rewrite filter_cons_False, filter_nil, app_nil_r by (by rewrite Hin).
    apply IH.
Qed.

Lemma foldl_scan_labels (lines : list string) (e : energies) :
  foldl scan_labels e lines
  = {| hf_energy := foldl (scan_label hf_label) (hf_energy e) lines;
       mp2_energy := foldl (scan_label mp2_label) (mp2_energy e) lines;
       ccsd_energy := foldl (scan_label ccsd_label) (ccsd_energy e) lines |}.
Proof.
  revert e. induction lines as [|line lines IH]; intros e; simpl.
  - by destruct e.
  - by rewrite IH.
Qed.

Lemma for_in_scan_line (lines : list string) (e : energies) :
  for_in lines scan_line e = Ok (foldl scan_labels e lines).
Proof.
  revert e. induction lines as [|line lines IH]; intros e; simpl; [done|].
  rewrite scan_line_Ok. simpl. apply IH.
Qed.

(** The scanner on a log that exists. *)
Lemma get_energies_present (fs : files) (self : MolecularData_Dirac)
    (lines : list string) :
  fs !! (name self +:+ ".out") = Some lines ->
  get_energies fs self
  = Ok {| hf_energy := last_match hf_label lines;
          mp2_energy := last_match mp2_label lines;
          ccsd_energy := last_match ccsd_label lines |}.
Proof.
  intros Hfile. unfold get_energies. rewrite Hfile.
  rewrite for_in_scan_line, foldl_scan_labels. simpl.
  by rewrite !foldl_scan_label.
Qed.

(** * The assembled pipeline *)

Section Assembly.
Variable py_int : string -> option Z.
Variable py_float : string -> option Q.
Variable EQ_TOLERANCE : Q.

Lemma fill_coefficients_Ok (rel : bool) (one_body_integrals : gmap (Z * Z) Q)
    (two_body_integrals : gmap (Z * Z * Z * Z) Q) (n : nat) :
  fill_coefficients rel one_body_integrals two_body_integrals n
  = Ok (filled rel one_body_integrals two_body_integrals n).
Proof.
  destruct rel; [apply fill_coefficients_relativistic|
                 apply fill_coefficients_restricted].
Qed.

Lemma filled_shape (rel : bool) (one_body_integrals : gmap (Z * Z) Q)
    (two_body_integrals : gmap (Z * Z * Z * Z) Q) (n : nat) :
  has_shape2 n (filled rel one_body_integrals two_body_integrals n).1 /\
  has_shape4 n (filled rel one_body_integrals two_body_integrals n).2.
Proof.
  destruct rel; simpl; split;
    repeat first [apply has_shape2_apply_writes | apply has_shape4_apply_writes
                 | apply has_shape2_zeros2 | apply has_shape4_zeros4].
Qed.

(** Once the dump is parsed nothing can fail: the operator is assembled from
    the truncated arrays. *)
Lemma get_molecular_hamiltonian_Ok (fs : files) (self : MolecularData_Dirac)
    (d : dump) :
  get_integrals_FCIDUMP py_int py_float fs self = Ok d ->
  let st := filled (relativistic self) (one_body_int d) (two_body_int d)
              (size (one_body_int d)) in
  get_molecular_hamiltonian py_int py_float EQ_TOLERANCE fs self
  = Ok ({| constant := E_core d;
           one_body_tensor := truncate2_at EQ_TOLERANCE st.1;
           two_body_tensor := truncate4_at EQ_TOLERANCE st.2 |},
        truncate2_at EQ_TOLERANCE st.1, truncate4_at EQ_TOLERANCE st.2).
Proof.
  intros Hd st. unfold get_molecular_hamiltonian. rewrite Hd.
  cbn [mbind result_bind]. by rewrite fill_coefficients_Ok.
Qed.

End Assembly.

(** * Claims about the relativistic branch *)

Lemma NoDup_bind_range {B : Type} (n : nat) (f : nat -> list B) (key : B ->
    nat) :
  (forall p y, y ∈ f p -> key y = p) ->
  (forall p, NoDup (f p)) ->
  NoDup (range n ≫= f).
Proof.
  intros Hkey Hf. apply NoDup_bind; [|auto|apply NoDup_seq].
  intros x1 x2 y _ _ H1 H2. by rewrite <- (Hkey x1 y H1), (Hkey x2 y H2).
Qed.

Ltac unbind H :=
  repeat (apply list_elem_of_bind in H as (? & H & _)).

(** Every iteration of the relativistic loop nest assigns another cell. *)
Lemma two_body_writes_NoDup (two_body_integrals : gmap (Z * Z * Z * Z) Q)
    (n : nat) :
  NoDup (two_body_writes two_body_integrals n).
Proof.
  assert (Hw : forall p q r s y, y ∈ two_body_write two_body_integrals p q r s
      ->
            y.1 = (p, r, s, q)).
  { intros p q r s y. unfold two_body_write.
    destruct (two_body_integrals !! _); [|by intros ?%elem_of_nil].
    by intros ->%list_elem_of_singleton. }
  apply (NoDup_bind_range n _ (fun y => y.1.1.1.1)).
  { intros p y Hy. unbind Hy. by rewrite (Hw _ _ _ _ _ Hy). }
  intros p. apply (NoDup_bind_range n _ (fun y => y.1.2)).
  { intros q y Hy. unbind Hy. by rewrite (Hw _ _ _ _ _ Hy). }
  intros q. apply (NoDup_bind_range n _ (fun y => y.1.1.1.2)).
  { intros r y Hy. unbind Hy. by rewrite (Hw _ _ _ _ _ Hy). }
  intros r. apply (NoDup_bind_range n _ (fun y => y.1.1.2)).
  { intros s y Hy. by rewrite (Hw _ _ _ _ _ Hy). }
  intros s. unfold two_body_write.
  destruct (two_body_integrals !! _); [apply NoDup_singleton|apply NoDup_nil_2].
Qed.

Lemma one_body_writes_NoDup (one_body_integrals : gmap (Z * Z) Q) (n : nat) :
  NoDup (one_body_writes one_body_integrals n).
Proof.
  assert (Hw : forall p q y, y ∈ one_body_write one_body_integrals p q ->
            y.1 = (p, q)).
  { intros p q y. unfold one_body_write.
    destruct (one_body_integrals !! _); [|by intros ?%elem_of_nil].
    by intros ->%list_elem_of_singleton. }
  apply (NoDup_bind_range n _ (fun y => y.1.1)).
  { intros p y Hy. unbind Hy. by rewrite (Hw _ _ _ Hy). }
  intros p. apply (NoDup_bind_range n _ (fun y => y.1.2)).
  { intros q y Hy. by rewrite (Hw _ _ _ Hy). }
  intros q. unfold one_body_write.
  destruct (one_body_integrals !! _); [apply NoDup_singleton|apply NoDup_nil_2].
Qed.

(** C1, as the code has it. The relativistic transformer allocates
    [n x n] and [n x n x n x n] arrays and never raises. For every 1-based
    key [(p, q)] of the one-body dictionary whose indices lie in [1..n] the
    cell [(p-1, q-1)] holds the stored value, without mirroring; for every key
    [(p, q, r, s)] of the two-body dictionary whose indices lie in [1..n] the
    cell [(p-1, r-1, s-1, q-1)] holds half the stored value; a cell whose key
    is not stored holds zero. Each cell is decided by one key alone, and the
    loop nest assigns no cell twice. Keys with an index outside [1..n] are
    never looked up. *)
Theorem relativistic_fill_in_range (one_body_integrals : gmap (Z * Z) Q)
    (two_body_integrals : gmap (Z * Z * Z * Z) Q) (n : nat) :
  exists one two,
    fill_coefficients true one_body_integrals two_body_integrals n
      = Ok (one, two) /\
    has_shape2 n one /\ has_shape4 n two /\
    (forall p q, p < n -> q < n ->
       lookup2 one (p, q)
       = Some (default 0%Q (one_body_integrals !! (succ_key p, succ_key q)))) /\
    (forall p q r s, p < n -> q < n -> r < n -> s < n ->
       lookup4 two (p, r, s, q)
       = Some (from_option (fun v => (v / 2)%Q) 0%Q
                 (two_body_integrals
                    !! (succ_key p, succ_key q, succ_key r, succ_key s)))) /\
    (forall (p q : Z) v,
       one_body_integrals !! (p, q) = Some v ->
       (1 <= p <= Z.of_nat n)%Z -> (1 <= q <= Z.of_nat n)%Z ->
       lookup2 one (Z.to_nat (p - 1), Z.to_nat (q - 1)) = Some v) /\
    (forall (p q r s : Z) v,
       two_body_integrals !! (p, q, r, s) = Some v ->
       (1 <= p <= Z.of_nat n)%Z -> (1 <= q <= Z.of_nat n)%Z ->
       (1 <= r <= Z.of_nat n)%Z -> (1 <= s <= Z.of_nat n)%Z ->
       lookup4 two (Z.to_nat (p - 1), Z.to_nat (r - 1), Z.to_nat (s - 1),
                    Z.to_nat (q - 1)) = Some (v / 2)%Q) /\
    one = apply_writes (zeros2 n) (one_body_writes one_body_integrals n) /\
    two = apply_writes (zeros4 n) (two_body_writes two_body_integrals n) /\
    NoDup (one_body_writes one_body_integrals n) /\
    NoDup (two_body_writes two_body_integrals n).
Proof.
  eexists _, _. split; [apply fill_coefficients_relativistic|].
  split; [apply has_shape2_apply_writes, has_shape2_zeros2|].
  split; [apply has_shape4_apply_writes, has_shape4_zeros4|].
  split; [apply lookup2_one_body_writes|].
  split; [apply lookup4_two_body_writes|].
  split; [|split].
  - intros p q v Hv Hp Hq.
    rewrite lookup2_one_body_writes by lia.
    unfold succ_key. rewrite !Z2Nat.id by lia.
    replace (p - 1 + 1)%Z with p by lia. replace (q - 1 + 1)%Z with q by lia.
    by rewrite Hv.
  - intros p q r s v Hv Hp Hq Hr Hs.
    rewrite lookup4_two_body_writes by lia.
    unfold succ_key. rewrite !Z2Nat.id by lia.
    replace (p - 1 + 1)%Z with p by lia. replace (q - 1 + 1)%Z with q by lia.
    replace (r - 1 + 1)%Z with r by lia. replace (s - 1 + 1)%Z with s by lia.
    by rewrite Hv.
  - repeat split; [apply one_body_writes_NoDup|apply two_body_writes_NoDup].
Qed.

Lemma relativistic_fill_in_range_witness :
  exists one two,
    fill_coefficients true {[ (1, 2)%Z := (3 # 10)%Q; (2, 1)%Z := (1 # 5)%Q ]}
      {[ (1, 2, 2, 1)%Z := (1 # 10)%Q ]} 2 = Ok (one, two) /\
    lookup2 one (0, 1) = Some (3 # 10)%Q /\
    lookup4 two (0, 1, 0, 1) = Some ((1 # 10) / 2)%Q.
Proof.
  destruct (relativistic_fill_in_range
              {[ (1, 2)%Z := (3 # 10)%Q; (2, 1)%Z := (1 # 5)%Q ]}
              {[ (1, 2, 2, 1)%Z := (1 # 10)%Q ]} 2)
    as (one & two & Hfill & _ & _ & _ & _ & Hone & Htwo & _).
  exists one, two. split; [exact Hfill|]. split.
  - apply (Hone 1%Z 2%Z); [reflexivity|lia|lia].
  - apply (Htwo 1%Z 2%Z 2%Z 1%Z); [reflexivity|lia|lia|lia|lia].
Defined.

(** C1 as stated fails: with the single one-body key [(1, 2)] the arrays are
    allocated for one orbital, and the stored key has no cell. *)
Lemma relativistic_key_without_cell :
  let one_body_integrals : gmap (Z * Z) Q := {[ (1, 2)%Z := (3 # 10)%Q ]} in
  exists one two,
    fill_coefficients true one_body_integrals ∅ (size one_body_integrals)
      = Ok (one, two) /\
    one_body_integrals !! (1, 2)%Z = Some (3 # 10)%Q /\
    lookup2 one (0, 1) <> Some (3 # 10)%Q.
Proof.
  exists [[0%Q]], [[[[0%Q]]]]. split; [by vm_compute|]. split; [by vm_compute|].
  by vm_compute.
Qed.

(** * Claims about the restricted branch *)

Lemma two_restricted_sectors (two_body_integrals : gmap (Z * Z * Z * Z) Q)
    (n p q r s : nat) (c : cell4) :
  p < n / 2 -> q < n / 2 -> r < n / 2 -> s < n / 2 ->
  c ∈ spin_sectors p q r s ->
  is_Some (lookup4 (two_restricted two_body_integrals n) c) /\
  lookup4 (two_restricted two_body_integrals n) c
  = lookup4 (two_restricted two_body_integrals n) (2 * p, 2 * q, 2 * r, 2 * s).
Proof.
  intros Hp Hq Hr Hs Hc.
  destruct (two_restricted_spin two_body_integrals n p q r s Hp Hq Hr Hs)
    as (Hsome & H1 & H2 & H3).
  unfold spin_sectors in Hc. rewrite !elem_of_cons, elem_of_nil in Hc.
  destruct Hc as [->|[->|[->|[->|[]]]]]; split; congruence.
Qed.

Lemma two_restricted_class (two_body_integrals : gmap (Z * Z * Z * Z) Q)
    (n : nat) (t u : cell4) :
  in_range4 (n / 2) t -> u ∈ symmetry_group t ->
  is_Some (lookup4 (two_restricted two_body_integrals n) (even_cell u)) /\
  lookup4 (two_restricted two_body_integrals n) (even_cell u)
  = lookup4 (two_restricted two_body_integrals n) (even_cell t).
Proof.
  intros Ht Hu.
  assert (Hev : forall k, all_even (even_cell k)).
  { intros k. by exists (physicist k). }
  split.
  - apply same_cells_two_restricted, lookup4_zeros4_is_Some, even_cell_in_range.
    by eapply symmetry_group_in_range.
  - rewrite !two_restricted_even by done. by apply two_symmetric_class.
Qed.

(** C2. In restricted mode the expander never raises. On a stored key one
    iteration of its second loop nest assigns half the stored value to the
    eight cells and keeps every other cell. The whole loop nest
    is the replay of a log that holds, for every stored key
    [(2p+1, 2q+1, 2r+1, 2s+1)] with [p, q, r, s < n / 2], exactly the eight
    assignments of half the stored value to the cells obtained from the
    symmetry group by the permutation [(p, q, r, s) -> (p, r, s, q)] at even
    positions, and nothing else. In the result these eight cells hold half
    the stored value whenever the stored members of the class agree; the cells
    of a class without stored member hold zero; and for all spatial indices the
    three other spin sectors repeat the even-even cell. *)
Theorem restricted_two_body_expansion (one_body_integrals : gmap (Z * Z) Q)
    (two_body_integrals : gmap (Z * Z * Z * Z) Q) (n : nat) :
  exists one two,
    fill_coefficients false one_body_integrals two_body_integrals n
      = Ok (one, two) /\
    (forall a p q r s v,
       same_cells (zeros4 n) a ->
       p < n / 2 -> q < n / 2 -> r < n / 2 -> s < n / 2 ->
       exists a',
         for_in (symmetric_cells p q r s)
           (fun two c => dset two c (v / 2)%Q) a = Ok a' /\
         same_cells (zeros4 n) a' /\
         (forall c, c ∈ symmetric_cells p q r s ->
            lookup4 a' c = Some (v / 2)%Q) /\
         (forall c, c ∉ symmetric_cells p q r s ->
            lookup4 a' c = lookup4 a c)) /\
    (forall a, permutation_symmetry two_body_integrals n a
               = store_all a (symmetry_writes two_body_integrals n)) /\
    (forall c x, (c, x) ∈ symmetry_writes two_body_integrals n <->
       exists t v, in_range4 (n / 2) t /\
         two_body_integrals !! odd_keys t = Some v /\ x = (v / 2)%Q /\
         c ∈ even_cell <$> symmetry_group t) /\
    (forall p q r s,
       symmetric_cells p q r s
       = (fun t => spin_up (physicist t)) <$> symmetry_group (p, q, r, s)) /\
    (forall p q r s v c,
       p < n / 2 -> q < n / 2 -> r < n / 2 -> s < n / 2 ->
       two_body_integrals !! (odd_key p, odd_key q, odd_key r, odd_key s)
         = Some v ->
       (forall k v', k ∈ symmetry_group (p, q, r, s) ->
          two_body_integrals !! odd_keys k = Some v' -> v' = v) ->
       c ∈ symmetric_cells p q r s ->
       lookup4 two c = Some (v / 2)%Q) /\
    (forall p q r s c,
       p < n / 2 -> q < n / 2 -> r < n / 2 -> s < n / 2 ->
       (forall k, k ∈ symmetry_group (p, q, r, s) ->
          two_body_integrals !! odd_keys k = None) ->
       c ∈ symmetric_cells p q r s ->
       lookup4 two c = Some 0%Q) /\
    (forall p q r s,
       p < n / 2 -> q < n / 2 -> r < n / 2 -> s < n / 2 ->
       is_Some (lookup4 two (2 * p, 2 * q, 2 * r, 2 * s)) /\
       lookup4 two (2 * p + 1, 2 * q, 2 * r, 2 * s + 1)
         = lookup4 two (2 * p, 2 * q, 2 * r, 2 * s) /\
       lookup4 two (2 * p + 1, 2 * q + 1, 2 * r + 1, 2 * s + 1)
         = lookup4 two (2 * p, 2 * q, 2 * r, 2 * s) /\
       lookup4 two (2 * p, 2 * q + 1, 2 * r + 1, 2 * s)
         = lookup4 two (2 * p, 2 * q, 2 * r, 2 * s)).
Proof.
  eexists _, _. split; [apply fill_coefficients_restricted|].
  split; [intros a p q r s v; apply symmetry_iteration|].
  split; [apply permutation_symmetry_log|].
  split; [apply elem_of_symmetry_writes|].
  split; [done|].
  assert (Hev : forall k, all_even (even_cell k)).
  { intros k. by exists (physicist k). }
  split; [|split].
  - intros p q r s v c Hp Hq Hr Hs Hv Hclass Hc.
    rewrite symmetric_cells_group in Hc.
    apply list_elem_of_fmap in Hc as (u & -> & Hu).
    rewrite two_restricted_even by done.
    by apply (two_symmetric_stored _ _ (p, q, r, s)).
  - intros p q r s c Hp Hq Hr Hs Hnone Hc.
    rewrite symmetric_cells_group in Hc.
    apply list_elem_of_fmap in Hc as (u & -> & Hu).
    rewrite two_restricted_even by done.
    rewrite (two_symmetric_class _ _ (p, q, r, s)) by done.
    by apply two_symmetric_absent.
  - intros p q r s Hp Hq Hr Hs.
    destruct (two_restricted_spin two_body_integrals n p q r s Hp Hq Hr Hs)
      as (Hsome & H1 & H2 & H3).
    done.
Qed.

Lemma restricted_two_body_expansion_witness :
  exists one two,
    fill_coefficients false {[ (1, 1)%Z := 1%Q; (3, 3)%Z := 1%Q;
                               (1, 3)%Z := 1%Q; (3, 1)%Z := 1%Q ]}
      {[ (1, 3, 1, 1)%Z := (4 # 5)%Q ]} 4 = Ok (one, two) /\
    lookup4 two (2, 0, 0, 0) = Some ((4 # 5) / 2)%Q /\
    lookup4 two (0, 0, 2, 0) = Some ((4 # 5) / 2)%Q /\
    lookup4 two (2, 2, 2, 2) = Some 0%Q /\
    lookup4 two (1, 0, 2, 1) = lookup4 two (0, 0, 2, 0).
Proof.
  destruct (restricted_two_body_expansion
              {[ (1, 1)%Z := 1%Q; (3, 3)%Z := 1%Q;
                 (1, 3)%Z := 1%Q; (3, 1)%Z := 1%Q ]}
              {[ (1, 3, 1, 1)%Z := (4 # 5)%Q ]} 4)
    as (one & two & Hfill & _ & _ & _ & _ & Hstored & Habsent & Hspin).
  exists one, two. split; [exact Hfill|].
  assert (Hclass : forall k v', k ∈ symmetry_group (0, 1, 0, 0) ->
            ({[ (1, 3, 1, 1)%Z := (4 # 5)%Q ]} : gmap (Z * Z * Z * Z) Q)
              !! odd_keys k = Some v' -> v' = (4 # 5)%Q).
  { intros k v' Hk. unfold symmetry_group in Hk.
    rewrite !elem_of_cons, elem_of_nil in Hk.
    destruct Hk as [->|[->|[->|[->|[->|[->|[->|[->|[]]]]]]]]];
      vm_compute; congruence. }
  split; [|split; [|split]].
  - apply (Hstored 0 1 0 0 (4 # 5)%Q); [vm_compute; lia..|reflexivity|exact
      Hclass|].
    unfold symmetric_cells. rewrite !elem_of_cons. auto 10.
  - apply (Hstored 0 1 0 0 (4 # 5)%Q); [vm_compute; lia..|reflexivity|exact
      Hclass|].
    unfold symmetric_cells. rewrite !elem_of_cons. auto 10.
  - apply (Habsent 1 1 1 1); [vm_compute; lia..| |].
    + intros k Hk. unfold symmetry_group in Hk.
      rewrite !elem_of_cons, elem_of_nil in Hk.
      destruct Hk as [->|[->|[->|[->|[->|[->|[->|[->|[]]]]]]]]]; reflexivity.
    + unfold symmetric_cells. rewrite !elem_of_cons. auto 10.
  - apply (Hspin 0 0 1 0); vm_compute; lia.
Defined.

(** C3. After the restricted expansion, whatever the two-body dictionary
    stores (several members of one symmetry class included), for all spatial
    [p, q, r, s < n / 2] the eight cells the second loop nest assigns for
    [(p, q, r, s)] exist and are pairwise equal, and so are the four
    spin-sector cells of the third loop nest; truncation keeps both. *)
Theorem restricted_symmetry_invariant (one_body_integrals : gmap (Z * Z) Q)
    (two_body_integrals : gmap (Z * Z * Z * Z) Q) (n : nat) :
  exists one two,
    fill_coefficients false one_body_integrals two_body_integrals n
      = Ok (one, two) /\
    (forall p q r s c c',
       p < n / 2 -> q < n / 2 -> r < n / 2 -> s < n / 2 ->
       c ∈ symmetric_cells p q r s -> c' ∈ symmetric_cells p q r s ->
       is_Some (lookup4 two c) /\ lookup4 two c = lookup4 two c') /\
    (forall p q r s c c',
       p < n / 2 -> q < n / 2 -> r < n / 2 -> s < n / 2 ->
       c ∈ spin_sectors p q r s -> c' ∈ spin_sectors p q r s ->
       is_Some (lookup4 two c) /\ lookup4 two c = lookup4 two c') /\
    (forall tol p q r s c c',
       p < n / 2 -> q < n / 2 -> r < n / 2 -> s < n / 2 ->
       (c ∈ symmetric_cells p q r s /\ c' ∈ symmetric_cells p q r s) \/
       (c ∈ spin_sectors p q r s /\ c' ∈ spin_sectors p q r s) ->
       lookup4 (truncate4_at tol two) c = lookup4 (truncate4_at tol two) c').
Proof.
  eexists _, _. split; [apply fill_coefficients_restricted|].
  assert (Hsym : forall p q r s c c',
    p < n / 2 -> q < n / 2 -> r < n / 2 -> s < n / 2 ->
    c ∈ symmetric_cells p q r s -> c' ∈ symmetric_cells p q r s ->
    is_Some (lookup4 (two_restricted two_body_integrals n) c) /\
    lookup4 (two_restricted two_body_integrals n) c
    = lookup4 (two_restricted two_body_integrals n) c').
  { intros p q r s c c' Hp Hq Hr Hs Hc Hc'.
    rewrite symmetric_cells_group in Hc, Hc'.
    apply list_elem_of_fmap in Hc as (u & -> & Hu).
    apply list_elem_of_fmap in Hc' as (u' & -> & Hu').
    destruct (two_restricted_class two_body_integrals n (p, q, r, s) u)
      as [Hsome Heq]; [done..|].
    destruct (two_restricted_class two_body_integrals n (p, q, r, s) u')
      as [_ Heq']; [done..|].
    split; [done|congruence]. }
  assert (Hspin : forall p q r s c c',
    p < n / 2 -> q < n / 2 -> r < n / 2 -> s < n / 2 ->
    c ∈ spin_sectors p q r s -> c' ∈ spin_sectors p q r s ->
    is_Some (lookup4 (two_restricted two_body_integrals n) c) /\
    lookup4 (two_restricted two_body_integrals n) c
    = lookup4 (two_restricted two_body_integrals n) c').
  { intros p q r s c c' Hp Hq Hr Hs Hc Hc'.
    destruct (two_restricted_sectors two_body_integrals n p q r s c)
      as [Hsome Heq]; [done..|].
    destruct (two_restricted_sectors two_body_integrals n p q r s c')
      as [_ Heq']; [done..|].
    split; [done|congruence]. }
  split; [exact Hsym|]. split; [exact Hspin|].
  intros tol p q r s c c' Hp Hq Hr Hs [[Hc Hc']|[Hc Hc']];
    rewrite !lookup4_truncate4_at; f_equal.
  - by apply (Hsym p q r s).
  - by apply (Hspin p q r s).
Qed.

Lemma restricted_symmetry_invariant_witness :
  exists one two,
    fill_coefficients false {[ (1, 1)%Z := 1%Q; (3, 3)%Z := 1%Q;
                               (1, 3)%Z := 1%Q; (3, 1)%Z := 1%Q ]}
      {[ (1, 3, 1, 1)%Z := (4 # 5)%Q; (3, 1, 1, 1)%Z := (3 # 5)%Q ]} 4
      = Ok (one, two) /\
    lookup4 two (0, 0, 0, 2) = lookup4 two (2, 0, 0, 0) /\
    lookup4 two (1, 0, 2, 1) = lookup4 two (0, 1, 3, 0).
Proof.
  destruct (restricted_symmetry_invariant
              {[ (1, 1)%Z := 1%Q; (3, 3)%Z := 1%Q;
                 (1, 3)%Z := 1%Q; (3, 1)%Z := 1%Q ]}
              {[ (1, 3, 1, 1)%Z := (4 # 5)%Q; (3, 1, 1, 1)%Z := (3 # 5)%Q ]} 4)
    as (one & two & Hfill & Hsym & Hspin & _).
  exists one, two. split; [exact Hfill|]. split.
  - apply (Hsym 0 1 0 0); [vm_compute; lia..| |];
      unfold symmetric_cells; rewrite !elem_of_cons; auto 10.
  - apply (Hspin 0 0 1 0); [vm_compute; lia..| |];
      unfold spin_sectors; rewrite !elem_of_cons; auto 10.
Defined.

(** C6 as stated fails: a restricted run on a dump with one one-body record
    has an odd count of spin orbitals, and returns a Hamiltonian. *)
Lemma restricted_odd_count_returns :
  let fs : files :=
    {[ "FCIDUMP_m"%string := [" &END"; "0.3 1 1 0 0"; "0.4 1 1 1 1"]%string ]} in
  let self := {| name := "m"; relativistic := false |} in
  exists d,
    get_integrals_FCIDUMP dec_int dec_float fs self = Ok d /\
    Nat.Odd (size (one_body_int d)) /\
    get_molecular_hamiltonian dec_int dec_float (1 # 100000000) fs self
    = Ok ({| constant := 0; one_body_tensor := [[(3 # 10)%Q]];
             two_body_tensor := [[[[0%Q]]]] |},
          [[(3 # 10)%Q]], [[[[0%Q]]]]).
Proof.
  eexists. split; [by vm_compute|]. split; [by exists 0|]. by vm_compute.
Qed.

(** C6, as the code has it. The restricted branch makes no parity check:
    whenever the dump parses, a Hamiltonian of the allocated shape is
    returned, for odd [n] too. The loops run over [n / 2] spatial orbitals,
    so every two-body cell with an index of [2 * (n / 2)] or more, which for
    odd [n] is the last spin orbital [n - 1], is zero. *)
Theorem restricted_no_parity_check (py_int : string -> option Z)
    (py_float : string -> option Q) (EQ_TOLERANCE : Q)
    (fs : files) (self : MolecularData_Dirac) (d : dump) :
  relativistic self = false ->
  get_integrals_FCIDUMP py_int py_float fs self = Ok d ->
  let n := size (one_body_int d) in
  exists H one two,
    get_molecular_hamiltonian py_int py_float EQ_TOLERANCE fs self
      = Ok (H, one, two) /\
    has_shape2 n one /\ has_shape4 n two /\
    (forall c, in_range4 n c -> ~ in_range4 (2 * (n / 2)) c ->
       lookup4 two c = Some 0%Q) /\
    (Nat.Odd n -> forall p q r s, p < n -> q < n -> r < n -> s < n ->
       p = n - 1 \/ q = n - 1 \/ r = n - 1 \/ s = n - 1 ->
       lookup4 two (p, q, r, s) = Some 0%Q).
Proof.
  intros Hrel Hd n.
  eexists _, _, _. split; [by apply get_molecular_hamiltonian_Ok|].
  rewrite Hrel. cbn [filled fst snd]. fold n.
  assert (Hzero : forall c, in_range4 n c -> ~ in_range4 (2 * (n / 2)) c ->
            lookup4 (truncate4_at EQ_TOLERANCE (two_restricted (two_body_int d)
                n)) c
            = Some 0%Q).
  { intros c Hc Hout. rewrite lookup4_truncate4_at.
    rewrite two_restricted_untouched by done. simpl.
    by rewrite truncate_at_zero. }
  split; [apply has_shape2_truncate2_at, has_shape2_apply_writes,
      has_shape2_zeros2|].
  split.
  { apply has_shape4_truncate4_at.
    do 2 apply has_shape4_apply_writes. apply has_shape4_zeros4. }
  split; [exact Hzero|].
  intros [k Hk] p q r s Hp Hq Hr Hs Hlast. apply Hzero; [done|].
  unfold in_range4. replace (n / 2) with k; [lia|].
  rewrite Hk. replace (2 * k + 1) with (1 + k * 2) by lia.
  rewrite Nat.div_add by done. done.
Qed.

Lemma restricted_no_parity_check_witness :
  exists H one two,
    get_molecular_hamiltonian dec_int dec_float (1 # 100000000)
      {[ "FCIDUMP_m"%string := [" &END"; "0.3 1 1 0 0"; "0.4 1 1 1 1"]%string ]}
      {| name := "m"; relativistic := false |} = Ok (H, one, two) /\
    lookup4 two (0, 0, 0, 0) = Some 0%Q.
Proof.
  destruct (restricted_no_parity_check dec_int dec_float (1 # 100000000)
              {[ "FCIDUMP_m"%string :=
                   [" &END"; "0.3 1 1 0 0"; "0.4 1 1 1 1"]%string ]}
              {| name := "m"; relativistic := false |}
              {| E_core := 0; spinor := ∅;
                 one_body_int := {[ (1, 1)%Z := (3 # 10)%Q ]};
                 two_body_int := {[ (1, 1, 1, 1)%Z := (2 # 5)%Q ]} |}
              eq_refl)
    as (H & one & two & Hgmh & _ & _ & _ & Hodd).
  { by vm_compute. }
  exists H, one, two. split; [exact Hgmh|].
  apply Hodd; [by exists 0|vm_compute; lia..].
Defined.

(** C10. In restricted mode the one-body loop only mirrors: a stored key
    [(p+1, q+1)] reaches the cells [(p, q)] and [(q, p)], and a cell of which
    neither the key nor the mirrored key is stored stays zero. There is no
    spin doubling: when all stored one-body keys are odd (spin-up) 1-based
    indices, every cell with an odd 0-based index is zero in the output. *)
Theorem restricted_one_body_mirror_only (py_int : string -> option Z)
    (py_float : string -> option Q) (EQ_TOLERANCE : Q)
    (fs : files) (self : MolecularData_Dirac) (d : dump) :
  relativistic self = false ->
  get_integrals_FCIDUMP py_int py_float fs self = Ok d ->
  let n := size (one_body_int d) in
  exists H one two,
    get_molecular_hamiltonian py_int py_float EQ_TOLERANCE fs self
      = Ok (H, one, two) /\
    one_body_tensor H = one /\
    (forall p q, p < n -> q < n ->
       one_body_int d !! (succ_key p, succ_key q) = None ->
       one_body_int d !! (succ_key q, succ_key p) = None ->
       lookup2 one (p, q) = Some 0%Q) /\
    (forall p q v, p < n -> q < n ->
       one_body_int d !! (succ_key p, succ_key q) = Some v ->
       (forall v', one_body_int d !! (succ_key q, succ_key p) = Some v' ->
          v' = v) ->
       lookup2 one (p, q) = Some (truncate_at EQ_TOLERANCE v) /\
       lookup2 one (q, p) = Some (truncate_at EQ_TOLERANCE v)) /\
    ((forall (kp kq : Z) v, one_body_int d !! (kp, kq) = Some v ->
        Z.odd kp = true /\ Z.odd kq = true) ->
     forall p q, p < n -> q < n -> Nat.Odd p \/ Nat.Odd q ->
       lookup2 one (p, q) = Some 0%Q).
Proof.
  intros Hrel Hd n.
  eexists _, _, _. split; [by apply get_molecular_hamiltonian_Ok|].
  rewrite Hrel. cbn [filled fst snd one_body_tensor]. fold n.
  split; [done|].
  assert (Habsent : forall p q, p < n -> q < n ->
            one_body_int d !! (succ_key p, succ_key q) = None ->
            one_body_int d !! (succ_key q, succ_key p) = None ->
            lookup2 (truncate2_at EQ_TOLERANCE (one_restricted (one_body_int d)
                n))
              (p, q) = Some 0%Q).
  { intros p q Hp Hq H1 H2. rewrite lookup2_truncate2_at.
    rewrite one_restricted_absent by done. simpl. by rewrite truncate_at_zero. }
  split; [exact Habsent|]. split.
  - intros p q v Hp Hq Hv Hmirror. rewrite !lookup2_truncate2_at.
    destruct (one_restricted_stored (one_body_int d) n p q v) as [-> ->]; done.
  - intros Hodd p q Hp Hq Hpq.
    assert (Hnone : forall a b, Nat.Odd a \/ Nat.Odd b ->
              one_body_int d !! (succ_key a, succ_key b) = None).
    { intros a b Hab.
      destruct (one_body_int d !! (succ_key a, succ_key b)) as [v|] eqn:Hv;
        [|done].
      destruct (Hodd _ _ _ Hv) as [Ha Hb]. unfold succ_key in Ha, Hb.
      rewrite Z.odd_add in Ha, Hb. cbn in Ha, Hb.
      apply negb_true_iff in Ha, Hb.
      rewrite <- Z.negb_even, negb_false_iff in Ha, Hb.
      apply Z.even_spec in Ha as [x Hx], Hb as [y Hy].
      destruct Hab as [[k Hk]|[k Hk]]; lia. }
    apply Habsent; [done..| |]; apply Hnone; tauto.
Qed.

Lemma restricted_one_body_mirror_only_witness :
  exists H one two,
    get_molecular_hamiltonian dec_int dec_float (1 # 100000000)
      {[ "FCIDUMP_m"%string :=
           [" &END"; "0.3 1 1 0 0"; "0.5 3 3 0 0"; "0.2 1 3 0 0"; "0.2 3 1 0 0"]%string ]}
      {| name := "m"; relativistic := false |} = Ok (H, one, two) /\
    lookup2 one (1, 1) = Some 0%Q /\ lookup2 one (2, 3) = Some 0%Q.
Proof.
  destruct (restricted_one_body_mirror_only dec_int dec_float (1 # 100000000)
              {[ "FCIDUMP_m"%string :=
                   [" &END"; "0.3 1 1 0 0"; "0.5 3 3 0 0"; "0.2 1 3 0 0";
                    "0.2 3 1 0 0"]%string ]}
              {| name := "m"; relativistic := false |}
              {| E_core := 0; spinor := ∅;
                 one_body_int := {[ (1, 1)%Z := (3 # 10)%Q; (3, 3)%Z := (1 #
                     2)%Q;
                                    (1, 3)%Z := (1 # 5)%Q; (3, 1)%Z := (1 #
                                        5)%Q ]};
                 two_body_int := ∅ |}
              eq_refl)
    as (H & one & two & Hgmh & _ & _ & _ & Hodd).
  { by vm_compute. }
  exists H, one, two. split; [exact Hgmh|].
  assert (Hkeys : forall (kp kq : Z) (v : Q),
            ({[ (1, 1)%Z := (3 # 10)%Q; (3, 3)%Z := (1 # 2)%Q;
                (1, 3)%Z := (1 # 5)%Q; (3, 1)%Z := (1 # 5)%Q ]}
               : gmap (Z * Z) Q) !! (kp, kq) = Some v ->
            Z.odd kp = true /\ Z.odd kq = true).
  { intros kp kq v Hv.
    repeat (apply lookup_insert_Some in Hv as [[[= <- <-] _]|[_ Hv]]; [by
        vm_compute|]).
    apply lookup_singleton_Some in Hv as [[= <- <-] _]. by vm_compute. }
  split; apply (Hodd Hkeys); try (vm_compute; lia).
  - left. by exists 0.
  - right. by exists 1.
Defined.

(** * Claims about truncation and assembly *)

(** C9. Truncation acts entry by entry, on the one-body and on the two-body
    array independently: an entry of magnitude below the tolerance becomes
    zero and any other entry is kept. It is idempotent, so that assembling
    again with the same tolerance gives the same arrays, and monotone: for
    [t1 <= t2] every entry zeroed at [t1] is zeroed at [t2]. The arrays
    [get_molecular_hamiltonian] returns are the truncated ones. *)
Theorem truncation_idempotent_monotone (t1 t2 : Q) (one : array2)
    (two : array4) :
  (t1 <= t2)%Q ->
  (forall c, lookup2 (truncate2_at t1 one) c = truncate_at t1 <$> lookup2 one
      c) /\
  (forall c, lookup4 (truncate4_at t1 two) c = truncate_at t1 <$> lookup4 two
      c) /\
  (forall x, (Qabs x < t1)%Q -> truncate_at t1 x = 0%Q) /\
  (forall x, ~ (Qabs x < t1)%Q -> truncate_at t1 x = x) /\
  truncate2_at t1 (truncate2_at t1 one) = truncate2_at t1 one /\
  truncate4_at t1 (truncate4_at t1 two) = truncate4_at t1 two /\
  (forall x, (Qabs x < t1)%Q -> (Qabs x < t2)%Q /\ truncate_at t2 x = 0%Q) /\
  (forall c x, lookup2 one c = Some x -> (Qabs x < t1)%Q ->
     lookup2 (truncate2_at t1 one) c = Some 0%Q /\
     lookup2 (truncate2_at t2 one) c = Some 0%Q) /\
  (forall c x, lookup4 two c = Some x -> (Qabs x < t1)%Q ->
     lookup4 (truncate4_at t1 two) c = Some 0%Q /\
     lookup4 (truncate4_at t2 two) c = Some 0%Q) /\
  (forall py_int py_float fs self d,
     get_integrals_FCIDUMP py_int py_float fs self = Ok d ->
     exists st,
       fill_coefficients (relativistic self) (one_body_int d) (two_body_int d)
         (size (one_body_int d)) = Ok st /\
       get_molecular_hamiltonian py_int py_float t1 fs self
       = Ok ({| constant := E_core d;
                one_body_tensor := truncate2_at t1 st.1;
                two_body_tensor := truncate4_at t1 st.2 |},
             truncate2_at t1 st.1, truncate4_at t1 st.2)).
Proof.
  intros Hle.
  assert (Hmono : forall x, (Qabs x < t1)%Q ->
            (Qabs x < t2)%Q /\ truncate_at t2 x = 0%Q).
  { intros x Hx. assert (Qabs x < t2)%Q by (by eapply Qlt_le_trans).
    split; [done|by apply truncate_at_below]. }
  split; [apply lookup2_truncate2_at|].
  split; [apply lookup4_truncate4_at|].
  split; [apply truncate_at_below|].
  split; [apply truncate_at_above|].
  split; [apply truncate2_at_idem|].
  split; [apply truncate4_at_idem|].
  split; [exact Hmono|].
  split; [|split].
  - intros c x Hc Hx. rewrite !lookup2_truncate2_at, Hc. simpl.
    by rewrite (truncate_at_below t1), (proj2 (Hmono x Hx)).
  - intros c x Hc Hx. rewrite !lookup4_truncate4_at, Hc. simpl.
    by rewrite (truncate_at_below t1), (proj2 (Hmono x Hx)).
  - intros py_int py_float fs self d Hd. eexists. split.
    + apply fill_coefficients_Ok.
    + by apply get_molecular_hamiltonian_Ok.
Qed.

Lemma truncation_idempotent_monotone_witness :
  lookup2 (truncate2_at (1 # 10) [[(1 # 100)%Q; (1 # 2)%Q]]) (0, 0) = Some 0%Q
      /\
  lookup2 (truncate2_at (1 # 5) [[(1 # 100)%Q; (1 # 2)%Q]]) (0, 0) = Some 0%Q.
Proof.
  destruct (truncation_idempotent_monotone (1 # 10) (1 # 5)
              [[(1 # 100)%Q; (1 # 2)%Q]] [] ltac:(by vm_compute))
    as (_ & _ & _ & _ & _ & _ & _ & Hone & _).
  apply (Hone (0, 0) (1 # 100)%Q); [reflexivity|by vm_compute].
Defined.

(** * Claims about the dump parser *)

(** C4. A data row with a value [v] and integers [a b c d] is classified by
    its trailing zeros, in this order: all four zero, [v] becomes the core
    energy; [d c b] zero and [a] not, [v] is stored as the orbital energy of
    [a]; [d c] zero and [b] not, [v] is stored under the one-body key
    [(a, b)]; otherwise under the two-body key [(a, b, c, d)]. The keys are
    the integers as read. On a dump whose rows all parse, the parser returns
    the left-to-right fold of these stores, so that a repeated key holds the
    value of its last row. *)
Theorem dump_parser_classification (py_int : string -> option Z)
    (py_float : string -> option Q) (fs : files) (self : MolecularData_Dirac)
    (lines : list string) (recs : list integral_record) :
  fs !! ("FCIDUMP_" +:+ name self) = Some lines ->
  Forall2 (row_parses py_int py_float) (split <$> (skip_header lines 0).2) recs
      ->
  (forall dmp tokens r, row_parses py_int py_float tokens r ->
     let v := rec_value r in
     let a := rec_a r in let b := rec_b r in
     let c := rec_c r in let d := rec_d r in
     exists dmp',
       store_row py_int py_float dmp tokens = Ok dmp' /\
       (d = 0 /\ c = 0 /\ b = 0 /\ a = 0 ->
          dmp' = {| E_core := v; spinor := spinor dmp;
                    one_body_int := one_body_int dmp;
                    two_body_int := two_body_int dmp |})%Z /\
       (d = 0 /\ c = 0 /\ b = 0 /\ a <> 0 ->
          dmp' = {| E_core := E_core dmp; spinor := <[a := v]> (spinor dmp);
                    one_body_int := one_body_int dmp;
                    two_body_int := two_body_int dmp |})%Z /\
       (d = 0 /\ c = 0 /\ b <> 0 ->
          dmp' = {| E_core := E_core dmp; spinor := spinor dmp;
                    one_body_int := <[(a, b) := v]> (one_body_int dmp);
                    two_body_int := two_body_int dmp |})%Z /\
       (~ (d = 0 /\ c = 0) ->
          dmp' = {| E_core := E_core dmp; spinor := spinor dmp;
                    one_body_int := one_body_int dmp;
                    two_body_int := <[(a, b, c, d) := v]> (two_body_int dmp)
                        |})%Z) /\
  get_integrals_FCIDUMP py_int py_float fs self
    = Ok (foldl store_record empty_dump recs) /\
  (forall cls,
     slot cls (foldl store_record empty_dump recs)
     = match last (filter (fun r => rec_class r = cls) recs) with
       | Some r => Some (rec_value r)
       | None => slot cls empty_dump
       end).
Proof.
  intros Hfile Hrows. split; [|split].
  - intros dmp tokens r Hr v a b c d. eexists.
    split; [by apply store_row_classify|].
    unfold store_record, rec_class, classify. fold a b c d v.
    repeat split; intros Hcase; repeat case_decide; try done; tauto.
  - rewrite (get_integrals_FCIDUMP_rows _ _ _ _ lines) by done.
    by apply for_in_store_row.
  - intros cls. apply slot_foldl_store_record.
Qed.

Lemma dump_parser_classification_witness :
  get_integrals_FCIDUMP dec_int dec_float
    {[ "FCIDUMP_m"%string :=
         ["&FCI NORB=2,"; " &END"; "0.3 1 2 0 0"; "1.5 0 0 0 0"; "0.7 1 2 0 0"]%string ]}
    {| name := "m"; relativistic := true |}
  = Ok {| E_core := 3 # 2; spinor := ∅;
          one_body_int := <[(1, 2)%Z := (7 # 10)%Q]> (<[(1, 2)%Z := (3 #
              10)%Q]> ∅);
          two_body_int := ∅ |}.
Proof.
  destruct (dump_parser_classification dec_int dec_float
    {[ "FCIDUMP_m"%string :=
         ["&FCI NORB=2,"; " &END"; "0.3 1 2 0 0"; "1.5 0 0 0 0"; "0.7 1 2 0 0"]%string ]}
    {| name := "m"; relativistic := true |}
    ["&FCI NORB=2,"; " &END"; "0.3 1 2 0 0"; "1.5 0 0 0 0"; "0.7 1 2 0 0"]%string
    [ {| rec_value := 3 # 10; rec_a := 1; rec_b := 2; rec_c := 0; rec_d := 0 |};
      {| rec_value := 3 # 2; rec_a := 0; rec_b := 0; rec_c := 0; rec_d := 0 |};
      {| rec_value := 7 # 10; rec_a := 1; rec_b := 2; rec_c := 0; rec_d := 0 |}
          ]
    ltac:(by vm_compute)) as (_ & Hparse & _).
  { match goal with
    | |- Forall2 _ ?l _ => let l' := eval vm_compute in l in change l with l'
    end.
    repeat (constructor;
            [eexists _, _, _, _, _, _; split; [reflexivity|];
             repeat split; by vm_compute|]).
    constructor. }
  exact Hparse.
Defined.

(** C5, evaluated on two dumps of a calculation with two orbitals (two
    orbital-energy records, so that the orbital count [save] computes is 2).
    The arrays are allocated for the number of one-body records. With the
    four records of a full one-body matrix they are [4 x 4] and
    [4 x 4 x 4 x 4]; with the single record [(1, 2)] they are [1 x 1] and
    [1 x 1 x 1 x 1], and the record has no cell. *)
Theorem dimension_is_one_body_record_count :
  let self := {| name := "m"; relativistic := true |} in
  let full : files :=
    {[ "FCIDUMP_m"%string :=
         [" &END"; "0.1 1 1 1 1"; "0.6 1 1 0 0"; "0.3 1 2 0 0";
          "0.3 2 1 0 0"; "0.7 2 2 0 0"; "-0.5 1 0 0 0"; "-0.4 2 0 0 0";
          "1.5 0 0 0 0"]%string ]} in
  let sparse : files :=
    {[ "FCIDUMP_m"%string :=
         [" &END"; "0.1 1 1 1 1"; "0.3 1 2 0 0"; "-0.5 1 0 0 0";
          "-0.4 2 0 0 0"; "1.5 0 0 0 0"]%string ]} in
  (exists d H one two,
     get_integrals_FCIDUMP dec_int dec_float full self = Ok d /\
     n_orbitals d = 2 /\ size (one_body_int d) = 4 /\
     get_molecular_hamiltonian dec_int dec_float (1 # 100000000) full self
       = Ok (H, one, two) /\
     has_shape2 4 one /\ has_shape4 4 two /\
     ~ has_shape2 (n_orbitals d) one /\ ~ has_shape4 (n_orbitals d) two) /\
  (exists d H one two,
     get_integrals_FCIDUMP dec_int dec_float sparse self = Ok d /\
     n_orbitals d = 2 /\ size (one_body_int d) = 1 /\
     get_molecular_hamiltonian dec_int dec_float (1 # 100000000) sparse self
       = Ok (H, one, two) /\
     has_shape2 1 one /\ has_shape4 1 two /\
     ~ has_shape2 (n_orbitals d) one /\ ~ has_shape4 (n_orbitals d) two /\
     lookup2 one (0, 1) = None).
Proof.
  split.
  - eexists _, _, _, _. split; [by vm_compute|]. split; [by vm_compute|].
    split; [by vm_compute|]. split; [by vm_compute|].
    split; [by repeat constructor|]. split; [by repeat constructor|].
    split; by intros [Hlen _].
  - eexists _, _, _, _. split; [by vm_compute|]. split; [by vm_compute|].
    split; [by vm_compute|]. split; [by vm_compute|].
    split; [by repeat constructor|]. split; [by repeat constructor|].
    split; [by intros [Hlen _]|]. split; [by intros [Hlen _]|done].
Qed.

(** * Claims about the energy-log scanner and the missing files *)

Lemma filter_no_match (label : string) (lines : list string) :
  Forall (fun l => contains label l = false) lines ->
  filter (fun l => contains label l = true) lines = [].
Proof.
  induction 1 as [|l lines Hl _ IH]; [done|].
  rewrite filter_cons_False by (by rewrite Hl). apply IH.
Qed.

(** C7 as stated fails: on a log with two Hartree-Fock lines the scanner
    returns the token of the last one, not of the first. *)
Lemma scanner_keeps_last_line :
  let log : list string :=
    ["Total energy                             :   -1.0";
     "Total energy                             :   -2.0"]%string in
  let fs : files := {[ "m.out"%string := log ]} in
  exists e,
    get_energies fs {| name := "m"; relativistic := true |} = Ok e /\
    first_match hf_label log = Some "-1.0"%string /\
    hf_energy e = Some "-2.0"%string /\
    hf_energy e <> first_match hf_label log.
Proof.
  eexists. split; [by vm_compute|]. split; [by vm_compute|].
  split; by vm_compute.
Qed.

(** C7, as the code has it. On a log that exists the scanner never raises
    and returns, for each of the three labels, the last
    whitespace-delimited token of the last line that contains the label, as
    a string; a label no line contains yields [None]. *)
Theorem scanner_last_matching_line (fs : files) (self : MolecularData_Dirac)
    (lines : list string) :
  fs !! (name self +:+ ".out") = Some lines ->
  get_energies fs self
    = Ok {| hf_energy := last_match hf_label lines;
            mp2_energy := last_match mp2_label lines;
            ccsd_energy := last_match ccsd_label lines |} /\
  (forall label pre line post,
     lines = pre ++ line :: post ->
     contains label line = true ->
     Forall (fun l => contains label l = false) post ->
     last_match label lines = last (split line)) /\
  (forall label,
     Forall (fun l => contains label l = false) lines ->
     last_match label lines = None).
Proof.
  intros Hfile. split; [by apply get_energies_present|]. split.
  - intros label pre line post -> Hline Hpost. unfold last_match.
    rewrite filter_app, filter_cons_True by done.
    rewrite (filter_no_match label post Hpost). by rewrite last_snoc.
  - intros label Hnone. unfold last_match.
    by rewrite (filter_no_match label lines Hnone).
Qed.

Lemma scanner_last_matching_line_witness :
  get_energies
    {[ "m.out"%string :=
         ["Total energy                             :   -1.0";
          "@ Total MP2 energy : -1.5";
          "Total energy                             :   -2.0"]%string ]}
    {| name := "m"; relativistic := true |}
  = Ok {| hf_energy := Some "-2.0"%string; mp2_energy := Some "-1.5"%string;
          ccsd_energy := None |}.
Proof.
  destruct (scanner_last_matching_line
    {[ "m.out"%string :=
         ["Total energy                             :   -1.0";
          "@ Total MP2 energy : -1.5";
          "Total energy                             :   -2.0"]%string ]}
    {| name := "m"; relativistic := true |}
    ["Total energy                             :   -1.0";
     "@ Total MP2 energy : -1.5";
     "Total energy                             :   -2.0"]%string
    ltac:(by vm_compute)) as [Hscan _].
  exact Hscan.
Defined.

(** C8. A reader whose file is absent raises [FileNotFoundError], an
    exception of its own kind: the errors a malformed dump raises are
    [ValueError] and [IndexError], never this one. A reader whose file is
    present never raises [FileNotFoundError]; the log scanner then raises
    nothing at all. [get_molecular_hamiltonian] passes the condition on. *)
Theorem missing_input_is_distinct (py_int : string -> option Z)
    (py_float : string -> option Q) (EQ_TOLERANCE : Q)
    (fs : files) (self : MolecularData_Dirac) :
  (fs !! ("FCIDUMP_" +:+ name self) = None ->
     get_integrals_FCIDUMP py_int py_float fs self
       = Raise (FileNotFoundError
                  "FCIDUMP not found, first make a run_dirac calculation") /\
     get_molecular_hamiltonian py_int py_float EQ_TOLERANCE fs self
       = Raise (FileNotFoundError
                  "FCIDUMP not found, first make a run_dirac calculation")) /\
  (is_Some (fs !! ("FCIDUMP_" +:+ name self)) ->
     forall e, get_integrals_FCIDUMP py_int py_float fs self = Raise e ->
       (e = ValueError \/ e = IndexError) /\
       forall msg, e <> FileNotFoundError msg) /\
  (fs !! (name self +:+ ".out") = None ->
     get_energies fs self
       = Raise (FileNotFoundError
                  "output not found, check your run_dirac calculation")) /\
  (is_Some (fs !! (name self +:+ ".out")) ->
     exists e, get_energies fs self = Ok e) /\
  (forall msg, FileNotFoundError msg <> ValueError /\
               FileNotFoundError msg <> IndexError).
Proof.
  split; [|split; [|split; [|split]]].
  - intros Hnone. unfold get_molecular_hamiltonian, get_integrals_FCIDUMP.
    by rewrite Hnone.
  - intros [lines Hfile] e He.
    rewrite (get_integrals_FCIDUMP_rows _ _ _ _ lines Hfile) in He.
    apply for_in_Raise in He as (dmp & tokens & _ & He).
    apply store_row_Raise in He. split; [done|].
    intros msg. by destruct He as [-> | ->].
  - intros Hnone. unfold get_energies. by rewrite Hnone.
  - intros [lines Hfile]. eexists. by apply get_energies_present.
  - done.
Qed.

Lemma missing_input_is_distinct_witness :
  get_integrals_FCIDUMP dec_int dec_float ∅ {| name := "m"; relativistic := true |}
    = Raise (FileNotFoundError
               "FCIDUMP not found, first make a run_dirac calculation") /\
  get_integrals_FCIDUMP dec_int dec_float
    {[ "FCIDUMP_m"%string := [" &END"; "0.3 1 x 0 0"]%string ]}
    {| name := "m"; relativistic := true |} = Raise ValueError /\
  ValueError <> FileNotFoundError
                  "FCIDUMP not found, first make a run_dirac calculation".
Proof.
  split; [|split].
  - apply (missing_input_is_distinct dec_int dec_float 0 ∅
             {| name := "m"; relativistic := true |}).
    reflexivity.
  - by vm_compute.
  - apply (proj1 (proj2 (missing_input_is_distinct dec_int dec_float 0
             {[ "FCIDUMP_m"%string := [" &END"; "0.3 1 x 0 0"]%string ]}
             {| name := "m"; relativistic := true |}))
             ltac:(by vm_compute; eexists) ValueError ltac:(by vm_compute)).
Defined.

(** * Properties of the electron counts *)

Lemma floor_halves (n k : Z) : ((n + k) / 2 - (n - k) / 2 = k)%Z.
Proof.
  replace (n + k)%Z with (n - k + k * 2)%Z by lia.
  rewrite Z.div_add by done. lia.
Qed.

(** X1. The excess of alpha over beta electrons is [multiplicity - 1],
    whatever the two attributes hold. *)
Theorem spin_excess (self : Molecule.t) :
  (get_n_alpha_electrons self - get_n_beta_electrons self
   = Molecule.multiplicity self - 1)%Z.
Proof. apply floor_halves. Qed.

(** X2. The two counts add up to the number of electrons when
    [n_electrons + multiplicity - 1] is even; otherwise the two floor
    divisions lose one electron. *)
Theorem electron_count_parity (self : Molecule.t) :
  (get_n_alpha_electrons self + get_n_beta_electrons self
   = Molecule.n_electrons self
     - (Molecule.n_electrons self + Molecule.multiplicity self - 1) `mod` 2)%Z.
Proof.
  unfold get_n_alpha_electrons, get_n_beta_electrons.
  set (n := Molecule.n_electrons self). set (m := Molecule.multiplicity self).
  pose proof (floor_halves n (m - 1)) as Hex.
  pose proof (Z.div_mod (n + (m - 1)) 2 ltac:(done)) as Hdm.
  replace (n + m - 1)%Z with (n + (m - 1))%Z by lia. lia.
Qed.

(** * Properties of the periodic table *)

Lemma enumerate_snoc {A : Type} (l : list A) (x : A) :
  enumerate (l ++ [x]) = enumerate l ++ [(length l, x)].
Proof.
  unfold enumerate. rewrite length_app, seq_app. simpl.
  rewrite zip_with_app by (by rewrite length_seq). done.
Qed.

(** The loop that fills a hash table from a list without repetition. *)
Lemma lookup_hash_table (l : list string) (atom : string) (z : nat) :
  NoDup l ->
  foldl (fun table '(atomic_number, atom) => <[atom := atomic_number]> table)
    (∅ : gmap string nat) (enumerate l) !! atom = Some z
  <-> l !! z = Some atom.
Proof.
  revert atom z. induction l as [|x l IH] using rev_ind; intros atom z Hnd.
  - simpl. rewrite lookup_empty. by destruct z.
  - apply NoDup_app in Hnd as (Hnd & Hx & _).
    rewrite enumerate_snoc, foldl_app. simpl.
    destruct (decide (x = atom)) as [->|Hne].
    + rewrite lookup_insert_eq. split.
      * intros [= <-]. by rewrite list_lookup_middle.
      * intros Hz. f_equal.
        destruct (decide (z < length l)) as [Hlt|Hge].
        -- rewrite lookup_app_l in Hz by done.
           apply list_elem_of_lookup_2 in Hz. exfalso. apply (Hx atom Hz). by left.
        -- apply lookup_lt_Some in Hz. rewrite length_app in Hz. simpl in Hz. lia.
    + rewrite lookup_insert_ne by done. rewrite IH by done. split.
      * intros Hz. rewrite lookup_app_l; [done|]. by eapply lookup_lt_Some.
      * intros Hz. destruct (decide (z < length l)) as [Hlt|Hge].
        -- by rewrite lookup_app_l in Hz.
        -- rewrite lookup_app_r in Hz by lia.
           apply list_lookup_singleton_Some in Hz as [_ ?]. done.
Qed.

Lemma periodic_table_NoDup : NoDup periodic_table.
Proof. apply (bool_decide_unpack (NoDup periodic_table)). by vm_compute. Qed.

Lemma lookup_periodic_hash_table (atom : string) (z : nat) :
  periodic_hash_table !! atom = Some z <-> periodic_table !! z = Some atom.
Proof. apply lookup_hash_table, periodic_table_NoDup. Qed.

Lemma atomic_number_Return_iff (atom : string) (z : nat) :
  atomic_number atom = Return z <-> periodic_table !! z = Some atom.
Proof.
  rewrite <- lookup_periodic_hash_table. unfold atomic_number.
  destruct (periodic_hash_table !! atom); split; congruence.
Qed.

Lemma atomic_number_unknown (atom : string) :
  atom ∉ periodic_table -> atomic_number atom = Throw KeyError.
Proof.
  intros Hnot. unfold atomic_number.
  destruct (periodic_hash_table !! atom) as [z|] eqn:Hz; [|done].
  apply lookup_periodic_hash_table, list_elem_of_lookup_2 in Hz. done.
Qed.

(** X3. The hash table inverts the periodic table: an index holds a symbol
    exactly when the symbol is mapped to that index, and the atomic number
    of a symbol the table does not hold is a [KeyError]. *)
Theorem periodic_table_round_trip (atom : string) (z : nat) :
  (periodic_table !! z = Some atom <-> periodic_hash_table !! atom = Some z) /\
  (periodic_table !! z = Some atom <-> atomic_number atom = Return z) /\
  (atom ∉ periodic_table -> atomic_number atom = Throw KeyError).
Proof.
  split; [symmetry; apply lookup_periodic_hash_table|].
  split; [symmetry; apply atomic_number_Return_iff|].
  apply atomic_number_unknown.
Qed.

Lemma periodic_table_round_trip_witness :
  atomic_number "O" = Return 8 /\ atomic_number "Xx" = Throw KeyError.
Proof.
  split.
  - apply (periodic_table_round_trip "O" 8). reflexivity.
  - apply (periodic_table_round_trip "Xx" 0).
    apply (bool_decide_unpack ("Xx" ∉ periodic_table)). by vm_compute.
Defined.

(** * Strings *)

Lemma append_cons (c : ascii) (s1 s2 : string) :
  String c s1 +:+ s2 = String c (s1 +:+ s2).
Proof. reflexivity. Qed.

Lemma append_assoc (s1 s2 s3 : string) :
  (s1 +:+ s2) +:+ s3 = s1 +:+ (s2 +:+ s3).
Proof.
  induction s1 as [|c s1 IH]; [done|]. by rewrite !append_cons, IH.
Qed.

Lemma length_append (s1 s2 : string) :
  String.length (s1 +:+ s2) = String.length s1 + String.length s2.
Proof.
  induction s1 as [|c s1 IH]; [done|]. rewrite append_cons. simpl. by rewrite IH.
Qed.

(** * Atomic numbers as sorting keys *)

Lemma atomic_number_inj (a b : string) (k : nat) :
  atomic_number a = Return k -> atomic_number b = Return k -> a = b.
Proof. rewrite !atomic_number_Return_iff. congruence. Qed.

Lemma atomic_number_Throw (a : string) (e : py_exn) :
  atomic_number a = Throw e -> e = KeyError.
Proof. unfold atomic_number. destruct (_ !! a); congruence. Qed.

Lemma atomic_number_known (a : string) :
  a ∈ periodic_table -> exists z, atomic_number a = Return z.
Proof.
  intros (z & Hz)%list_elem_of_lookup_1. exists z.
  by apply atomic_number_Return_iff.
Qed.

(** * [sorted] *)

Section Sorted.
Context {A : Type} (key : A -> attempt nat).

Lemma decorate_Return (l : list A) (d : list (nat * A)) :
  decorate key l = Return d ->
  d = key_of key <$> l /\ Forall (fun x => exists k, key x = Return k) l.
Proof.
  revert d. induction l as [|a l IH]; simpl; intros d Hd.
  - by simplify_eq.
  - destruct (key a) as [k|] eqn:Hk; simpl in Hd; [|done].
    destruct (decorate key l) as [d'|] eqn:Hd'; simpl in Hd; [|done].
    simplify_eq. destruct (IH _ eq_refl) as [-> HF]. split.
    + unfold key_of at 2. by rewrite Hk.
    + constructor; eauto.
Qed.

Lemma decorate_Throw (l : list A) (e : py_exn) :
  decorate key l = Throw e -> exists x, x ∈ l /\ key x = Throw e.
Proof.
  induction l as [|a l IH]; simpl; intros Hd; [done|].
  destruct (key a) as [k|e'] eqn:Hk; simpl in Hd.
  - destruct (decorate key l) as [d'|e'] eqn:Hd'; simpl in Hd; [done|].
    simplify_eq. destruct (IH eq_refl) as (x & Hx & Hkx).
    exists x. split; [by right|done].
  - simplify_eq. exists a. split; [by left|done].
Qed.


Lemma insert_sorted_Permutation (x : nat * A) (l : list (nat * A)) :
  insert_sorted x l ≡ₚ x :: l.
Proof.
  induction l as [|y l IH]; simpl; [done|].
  destruct (x.1 <=? y.1); [done|]. rewrite IH. apply Permutation_swap.
Qed.

Lemma insert_sorted_StronglySorted (x : nat * A) (l : list (nat * A)) :
  StronglySorted key_le l -> StronglySorted key_le (insert_sorted x l).
Proof.
  induction 1 as [|y l Hs IH Hall]; simpl.
  - repeat constructor.
  - destruct (x.1 <=? y.1) eqn:Hle.
    + apply Nat.leb_le in Hle. constructor; [by constructor|].
      constructor; [done|]. eapply Forall_impl; [exact Hall|].
      intros z Hz. unfold key_le in *. lia.
    + apply Nat.leb_gt in Hle. constructor; [done|].
      rewrite insert_sorted_Permutation.
      constructor; [unfold key_le; lia|done].
Qed.

Lemma sort_Permutation (d : list (nat * A)) : foldr insert_sorted [] d ≡ₚ d.
Proof.
  induction d as [|x d IH]; simpl; [done|].
  by rewrite insert_sorted_Permutation, IH.
Qed.

Lemma sort_StronglySorted (d : list (nat * A)) :
  StronglySorted key_le (foldr insert_sorted [] d).
Proof.
  induction d as [|x d IH]; simpl; [constructor|].
  by apply insert_sorted_StronglySorted.
Qed.

Lemma key_le_StronglySorted (d : list (nat * A)) :
  StronglySorted key_le d -> StronglySorted le d.*1.
Proof.
  induction 1 as [|y d Hs IH Hy]; csimpl; constructor; [done|].
  by apply Forall_fmap.
Qed.

Lemma key_of_snd (d : list (nat * A)) :
  Forall (fun kx => kx = key_of key kx.2) d -> key_of key <$> d.*2 = d.
Proof. induction 1 as [|y d Hy _ IH]; csimpl; [done|]. by rewrite IH, <- Hy. Qed.

Lemma sorted_Return (l s : list A) :
  sorted key l = Return s ->
  s ≡ₚ l /\ Forall (fun x => exists k, key x = Return k) l /\
  StronglySorted le ((key_of key <$> s).*1).
Proof.
  unfold sorted. destruct (decorate key l) as [d|] eqn:Hd; simpl; [|done].
  intros [= <-]. apply decorate_Return in Hd as [-> HF].
  split; [|split; [done|]].
  - rewrite sort_Permutation. rewrite <- list_fmap_compose.
    clear. induction l as [|a l IH]; csimpl; [done|by constructor].
  - rewrite key_of_snd.
    + apply key_le_StronglySorted, sort_StronglySorted.
    + rewrite sort_Permutation. apply Forall_fmap, Forall_forall. by intros x _.
Qed.

Lemma sorted_Throw (l : list A) (e : py_exn) :
  sorted key l = Throw e -> exists x, x ∈ l /\ key x = Throw e.
Proof.
  unfold sorted. destruct (decorate key l) as [d|e'] eqn:Hd; simpl; [done|].
  intros [= <-]. by apply decorate_Throw.
Qed.

(** A list and a rearrangement of it are sorted alike when different
    elements have different keys. *)
Lemma sorted_Permutation (l1 l2 : list A) :
  l1 ≡ₚ l2 ->
  (forall x y k, x ∈ l1 -> y ∈ l1 ->
     key x = Return k -> key y = Return k -> x = y) ->
  (forall x e, x ∈ l1 -> key x = Throw e -> e = KeyError) ->
  sorted key l1 = sorted key l2.
Proof.
  intros Hp Hinj Hexn. unfold sorted.
  destruct (decorate key l1) as [d1|e1] eqn:H1;
    destruct (decorate key l2) as [d2|e2] eqn:H2; simpl.
  - apply decorate_Return in H1 as [-> HF1], H2 as [-> _]. do 2 f_equal.
    apply (StronglySorted_unique_strong key_le);
      [|apply sort_StronglySorted|apply sort_StronglySorted
       |by rewrite !sort_Permutation, Hp].
    intros x1 x2 Hx1 Hx2 Hle1 Hle2.
    rewrite sort_Permutation in Hx1, Hx2.
    apply list_elem_of_fmap in Hx1 as (a & -> & Ha).
    apply list_elem_of_fmap in Hx2 as (b & -> & Hb).
    rewrite <- Hp in Hb. rewrite Forall_forall in HF1.
    destruct (HF1 a Ha) as [ka Hka]. destruct (HF1 b Hb) as [kb Hkb].
    unfold key_le, key_of in Hle1, Hle2. simpl in Hle1, Hle2.
    rewrite Hka, Hkb in Hle1, Hle2.
    assert (ka = kb) as -> by lia. by rewrite (Hinj a b kb).
  - apply decorate_Return in H1 as [_ HF1].
    apply decorate_Throw in H2 as (x & Hx & Hkx). rewrite <- Hp in Hx.
    rewrite Forall_forall in HF1. destruct (HF1 x Hx). congruence.
  - apply decorate_Return in H2 as [_ HF2].
    apply decorate_Throw in H1 as (x & Hx & Hkx). rewrite Hp in Hx.
    rewrite Forall_forall in HF2. destruct (HF2 x Hx). congruence.
  - apply decorate_Throw in H1 as (x & Hx & Hkx).
    apply decorate_Throw in H2 as (y & Hy & Hky). rewrite <- Hp in Hy.
    by rewrite (Hexn x e1), (Hexn y e2).
Qed.

End Sorted.

Lemma comprehension_Return {A B : Type} (f : A -> attempt B) (l : list A)
    (ys : list B) :
  comprehension f l = Return ys <-> Forall2 (fun x y => f x = Return y) l ys.
Proof.
  revert ys. induction l as [|x l IH]; simpl; intros ys.
  - split; [intros [= <-]; constructor|by inversion 1].
  - destruct (f x) as [y|] eqn:Hy; simpl.
    + destruct (comprehension f l) as [ys'|] eqn:Hys; simpl.
      * split.
        -- intros [= <-]. constructor; [done|]. by apply IH.
        -- intros HF. inversion HF as [|? ? ? ? Hxy HF']; simplify_eq.
           apply IH in HF'. congruence.
      * split; [done|]. intros HF.
        inversion HF as [|? ? ? ? Hxy HF']; simplify_eq. by apply IH in HF'.
    + split; [done|]. intros HF.
      inversion HF as [|? ? ? ? Hxy HF']; congruence.
Qed.

(** * [name_molecule] *)

Lemma multiplicity_dict_Some (m : Z) :
  (1 <= m <= 12)%Z -> is_Some (multiplicity_dict !! m).
Proof.
  intros Hm.
  assert (m = 1 \/ m = 2 \/ m = 3 \/ m = 4 \/ m = 5 \/ m = 6 \/ m = 7 \/
          m = 8 \/ m = 9 \/ m = 10 \/ m = 11 \/ m = 12)%Z as Hcases by lia.
  repeat (destruct Hcases as [->|Hcases]; [by vm_compute; eauto|]).
  subst. by vm_compute; eauto.
Qed.

Lemma multiplicity_dict_None (m : Z) :
  ~ (1 <= m <= 12)%Z -> multiplicity_dict !! m = None.
Proof.
  intros Hm. unfold multiplicity_dict. apply not_elem_of_list_to_map_1.
  cbn [fmap list_fmap fst]. rewrite !not_elem_of_cons.
  repeat split; try lia. apply not_elem_of_nil.
Qed.

Lemma set_iteration_nil (set_order : list string -> list string) :
  set_iteration set_order -> set_order [] = [].
Proof.
  intros Hset. destruct (Hset []) as [_ Hin].
  destruct (set_order []) as [|x l]; [done|].
  exfalso. apply (not_elem_of_nil x), Hin. by left.
Qed.

Lemma count_Permutation (x : string) (l1 l2 : list string) :
  l1 ≡ₚ l2 -> count x l1 = count x l2.
Proof. intros Hp. unfold count. by rewrite Hp. Qed.

Section NamingLemmas.
Variables set_order1 set_order2 : list string -> list string.
Hypothesis set1 : set_iteration set_order1.
Hypothesis set2 : set_iteration set_order2.

Lemma formula_Permutation (g1 g2 : list (string * (Q * Q * Q))) :
  g1.*1 ≡ₚ g2.*1 -> formula set_order1 g1 = formula set_order2 g2.
Proof.
  intros Hp. unfold formula.
  set (info1 := (fun atom => (atom, count atom g1.*1)) <$> set_order1 g1.*1).
  set (info2 := (fun atom => (atom, count atom g2.*1)) <$> set_order2 g2.*1).
  assert (Hinfo : info1 ≡ₚ info2).
  { unfold info1, info2.
    assert (Hso : set_order1 g1.*1 ≡ₚ set_order2 g2.*1).
    { destruct (set1 g1.*1) as [Hnd1 Hin1]. destruct (set2 g2.*1) as [Hnd2 Hin2].
      apply NoDup_Permutation; [done|done|].
      intros x. rewrite Hin1, Hin2. by rewrite Hp. }
    rewrite Hso. erewrite list_fmap_ext; [done|].
    intros i x _. simpl. f_equal. by apply count_Permutation. }
  rewrite (sorted_Permutation _ info1 info2); [done|done| |].
  - intros [a na] [b nb] k
      (a' & [= -> ->] & _)%list_elem_of_fmap (b' & [= -> ->] & _)%list_elem_of_fmap.
    simpl. intros Ha Hb. by rewrite (atomic_number_inj _ _ _ Ha Hb).
  - intros x e _. apply atomic_number_Throw.
Qed.

End NamingLemmas.

Section NamingClaims.
Variable set_order : list string -> list string.
Variable float_str : Q -> string.

(** X4. For a geometry given as a string, the name is built exactly for the
    multiplicities 1 to 12; any other one raises [MoleculeNameError]. *)
Theorem name_molecule_multiplicity (s basis : string) (multiplicity charge : Z)
    (relativistic symmetry : bool) (speed_of_light : option Q)
    (description : string) :
  ((1 <= multiplicity <= 12)%Z ->
   exists name,
     name_molecule set_order float_str (GeometryName s) basis multiplicity
       charge relativistic symmetry speed_of_light description = Return name) /\
  (~ (1 <= multiplicity <= 12)%Z ->
   name_molecule set_order float_str (GeometryName s) basis multiplicity
     charge relativistic symmetry speed_of_light description
   = Throw (MoleculeNameError "Invalid spin multiplicity provided.")).
Proof.
  unfold name_molecule. split; intros Hm.
  - destruct (multiplicity_dict_Some _ Hm) as [word ->]. simpl. eauto.
  - by rewrite (multiplicity_dict_None _ Hm).
Qed.

(** X5. The relativistic name of a molecule is four characters longer than
    the non-relativistic one, so the two molecules read different dump
    files. *)
Theorem relativistic_name_differs (geometry : geometry_arg) (basis : string)
    (multiplicity charge : Z) (symmetry : bool) (speed_of_light : option Q)
    (description name_rel name_nonrel : string) :
  name_molecule set_order float_str geometry basis multiplicity charge true
    symmetry speed_of_light description = Return name_rel ->
  name_molecule set_order float_str geometry basis multiplicity charge false
    symmetry speed_of_light description = Return name_nonrel ->
  String.length name_rel = String.length name_nonrel + 4 /\
  "FCIDUMP_" +:+ name_rel <> "FCIDUMP_" +:+ name_nonrel.
Proof.
  unfold name_molecule.
  destruct (match geometry with GeometryAtoms g => formula set_order g
            | GeometryName s => Return s end) as [stem|]; simpl; [|done].
  destruct (multiplicity_dict !! multiplicity) as [word|]; simpl; [|done].
  intros [= <-] [= <-].
  assert (Hlen : forall name_rel name_nonrel : string,
            name_rel = name_nonrel -> String.length name_rel = String.length name_nonrel)
    by (by intros ? ? ->).
  match goal with |- ?L /\ _ => assert (Hl : L) end.
  { destruct symmetry, speed_of_light; rewrite ?length_append; simpl; lia. }
  split; [done|]. intros Heq%(inj (String.append "FCIDUMP_")).
  apply Hlen in Heq. lia.
Qed.

(** X6. The name does not determine the arguments: a relativistic molecule
    with a description [d] and a non-relativistic one with the description
    [d ++ "_rel"] get the same name, in every other respect equal. *)
Theorem description_tag_collision (geometry : geometry_arg) (basis : string)
    (multiplicity charge : Z) (symmetry : bool) (speed_of_light : option Q)
    (description : string) :
  description <> ""%string ->
  name_molecule set_order float_str geometry basis multiplicity charge true
    symmetry speed_of_light description
  = name_molecule set_order float_str geometry basis multiplicity charge false
      symmetry speed_of_light (description +:+ "_rel").
Proof.
  intros Hd. unfold name_molecule.
  destruct (match geometry with GeometryAtoms g => formula set_order g
            | GeometryName s => Return s end) as [stem|]; simpl; [|done].
  destruct (multiplicity_dict !! multiplicity) as [word|]; simpl; [|done].
  destruct description as [|c d]; [done|].
  rewrite (append_cons c d "_rel"). cbn iota.
  rewrite <- (append_cons c d "_rel").
  by destruct symmetry, speed_of_light; rewrite !append_assoc.
Qed.

End NamingClaims.

Lemma set_iteration_remove_dups : set_iteration remove_dups.
Proof.
  intros l. split; [apply NoDup_remove_dups|]. intros x. apply elem_of_remove_dups.
Qed.

Lemma set_iteration_reverse :
  set_iteration (fun l => reverse (remove_dups l)).
Proof.
  intros l. split; [rewrite reverse_Permutation; apply NoDup_remove_dups|].
  intros x. by rewrite elem_of_reverse, elem_of_remove_dups.
Qed.

Lemma name_molecule_same_formula
    (set_order1 set_order2 : list string -> list string)
    (float_str : Q -> string) (g1 g2 : list (string * (Q * Q * Q)))
    (basis : string) (multiplicity charge : Z) (relativistic symmetry : bool)
    (speed_of_light : option Q) (description : string) :
  set_iteration set_order1 -> set_iteration set_order2 ->
  g1.*1 ≡ₚ g2.*1 ->
  name_molecule set_order1 float_str (GeometryAtoms g1) basis multiplicity
    charge relativistic symmetry speed_of_light description
  = name_molecule set_order2 float_str (GeometryAtoms g2) basis multiplicity
      charge relativistic symmetry speed_of_light description.
Proof.
  intros Hset1 Hset2 Hp. unfold name_molecule.
  by rewrite (formula_Permutation set_order1 set_order2 Hset1 Hset2 g1 g2 Hp).
Qed.

(** X7. The name depends neither on the order in which the atoms are
    listed, nor on their coordinates, nor on the order in which the set of
    the atoms is iterated. *)
Theorem name_molecule_atom_order
    (set_order1 set_order2 : list string -> list string)
    (float_str : Q -> string) (g1 g2 : list (string * (Q * Q * Q)))
    (basis : string) (multiplicity charge : Z) (relativistic symmetry : bool)
    (speed_of_light : option Q) (description : string) :
  set_iteration set_order1 -> set_iteration set_order2 ->
  g1.*1 ≡ₚ g2.*1 ->
  name_molecule set_order1 float_str (GeometryAtoms g1) basis multiplicity
    charge relativistic symmetry speed_of_light description
  = name_molecule set_order2 float_str (GeometryAtoms g2) basis multiplicity
      charge relativistic symmetry speed_of_light description.
Proof. apply name_molecule_same_formula. Qed.

Lemma name_molecule_atom_order_witness :
  name_molecule remove_dups (fun _ => "137.0"%string)
    (GeometryAtoms [("H", (0, 0, 0)); ("O", (0, 0, 1)); ("H", (0, 1, 0))]%Q%string)
    "STO-3G" 1 0 false true None ""
  = name_molecule (fun l => reverse (remove_dups l)) (fun _ => "137.0"%string)
      (GeometryAtoms [("O", (1, 1, 1)); ("H", (2, 0, 0)); ("H", (0, 2, 0))]%Q%string)
      "STO-3G" 1 0 false true None "".
Proof.
  apply name_molecule_atom_order.
  - exact set_iteration_remove_dups.
  - exact set_iteration_reverse.
  - cbn [fmap list_fmap fst]. apply Permutation_swap.
Defined.

(** X8. The formula is named before the multiplicity is looked at: an empty
    list of atoms raises [IndexError] and an atom that is not in the periodic
    table raises [KeyError], whatever the other arguments; a non-empty list of
    atoms of the table is named as its formula is. *)
Theorem name_molecule_formula_errors (set_order : list string -> list string)
    (float_str : Q -> string) (g : list (string * (Q * Q * Q)))
    (basis : string) (multiplicity charge : Z) (relativistic symmetry : bool)
    (speed_of_light : option Q) (description : string) :
  set_iteration set_order ->
  (g = [] ->
   name_molecule set_order float_str (GeometryAtoms g) basis multiplicity
     charge relativistic symmetry speed_of_light description
   = Throw (Builtin IndexError)) /\
  ((exists atom, atom ∈ g.*1 /\ atom ∉ periodic_table) ->
   name_molecule set_order float_str (GeometryAtoms g) basis multiplicity
     charge relativistic symmetry speed_of_light description
   = Throw KeyError) /\
  (g <> [] -> Forall (fun atom => atom ∈ periodic_table) g.*1 ->
   exists stem,
     formula set_order g = Return stem /\
     name_molecule set_order float_str (GeometryAtoms g) basis multiplicity
       charge relativistic symmetry speed_of_light description
     = name_molecule set_order float_str (GeometryName stem) basis
         multiplicity charge relativistic symmetry speed_of_light description).
Proof.
  intros Hset. split; [|split].
  - intros ->. unfold name_molecule, formula. cbn [fmap list_fmap].
    by rewrite (set_iteration_nil _ Hset).
  - intros (atom & Hin & Hnot). unfold name_molecule, formula.
    set (info := (fun atom => (atom, count atom g.*1)) <$> set_order g.*1).
    destruct (sorted (fun atom : string * nat => atomic_number atom.1) info)
      as [s|e] eqn:Hs; simpl.
    + apply sorted_Return in Hs as (_ & HF & _). rewrite Forall_forall in HF.
      destruct (HF (atom, count atom g.*1)) as [k Hk].
      { apply list_elem_of_fmap. exists atom. split; [done|]. by apply Hset. }
      simpl in Hk. by rewrite (atomic_number_unknown _ Hnot) in Hk.
    + apply sorted_Throw in Hs as (x & _ & Hx).
      by rewrite (atomic_number_Throw _ _ Hx).
  - intros Hne Hall. unfold name_molecule at 1.
    assert (Hf : exists stem, formula set_order g = Return stem).
    { unfold formula.
      set (info := (fun atom => (atom, count atom g.*1)) <$> set_order g.*1).
      destruct (sorted (fun atom : string * nat => atomic_number atom.1) info)
        as [s|e] eqn:Hs; simpl.
      - apply sorted_Return in Hs as (Hp & _ & _).
        destruct s as [|first rest]; [|eauto].
        apply Permutation_nil_l in Hp. unfold info in Hp.
        symmetry in Hp. apply fmap_nil_inv in Hp.
        destruct g as [|[atom xyz] g]; [done|].
        exfalso. apply (not_elem_of_nil atom). rewrite <- Hp.
        apply Hset. by left.
      - apply sorted_Throw in Hs as ([atom k] & Hin & Hx). exfalso.
        apply list_elem_of_fmap in Hin as (atom' & [= -> ->] & Hin).
        apply (proj2 (Hset g.*1)) in Hin. rewrite Forall_forall in Hall.
        destruct (atomic_number_known _ (Hall _ Hin)) as [z Hz].
        simpl in Hx. congruence. }
    destruct Hf as [stem Hstem]. exists stem. split; [done|]. by rewrite Hstem.
Qed.

Lemma name_molecule_formula_errors_witness :
  name_molecule remove_dups (fun _ => "137.0"%string) (GeometryAtoms [])
    "STO-3G" 13 0 false true None "" = Throw (Builtin IndexError) /\
  name_molecule remove_dups (fun _ => "137.0"%string)
    (GeometryAtoms [("H", (0, 0, 0)); ("Xx", (0, 0, 1))]%Q%string)
    "STO-3G" 13 0 false true None "" = Throw KeyError /\
  exists stem,
    formula remove_dups [("O", (0, 0, 0)); ("H", (0, 0, 1))]%Q%string
    = Return stem /\
    name_molecule remove_dups (fun _ => "137.0"%string)
      (GeometryAtoms [("O", (0, 0, 0)); ("H", (0, 0, 1))]%Q%string)
      "STO-3G" 2 0 false true None ""
    = name_molecule remove_dups (fun _ => "137.0"%string) (GeometryName stem)
        "STO-3G" 2 0 false true None "".
Proof.
  split; [|split].
  - apply name_molecule_formula_errors;
      [exact set_iteration_remove_dups|reflexivity].
  - apply name_molecule_formula_errors; [exact set_iteration_remove_dups|].
    exists "Xx"%string. split.
    + cbn [fmap list_fmap fst]. right. left.
    + apply (bool_decide_unpack ("Xx"%string ∉ periodic_table)). by vm_compute.
  - apply name_molecule_formula_errors;
      [exact set_iteration_remove_dups|done|].
    cbn [fmap list_fmap fst].
    apply (bool_decide_unpack
             (Forall (fun atom => atom ∈ periodic_table) ["O"; "H"]%string)).
    by vm_compute.
Defined.

Lemma name_molecule_multiplicity_witness :
  (exists name,
     name_molecule remove_dups (fun _ => "137.0"%string) (GeometryName "H2")
       "STO-3G" 3 0 true true None "" = Return name) /\
  name_molecule remove_dups (fun _ => "137.0"%string) (GeometryName "H2")
    "STO-3G" 13 0 true true None ""
  = Throw (MoleculeNameError "Invalid spin multiplicity provided.").
Proof.
  split.
  - apply name_molecule_multiplicity. lia.
  - apply name_molecule_multiplicity. lia.
Defined.

Lemma relativistic_name_differs_witness :
  String.length "H2_STO-3G_singlet_rel" = String.length "H2_STO-3G_singlet" + 4 /\
  "FCIDUMP_" +:+ "H2_STO-3G_singlet_rel" <> "FCIDUMP_" +:+ "H2_STO-3G_singlet".
Proof.
  apply (relativistic_name_differs remove_dups (fun _ => "137.0"%string)
           (GeometryName "H2") "STO-3G" 1 0 true None "");
    reflexivity.
Defined.

Lemma description_tag_collision_witness :
  name_molecule remove_dups (fun _ => "137.0"%string) (GeometryName "H2")
    "STO-3G" 1 0 true true None "R0.74"
  = name_molecule remove_dups (fun _ => "137.0"%string) (GeometryName "H2")
      "STO-3G" 1 0 false true None ("R0.74" +:+ "_rel").
Proof. apply description_tag_collision. done. Defined.

(** * The constructor *)

Lemma substring_split (k m : nat) (s : string) :
  String.length s <= k + m ->
  String.substring 0 k s +:+ String.substring k m s = s.
Proof.
  revert k m. induction s as [|c s IH]; intros k m Hlen.
  - by destruct k, m.
  - simpl in Hlen. destruct k as [|k].
    + destruct m as [|m]; [simpl in Hlen; lia|].
      cbn [String.substring]. change (String.append "" ?x) with x.
      f_equal. pose proof (IH 0 m ltac:(simpl; lia)) as H0.
      by destruct s.
    + cbn [String.substring]. rewrite append_cons. f_equal. apply IH. lia.
Qed.

Lemma without_last_chars_append (n : nat) (s : string) :
  without_last_chars n s +:+ last_chars n s = s.
Proof. apply substring_split. lia. Qed.




Lemma sum_app (l1 l2 : list nat) : (sum (l1 ++ l2) = sum l1 + sum l2)%Z.
Proof.
  unfold sum. rewrite foldl_app. generalize (foldl (fun acc z => acc + Z.of_nat z)%Z 0%Z l1).
  induction l2 as [|z l2 IH] using rev_ind; intros acc; simpl; [lia|].
  rewrite !foldl_app. simpl. rewrite IH. lia.
Qed.

Section ConstructorClaims.
Variable set_order : list string -> list string.
Variable float_str : Q -> string.
Variable DATA_DIRECTORY : string.
Hypothesis set_order_set : set_iteration set_order.


(** X10. The file that [save] writes, [filename + ".hdf5"], is the file name
    given to the constructor when that ends in [".hdf5"], and the given name
    followed by [".hdf5"] when it does not; without a file name the object
    is filed under its name in the data directory. *)
Theorem constructor_filename (geometry : option geometry_arg)
    (basis : option string) (special_basis : option (list string))
    (multiplicity : option Z) (charge : Z) (description filename : string)
    (data_directory : option string) (relativistic symmetry : bool)
    (speed_of_light : option Q) (self : Molecule.t) :
  __init__ set_order float_str DATA_DIRECTORY geometry basis special_basis
    multiplicity charge description filename data_directory relativistic
    symmetry speed_of_light = Return self ->
  (filename <> ""%string ->
   Molecule.filename self +:+ ".hdf5"
   = if String.eqb (last_chars 5 filename) ".hdf5" then filename
     else filename +:+ ".hdf5") /\
  (filename = ""%string ->
   Molecule.filename self
   = default DATA_DIRECTORY data_directory +:+ "/" +:+ Molecule.name self).
Proof.
  intros Hself. unfold __init__ in Hself.
  destruct geometry as [g|], basis as [b|], multiplicity as [m|];
    try (by destruct filename).
  destruct (name_molecule set_order float_str g b m charge relativistic
              symmetry speed_of_light description) as [name|]; [|done].
  cbn [mbind attempt_bind] in Hself.
  assert (Molecule.name self = name /\
          Molecule.filename self
          = match filename with
            | EmptyString =>
                match data_directory with
                | None => DATA_DIRECTORY +:+ "/" +:+ name
                | Some directory => directory +:+ "/" +:+ name
                end
            | _ => if String.eqb (last_chars 5 filename) ".hdf5"
                   then without_last_chars 5 filename else filename
            end) as [Hname Hfile].
  { destruct g as [s|g].
    - by simplify_eq.
    - destruct (sorted atomic_number g.*1) as [atoms|]; [|done].
      cbn [mbind attempt_bind] in Hself.
      destruct (comprehension atomic_number atoms) as [protons|]; [|done].
      cbn [mbind attempt_bind] in Hself. by simplify_eq. }
  rewrite Hfile, Hname. split.
  - intros Hne. destruct filename as [|c f]; [done|].
    destruct (String.eqb (last_chars 5 (String c f)) ".hdf5") eqn:Heq; [|done].
    apply String.eqb_eq in Heq.
    pose proof (without_last_chars_append 5 (String c f)) as Happ.
    by rewrite Heq in Happ.
  - intros ->. by destruct data_directory.
Qed.

(** X11. For a list of atoms the constructor counts the atoms, lists them by
    atomic number, and counts the electrons as the sum of the atomic numbers
    less the charge; for a geometry given as a string there are no electrons,
    whatever the charge. *)
Theorem constructor_electron_count (g : geometry_arg) (basis : string)
    (special_basis : option (list string)) (multiplicity charge : Z)
    (description filename : string) (data_directory : option string)
    (relativistic symmetry : bool) (speed_of_light : option Q)
    (self : Molecule.t) :
  __init__ set_order float_str DATA_DIRECTORY (Some g) (Some basis)
    special_basis (Some multiplicity) charge description filename
    data_directory relativistic symmetry speed_of_light = Return self ->
  match g with
  | GeometryAtoms atoms =>
      Molecule.n_atoms self = length atoms /\
      Molecule.atoms self ≡ₚ atoms.*1 /\
      exists protons,
        Molecule.protons self = ProtonNumbers protons /\
        Forall2 (fun atom z => periodic_table !! z = Some atom)
          (Molecule.atoms self) protons /\
        StronglySorted le protons /\
        (Molecule.n_electrons self + charge = sum protons)%Z
  | GeometryName _ =>
      Molecule.n_atoms self = 0 /\ Molecule.atoms self = [] /\
      Molecule.protons self = ProtonsZero /\ Molecule.n_electrons self = 0%Z
  end.
Proof.
  intros Hself. unfold __init__ in Hself.
  destruct (name_molecule set_order float_str g basis multiplicity charge
              relativistic symmetry speed_of_light description) as [name|];
    [|done].
  cbn [mbind attempt_bind] in Hself. destruct g as [s|g].
  - injection Hself as <-. repeat split.
  - destruct (sorted atomic_number g.*1) as [atoms|] eqn:Hatoms; [|done].
    cbn [mbind attempt_bind] in Hself.
    destruct (comprehension atomic_number atoms) as [protons|] eqn:Hprotons;
      [|done].
    cbn [mbind attempt_bind] in Hself. injection Hself as <-.
    cbn [Molecule.n_atoms Molecule.atoms Molecule.protons Molecule.n_electrons].
    apply sorted_Return in Hatoms as (Hp & _ & Hsorted).
    apply comprehension_Return in Hprotons.
    split; [reflexivity|]. split; [exact Hp|]. exists protons.
    split; [reflexivity|]. split; [|split; [|lia]].
    + eapply Forall2_impl; [exact Hprotons|].
      intros atom z. by rewrite atomic_number_Return_iff.
    + assert (Hkeys : (key_of atomic_number <$> atoms).*1 = protons);
        [|by rewrite <- Hkeys].
      clear Hp Hsorted.
      induction Hprotons as [|atom z atoms protons Hz _ IH]; [done|].
      rewrite !fmap_cons, IH. unfold key_of at 1. by rewrite Hz.
Qed.

End ConstructorClaims.

(** X12. Listing the atoms in another order, at other coordinates, changes
    none of the attributes the constructor derives from them. *)
Theorem constructor_atom_order
    (set_order1 set_order2 : list string -> list string)
    (float_str : Q -> string) (DATA_DIRECTORY : string)
    (g1 g2 : list (string * (Q * Q * Q))) (basis : string)
    (special_basis : option (list string)) (multiplicity charge : Z)
    (description filename : string) (data_directory : option string)
    (relativistic symmetry : bool) (speed_of_light : option Q)
    (self1 : Molecule.t) :
  set_iteration set_order1 -> set_iteration set_order2 ->
  g1.*1 ≡ₚ g2.*1 ->
  __init__ set_order1 float_str DATA_DIRECTORY (Some (GeometryAtoms g1))
    (Some basis) special_basis (Some multiplicity) charge description filename
    data_directory relativistic symmetry speed_of_light = Return self1 ->
  exists self2,
    __init__ set_order2 float_str DATA_DIRECTORY (Some (GeometryAtoms g2))
      (Some basis) special_basis (Some multiplicity) charge description
      filename data_directory relativistic symmetry speed_of_light
    = Return self2 /\
    Molecule.name self2 = Molecule.name self1 /\
    Molecule.filename self2 = Molecule.filename self1 /\
    Molecule.n_atoms self2 = Molecule.n_atoms self1 /\
    Molecule.atoms self2 = Molecule.atoms self1 /\
    Molecule.protons self2 = Molecule.protons self1 /\
    Molecule.n_electrons self2 = Molecule.n_electrons self1 /\
    reader_view self2 = reader_view self1.
Proof.
  intros Hset1 Hset2 Hp Hself. unfold __init__ in *.
  rewrite <- (name_molecule_same_formula set_order1 set_order2 float_str g1 g2
                basis multiplicity charge relativistic symmetry speed_of_light
                description Hset1 Hset2 Hp).
  destruct (name_molecule set_order1 float_str (GeometryAtoms g1) basis
              multiplicity charge relativistic symmetry speed_of_light
              description) as [name|]; [|done].
  cbn [mbind attempt_bind] in *.
  rewrite <- (sorted_Permutation atomic_number g1.*1 g2.*1 Hp).
  - destruct (sorted atomic_number g1.*1) as [atoms|]; [|done].
    cbn [mbind attempt_bind] in *.
    destruct (comprehension atomic_number atoms) as [protons|]; [|done].
    cbn [mbind attempt_bind] in *. injection Hself as <-.
    eexists. split; [reflexivity|].
    unfold reader_view.
    cbn [Molecule.name Molecule.filename Molecule.n_atoms Molecule.atoms
         Molecule.protons Molecule.n_electrons Molecule.relativistic].
    repeat split. apply Permutation_length in Hp.
    by rewrite !length_fmap in Hp.
  - intros x y k _ _. apply atomic_number_inj.
  - intros x e _. apply atomic_number_Throw.
Qed.


Lemma constructor_filename_witness :
  exists self,
    __init__ remove_dups (fun _ => "137.0"%string) "data"
      (Some (GeometryName "H2")) (Some "STO-3G"%string) None (Some 1%Z) 0 ""
      "h2.hdf5" None false true None = Return self /\
    Molecule.filename self +:+ ".hdf5" = "h2.hdf5"%string.
Proof.
  eexists. split; [by vm_compute|].
  eapply (constructor_filename remove_dups (fun _ => "137.0"%string) "data"
            (Some (GeometryName "H2")) (Some "STO-3G"%string) None (Some 1%Z)
            0 "" "h2.hdf5" None false true None);
    [by vm_compute|done].
Defined.

Lemma constructor_electron_count_witness :
  exists self,
    __init__ remove_dups (fun _ => "137.0"%string) "data"
      (Some (GeometryAtoms
               [("O", (0, 0, 0)); ("H", (0, 0, 1)); ("H", (0, 1, 0))]%Q%string))
      (Some "STO-3G"%string) None (Some 1%Z) 1 "" "" None false true None
    = Return self /\
    Molecule.n_atoms self = 3 /\
    exists protons,
      Molecule.protons self = ProtonNumbers protons /\
      (Molecule.n_electrons self + 1 = sum protons)%Z.
Proof.
  eexists. split; [by vm_compute|].
  pose proof (constructor_electron_count remove_dups (fun _ => "137.0"%string)
                "data"
                (GeometryAtoms
                   [("O", (0, 0, 0)); ("H", (0, 0, 1)); ("H", (0, 1, 0))]%Q%string)
                "STO-3G" None 1 1 "" "" None false true None _
                ltac:(by vm_compute)) as (Hn & _ & protons & Hpr & _ & _ & He).
  split; [exact Hn|]. exists protons. by split.
Defined.

Lemma constructor_atom_order_witness :
  exists self1 self2,
    __init__ remove_dups (fun _ => "137.0"%string) "data"
      (Some (GeometryAtoms
               [("O", (0, 0, 0)); ("H", (0, 0, 1)); ("H", (0, 1, 0))]%Q%string))
      (Some "STO-3G"%string) None (Some 1%Z) 0 "" "" None false true None
    = Return self1 /\
    __init__ (fun l => reverse (remove_dups l)) (fun _ => "137.0"%string) "data"
      (Some (GeometryAtoms
               [("H", (0, 0, 0)); ("O", (0, 0, 1)); ("H", (0, 1, 0))]%Q%string))
      (Some "STO-3G"%string) None (Some 1%Z) 0 "" "" None false true None
    = Return self2 /\
    Molecule.name self2 = Molecule.name self1 /\
    Molecule.atoms self2 = Molecule.atoms self1.
Proof.
  eexists.
  destruct (constructor_atom_order remove_dups
              (fun l => reverse (remove_dups l)) (fun _ => "137.0"%string)
              "data"
              [("O", (0, 0, 0)); ("H", (0, 0, 1)); ("H", (0, 1, 0))]%Q%string
              [("H", (0, 0, 0)); ("O", (0, 0, 1)); ("H", (0, 1, 0))]%Q%string
              "STO-3G" None 1 0 "" "" None false true None _
              set_iteration_remove_dups set_iteration_reverse
              ltac:(cbn [fmap list_fmap fst]; apply Permutation_swap)
              ltac:(by vm_compute))
    as (self2 & Hself2 & Hname & _ & _ & Hatoms & _ & _ & _).
  exists self2. split; [by vm_compute|]. by repeat split.
Defined.

(** * [geometry_from_file] *)

Section GeometryLemmas.
Variable py_float : string -> option Q.

(** What one line of a geometry file does. *)
Lemma read_atom_cases (geometry : list (string * (Q * Q * Q))) (line : string) :
  (length (split line) <> 4 /\ read_atom py_float geometry line = Ok geometry) \/
  (exists atom t1 t2 t3,
     split line = [atom; t1; t2; t3] /\
     ((exists x y z,
         py_float t1 = Some x /\ py_float t2 = Some y /\ py_float t3 = Some z /\
         read_atom py_float geometry line
         = Ok (geometry ++ [(atom, (x, y, z))])) \/
      ((py_float t1 = None \/ py_float t2 = None \/ py_float t3 = None) /\
       read_atom py_float geometry line = Raise ValueError))).
Proof.
  unfold read_atom.
  destruct (Nat.eqb_spec (length (split line)) 4) as [Hlen|Hlen]; [|by left].
  right. destruct (split line) as [|atom [|t1 [|t2 [|t3 [|t4 rest]]]]];
    try done.
  exists atom, t1, t2, t3. split; [done|].
  unfold item, float. cbn [lookup list_lookup mbind result_bind].
  destruct (py_float t1) as [x|]; cbn [mbind result_bind]; [|right; eauto].
  destruct (py_float t2) as [y|]; cbn [mbind result_bind]; [|right; eauto].
  destruct (py_float t3) as [z|]; cbn [mbind result_bind]; [|right; eauto].
  left. by exists x, y, z.
Qed.

Lemma read_atom_skip (geometry : list (string * (Q * Q * Q))) (line : string) :
  length (split line) <> 4 -> read_atom py_float geometry line = Ok geometry.
Proof.
  intros Hlen. unfold read_atom.
  by destruct (Nat.eqb_spec (length (split line)) 4).
Qed.


(** The loop appends to what was read before. *)
Lemma for_in_read_atom (lines : list string)
    (acc : list (string * (Q * Q * Q))) :
  for_in lines (read_atom py_float) acc
  = (for_in lines (read_atom py_float) [] ≫= fun g => Ok (acc ++ g)).
Proof.
  revert acc. induction lines as [|line lines IH]; intros acc.
  - cbn [for_in mbind result_bind]. by rewrite app_nil_r.
  - cbn [for_in]. destruct (read_atom_cases [] line)
      as [[Hlen Hskip]|(atom & t1 & t2 & t3 & Hsplit & Hcase)].
    + rewrite Hskip, (read_atom_skip acc line Hlen). cbn [mbind result_bind].
      apply IH.
    + destruct (read_atom_cases acc line)
        as [[Hlen _]|(atom' & t1' & t2' & t3' & Hsplit' & Hcase')];
        [by rewrite Hsplit in Hlen|].
      rewrite Hsplit in Hsplit'. simplify_eq.
      destruct Hcase as [(x & y & z & H1 & H2 & H3 & ->)|[Hbad ->]];
        destruct Hcase' as [(x' & y' & z' & H1' & H2' & H3' & ->)|[Hbad' ->]];
        cbn [mbind result_bind]; try done.
      * simplify_eq. rewrite IH, (IH ([] ++ _)).
        destruct (for_in lines (read_atom py_float) []) as [g|];
          cbn [mbind result_bind]; [|done].
        by rewrite <- app_assoc.
      * destruct Hbad' as [?|[?|?]]; congruence.
      * destruct Hbad as [?|[?|?]]; congruence.
Qed.

End GeometryLemmas.

Section GeometryClaims.
Variable py_float : string -> option Q.
Variable open_error : string -> string.

(** X13. Lines that do not hold exactly four tokens are not read: the
    geometry of a file is that of the file without such a line. *)
Theorem geometry_from_file_skips (fs fs' : files) (file_name file_name' : string)
    (pre post : list string) (line : string) :
  fs !! file_name = Some (pre ++ line :: post) ->
  fs' !! file_name' = Some (pre ++ post) ->
  length (split line) <> 4 ->
  geometry_from_file py_float open_error fs file_name
  = geometry_from_file py_float open_error fs' file_name'.
Proof.
  intros Hfile Hfile' Hlen. unfold geometry_from_file.
  rewrite Hfile, Hfile', !for_in_app.
  destruct (for_in pre (read_atom py_float) []) as [g|];
    cbn [mbind result_bind for_in]; [|done].
  by rewrite (read_atom_skip py_float g line Hlen).
Qed.

(** X14. A geometry that is returned lists one atom for every line of four
    tokens, in the order of the file: the first token as the symbol, and the
    numbers of the other three as the coordinates. *)
Theorem geometry_from_file_atoms (fs : files) (file_name : string)
    (lines : list string) (geometry : list (string * (Q * Q * Q))) :
  fs !! file_name = Some lines ->
  geometry_from_file py_float open_error fs file_name = Ok geometry ->
  Forall2 (fun line entry =>
             exists t1 t2 t3,
               split line = [entry.1; t1; t2; t3] /\
               py_float t1 = Some entry.2.1.1 /\
               py_float t2 = Some entry.2.1.2 /\
               py_float t3 = Some entry.2.2)
    (filter (fun line => length (split line) = 4) lines) geometry.
Proof.
  intros Hfile. unfold geometry_from_file. rewrite Hfile. clear Hfile.
  revert geometry. induction lines as [|line lines IH]; intros geometry.
  - intros [= <-]. constructor.
  - cbn [for_in]. rewrite filter_cons.
    destruct (read_atom_cases py_float [] line)
      as [[Hlen ->]|(atom & t1 & t2 & t3 & Hsplit & Hcase)].
    + cbn [mbind result_bind]. rewrite decide_False by done. apply IH.
    + rewrite decide_True by (by rewrite Hsplit).
      destruct Hcase as [(x & y & z & H1 & H2 & H3 & ->)|[_ ->]]; [|done].
      cbn [mbind result_bind]. rewrite for_in_read_atom.
      destruct (for_in lines (read_atom py_float) []) as [g|] eqn:Hg;
        cbn [mbind result_bind]; [|done].
      intros [= <-]. constructor; [|by apply IH].
      by exists t1, t2, t3.
Qed.

(** X15. A missing file raises the error of [open]. For a file that is
    there, a geometry is returned exactly when the last three tokens of
    every line of four tokens are numbers, and the only error is the
    [ValueError] of the conversion. *)
Theorem geometry_from_file_errors (fs : files) (file_name : string) :
  (fs !! file_name = None ->
   geometry_from_file py_float open_error fs file_name
   = Raise (FileNotFoundError (open_error file_name))) /\
  (forall lines, fs !! file_name = Some lines ->
     ((exists geometry,
         geometry_from_file py_float open_error fs file_name = Ok geometry) <->
      Forall (fun line =>
                length (split line) = 4 ->
                Forall (fun t => is_Some (py_float t)) (drop 1 (split line)))
        lines) /\
     (forall e, geometry_from_file py_float open_error fs file_name = Raise e ->
        e = ValueError)).
Proof.
  unfold geometry_from_file. split; [by intros ->|].
  intros lines ->. induction lines as [|line lines [IH1 IH2]].
  - split; [|done]. split; [constructor|by eexists].
  - cbn [for_in].
    destruct (read_atom_cases py_float [] line)
      as [[Hlen ->]|(atom & t1 & t2 & t3 & Hsplit & Hcase)].
    + cbn [mbind result_bind]. split; [|done].
      rewrite IH1, Forall_cons. split; [by intros|by intros [_ ?]].
    + destruct Hcase as [(x & y & z & H1 & H2 & H3 & ->)|[Hbad ->]].
      * cbn [mbind result_bind]. rewrite for_in_read_atom. split.
        -- rewrite Forall_cons, <- IH1. split.
           ++ intros [geometry Hg].
              destruct (for_in lines (read_atom py_float) []) as [g|];
                [|done].
              split; [|by eexists]. intros _. rewrite Hsplit. cbn [drop].
              repeat constructor; by eexists.
           ++ intros [_ [g ->]]. cbn [mbind result_bind]. by eexists.
        -- intros e.
           destruct (for_in lines (read_atom py_float) []) as [g|] eqn:Hg;
             [done|].
           cbn [mbind result_bind]. intros [= <-]. by apply IH2.
      * cbn [mbind result_bind]. split; [|by intros e [= <-]]. split.
        -- by intros [geometry ?].
        -- rewrite Forall_cons. intros [Hline _]. exfalso.
           rewrite Hsplit in Hline. specialize (Hline eq_refl).
           cbn [drop] in Hline.
           apply Forall_cons in Hline as [[? ?] Hline].
           apply Forall_cons in Hline as [[? ?] Hline].
           apply Forall_cons in Hline as [[? ?] Hline].
           destruct Hbad as [?|[?|?]]; congruence.
Qed.

End GeometryClaims.

Lemma geometry_from_file_skips_witness :
  geometry_from_file dec_float (fun f => f)
    {[ "h2.xyz"%string := ["2"; "H 0 0 0"; "H 0 0 0.7414"]%string ]} "h2.xyz"
  = geometry_from_file dec_float (fun f => f)
      {[ "h2"%string := ["H 0 0 0"; "H 0 0 0.7414"]%string ]} "h2".
Proof.
  apply (geometry_from_file_skips dec_float (fun f => f) _ _ _ _ []
           ["H 0 0 0"; "H 0 0 0.7414"]%string "2");
    [by vm_compute|by vm_compute|by vm_compute].
Defined.

Lemma geometry_from_file_atoms_witness :
  Forall2 (fun line entry =>
             exists t1 t2 t3,
               split line = [entry.1; t1; t2; t3] /\
               dec_float t1 = Some entry.2.1.1 /\
               dec_float t2 = Some entry.2.1.2 /\
               dec_float t3 = Some entry.2.2)
    (filter (fun line => length (split line) = 4)
       ["2"; "H 0 0 0"; "H 0 0 0.7414"]%string)
    [("H", (0, 0, 0)); ("H", (0, 0, 3707 # 5000))]%Q%string.
Proof.
  apply (geometry_from_file_atoms dec_float (fun f => f)
           {[ "h2.xyz"%string := ["2"; "H 0 0 0"; "H 0 0 0.7414"]%string ]}
           "h2.xyz");
    by vm_compute.
Defined.

Lemma geometry_from_file_errors_witness :
  geometry_from_file dec_float (fun f => f)
    {[ "h2.xyz"%string := ["H 0 0 0"; "H 0 0 x"]%string ]} "h3.xyz"
  = Raise (FileNotFoundError "h3.xyz") /\
  forall e,
    geometry_from_file dec_float (fun f => f)
      {[ "h2.xyz"%string := ["H 0 0 0"; "H 0 0 x"]%string ]} "h2.xyz"
    = Raise e -> e = ValueError.
Proof.
  split.
  - apply (proj1 (geometry_from_file_errors dec_float (fun f => f)
                    {[ "h2.xyz"%string := ["H 0 0 0"; "H 0 0 x"]%string ]}
                    "h3.xyz")).
    by vm_compute.
  - apply (proj2 (geometry_from_file_errors dec_float (fun f => f)
                    {[ "h2.xyz"%string := ["H 0 0 0"; "H 0 0 x"]%string ]}
                    "h2.xyz") ["H 0 0 0"; "H 0 0 x"]%string).
    by vm_compute.
Defined.

(** * More on the dump parser *)

Lemma skip_header_no_marker (lines : list string) (k : nat) :
  Forall (fun line => contains "&END" line = false) lines ->
  skip_header lines k = (k + length lines, []).
Proof.
  intros Hall. revert k.
  induction Hall as [|line lines Hline _ IH]; intros k; simpl.
  - by rewrite Nat.add_0_r.
  - rewrite Hline, IH. f_equal. lia.
Qed.

Lemma skip_header_marker (header data : list string) (marker : string)
    (k : nat) :
  Forall (fun line => contains "&END" line = false) header ->
  contains "&END" marker = true ->
  (skip_header (header ++ marker :: data) k).2 = data.
Proof.
  intros Hall Hmarker. revert k.
  induction Hall as [|line lines Hline _ IH]; intros k; simpl.
  - by rewrite Hmarker.
  - by rewrite Hline, IH.
Qed.

Section ParserClaims.
Variable py_int : string -> option Z.
Variable py_float : string -> option Q.
Variable EQ_TOLERANCE : Q.

Lemma store_row_Raise_any (d d' : dump) (tokens : list string) (e : exn) :
  store_row py_int py_float d tokens = Raise e ->
  store_row py_int py_float d' tokens = Raise e.
Proof.
  unfold store_row, item, int, float. intros H.
  repeat match type of H with
         | context [match ?x with _ => _ end] =>
             destruct x; cbn [mbind result_bind] in H |- *
         end; by simplify_eq.
Qed.

(** X16. A dump file without a line that contains [&END] is read to its
    end by the header loop: no row is left, the parser returns its initial
    values and the Hamiltonian is the empty one, with the constant 0. *)
Theorem dump_without_end_marker (fs : files) (self : MolecularData_Dirac)
    (lines : list string) :
  fs !! ("FCIDUMP_" +:+ name self) = Some lines ->
  Forall (fun line => contains "&END" line = false) lines ->
  get_integrals_FCIDUMP py_int py_float fs self = Ok empty_dump /\
  get_molecular_hamiltonian py_int py_float EQ_TOLERANCE fs self
  = Ok ({| constant := 0; one_body_tensor := []; two_body_tensor := [] |},
        [], []).
Proof.
  intros Hfile Hall.
  assert (Hd : get_integrals_FCIDUMP py_int py_float fs self = Ok empty_dump).
  { rewrite (get_integrals_FCIDUMP_rows _ _ _ _ lines Hfile).
    by rewrite skip_header_no_marker. }
  split; [done|].
  rewrite (get_molecular_hamiltonian_Ok _ _ _ _ _ _ Hd).
  by destruct (relativistic self).
Qed.

(** X17. The header is not read: the parser returns what the rows after the
    first line that contains [&END] give, whatever the header lines and the
    marker line hold otherwise. *)
Theorem dump_header_ignored (fs : files) (self : MolecularData_Dirac)
    (header data : list string) (marker : string) :
  fs !! ("FCIDUMP_" +:+ name self) = Some (header ++ marker :: data) ->
  Forall (fun line => contains "&END" line = false) header ->
  contains "&END" marker = true ->
  get_integrals_FCIDUMP py_int py_float fs self
  = for_in (split <$> data) (store_row py_int py_float) empty_dump.
Proof.
  intros Hfile Hall Hmarker.
  rewrite (get_integrals_FCIDUMP_rows _ _ _ _ _ Hfile).
  by rewrite skip_header_marker.
Qed.

(** X18. The parser stops at the first row it cannot read: the rows before
    it are stored, its error is raised and the rows after it are not looked
    at. A row of fewer than two tokens, such as an empty line, raises
    [IndexError]. *)
Theorem dump_first_bad_row (fs : files) (self : MolecularData_Dirac)
    (lines good rest : list string) (bad : string)
    (recs : list integral_record) :
  fs !! ("FCIDUMP_" +:+ name self) = Some lines ->
  (skip_header lines 0).2 = good ++ bad :: rest ->
  Forall2 (row_parses py_int py_float) (split <$> good) recs ->
  (forall e, store_row py_int py_float empty_dump (split bad) = Raise e ->
     get_integrals_FCIDUMP py_int py_float fs self = Raise e) /\
  (length (split bad) <= 1 ->
   get_integrals_FCIDUMP py_int py_float fs self = Raise IndexError).
Proof.
  intros Hfile Hrows Hgood.
  assert (Hfast : forall e,
            store_row py_int py_float empty_dump (split bad) = Raise e ->
            get_integrals_FCIDUMP py_int py_float fs self = Raise e).
  { intros e Hbad.
    rewrite (get_integrals_FCIDUMP_rows _ _ _ _ _ Hfile), Hrows.
    rewrite fmap_app, fmap_cons, for_in_app.
    rewrite (for_in_store_row _ _ _ _ _ Hgood). cbn [mbind result_bind for_in].
    by rewrite (store_row_Raise_any _ _ _ _ Hbad). }
  split; [done|]. intros Hlen. apply Hfast.
  unfold store_row, item.
  destruct (split bad) as [|t0 [|t1 tokens]]; [done|done|simpl in Hlen; lia].
Qed.

End ParserClaims.

Lemma dump_without_end_marker_witness :
  get_integrals_FCIDUMP dec_int dec_float
    {[ "FCIDUMP_m"%string := ["0.6 1 1 0 0"; "1.5 0 0 0 0"]%string ]}
    {| name := "m"; relativistic := false |} = Ok empty_dump /\
  get_molecular_hamiltonian dec_int dec_float (1 # 100000000)
    {[ "FCIDUMP_m"%string := ["0.6 1 1 0 0"; "1.5 0 0 0 0"]%string ]}
    {| name := "m"; relativistic := false |}
  = Ok ({| constant := 0; one_body_tensor := []; two_body_tensor := [] |},
        [], []).
Proof.
  apply (dump_without_end_marker dec_int dec_float (1 # 100000000) _ _
           ["0.6 1 1 0 0"; "1.5 0 0 0 0"]%string);
    [by vm_compute|].
  repeat constructor.
Defined.

Lemma dump_header_ignored_witness :
  get_integrals_FCIDUMP dec_int dec_float
    {[ "FCIDUMP_m"%string :=
         [" &FCI NORB=2,"; " &END 9 9 9 9 9"; "1.5 0 0 0 0"]%string ]}
    {| name := "m"; relativistic := true |}
  = for_in (split <$> ["1.5 0 0 0 0"]%string) (store_row dec_int dec_float)
      empty_dump.
Proof.
  apply (dump_header_ignored dec_int dec_float _ _ [" &FCI NORB=2,"]%string
           ["1.5 0 0 0 0"]%string " &END 9 9 9 9 9");
    [by vm_compute| |by vm_compute].
  repeat constructor.
Defined.

Lemma dump_first_bad_row_witness :
  get_integrals_FCIDUMP dec_int dec_float
    {[ "FCIDUMP_m"%string :=
         [" &END"; "1.5 0 0 0 0"; ""; "0.6 1 1 0 0"]%string ]}
    {| name := "m"; relativistic := true |} = Raise IndexError.
Proof.
  apply (dump_first_bad_row dec_int dec_float _ _
           [" &END"; "1.5 0 0 0 0"; ""; "0.6 1 1 0 0"]%string
           ["1.5 0 0 0 0"]%string ["0.6 1 1 0 0"]%string ""
           [{| rec_value := 3 # 2; rec_a := 0; rec_b := 0; rec_c := 0;
               rec_d := 0 |}]);
    [by vm_compute|by vm_compute| |vm_compute; lia].
  constructor; [|constructor].
  by exists "1.5"%string, "0"%string, "0"%string, "0"%string, "0"%string, [].
Defined.

(** * More on the filling loops *)

Lemma lookup2_zeros2_None (n : nat) (c : cell2) :
  ~ in_range2 n c -> lookup2 (zeros2 n) c = None.
Proof.
  intros Hc. apply eq_None_not_Some. by rewrite lookup2_zeros2_is_Some.
Qed.

(** Two assignments of one value. *)
Lemma lookup2_upd2_pair (a : array2) (c1 c2 c : cell2) (v : Q) :
  is_Some (lookup2 a c1) -> is_Some (lookup2 a c2) ->
  lookup2 (upd2 (upd2 a c1 v) c2 v) c
  = if decide (c = c1 \/ c = c2) then Some v else lookup2 a c.
Proof.
  intros H1 H2.
  assert (H2' : is_Some (lookup2 (upd2 a c1 v) c2)).
  { by apply (same_cells_upd (H := dense2) a c1 v H1 c2). }
  destruct (decide (c2 = c)) as [->|Hne2].
  - rewrite (dlookup_upd_eq (H := dense2)) by done.
    rewrite decide_True; [done|by right].
  - rewrite (dlookup_upd_ne (H := dense2)) by done.
    destruct (decide (c1 = c)) as [->|Hne1].
    + rewrite (dlookup_upd_eq (H := dense2)) by done.
      rewrite decide_True; [done|by left].
    + rewrite (dlookup_upd_ne (H := dense2)) by done.
      rewrite decide_False; [done|]. intros [?|?]; congruence.
Qed.

(** Every iteration of the first restricted loop nest keeps the array
    symmetric. *)
Lemma one_restricted_symmetric (one_body_integrals : gmap (Z * Z) Q)
    (n p q : nat) :
  lookup2 (one_restricted one_body_integrals n) (p, q)
  = lookup2 (one_restricted one_body_integrals n) (q, p).
Proof.
  revert p q.
  set (P := fun a : array2 =>
    same_cells (zeros2 n) a /\
    forall p q, lookup2 a (p, q) = lookup2 a (q, p)).
  enough (HP : P (one_restricted one_body_integrals n)) by apply HP.
  unfold one_restricted, mirror_writes, apply_writes.
  rewrite foldl_bind. apply foldl_invariant.
  { split; [apply same_cells_refl|]. intros p q.
    destruct (decide (p < n /\ q < n)) as [[Hp Hq]|Hout].
    - by rewrite !lookup2_zeros2.
    - rewrite !lookup2_zeros2_None; [done| |]; unfold in_range2; lia. }
  intros a0 p Hp%elem_of_range Ha0. rewrite foldl_bind.
  apply foldl_invariant; [done|]. clear a0 Ha0.
  intros a q Hq%elem_of_range [Hsame Hsym].
  unfold mirror_write.
  destruct (one_body_integrals !! _) as [v|]; [|done].
  cbn [foldl fst snd].
  assert (H1 : is_Some (lookup2 a (p, q))).
  { apply Hsame, lookup2_zeros2_is_Some. by split. }
  assert (H2 : is_Some (lookup2 a (q, p))).
  { apply Hsame, lookup2_zeros2_is_Some. by split. }
  split.
  - eapply same_cells_trans; [exact Hsame|].
    apply (same_cells_trans _ (upd2 a (p, q) v));
      [exact (same_cells_upd (H := dense2) a (p, q) v H1)|].
    apply (same_cells_upd (H := dense2)).
    by apply (same_cells_upd (H := dense2) a (p, q) v H1 (q, p)).
  - intros x y.
    change (lookup2 (upd2 (upd2 a (p, q) v) (q, p) v) (x, y)
            = lookup2 (upd2 (upd2 a (p, q) v) (q, p) v) (y, x)).
    rewrite !lookup2_upd2_pair by done.
    repeat case_decide; try done; exfalso;
      repeat match goal with
             | H : _ \/ _ |- _ => destruct H
             | H : ~ (_ \/ _) |- _ => apply Decidable.not_or in H as [? ?]
             end; simplify_eq; congruence.
Qed.

(** The cells the third loop nest assigns lie in the three sectors with odd
    indices. *)
Lemma spin_writes_sector (n : nat) (two : array4) (w : cell4 * Q) :
  w ∈ spin_writes n two -> exists p q r s, w.1 ∈ spin_sectors p q r s.
Proof.
  intros (p & q & r & s & _ & _ & _ & _ & Hw)%elem_of_spin_writes.
  exists p, q, r, s. unfold spin_write in Hw. unfold spin_sectors.
  rewrite !elem_of_cons, elem_of_nil in Hw. rewrite !elem_of_cons.
  destruct Hw as [->|[->|[->|[]]]]; cbn [fst]; auto.
Qed.

Lemma symmetry_writes_sector (two_body_integrals : gmap (Z * Z * Z * Z) Q)
    (n : nat) (w : cell4 * Q) :
  w ∈ symmetry_writes two_body_integrals n ->
  exists p q r s, w.1 ∈ spin_sectors p q r s.
Proof.
  destruct w as [c x].
  intros (t & v & _ & _ & _ & Hc)%elem_of_symmetry_writes.
  apply list_elem_of_fmap in Hc as (u & -> & _).
  destruct u as [[[p q] r] s]. exists p, r, s, q. left.
Qed.

Lemma two_restricted_other_sectors (two_body_integrals : gmap (Z * Z * Z * Z) Q)
    (n : nat) (c : cell4) :
  in_range4 n c -> ~ (exists p q r s, c ∈ spin_sectors p q r s) ->
  lookup4 (two_restricted two_body_integrals n) c = Some 0%Q.
Proof.
  intros Hc Hout. unfold two_restricted.
  rewrite (dlookup_apply_writes_notin (H := dense4)).
  - unfold two_symmetric. rewrite (dlookup_apply_writes_notin (H := dense4)).
    + by apply lookup4_zeros4.
    + intros x Hx. by apply symmetry_writes_sector in Hx.
  - intros x Hx. by apply spin_writes_sector in Hx.
Qed.

Section FillingClaims.
Variable py_int : string -> option Z.
Variable py_float : string -> option Q.
Variable EQ_TOLERANCE : Q.

(** X19. The one-body array of the restricted branch is symmetric, whatever
    the dump stores: every iteration assigns a cell and its mirror. *)
Theorem restricted_one_body_symmetric (fs : files) (self : MolecularData_Dirac)
    (H : InteractionOperator) (one : array2) (two : array4) :
  relativistic self = false ->
  get_molecular_hamiltonian py_int py_float EQ_TOLERANCE fs self
    = Ok (H, one, two) ->
  forall p q, lookup2 one (p, q) = lookup2 one (q, p).
Proof.
  intros Hrel Hham p q.
  destruct (get_integrals_FCIDUMP py_int py_float fs self) as [d|e] eqn:Hd.
  - rewrite (get_molecular_hamiltonian_Ok _ _ _ _ _ _ Hd), Hrel in Hham.
    cbn [filled fst snd] in Hham. injection Hham as _ <- _.
    rewrite !lookup2_truncate2_at. by rewrite one_restricted_symmetric.
  - unfold get_molecular_hamiltonian in Hham. by rewrite Hd in Hham.
Qed.

(** X20. The two-body array of the restricted branch is zero outside the
    four spin sectors the loops assign: a cell whose index parities are not
    one of (even, even, even, even), (odd, even, even, odd),
    (even, odd, odd, even) and (odd, odd, odd, odd) keeps its zero. *)
Theorem restricted_two_body_sectors_only (fs : files)
    (self : MolecularData_Dirac) (d : dump)
    (H : InteractionOperator) (one : array2) (two : array4) :
  relativistic self = false ->
  get_integrals_FCIDUMP py_int py_float fs self = Ok d ->
  get_molecular_hamiltonian py_int py_float EQ_TOLERANCE fs self
    = Ok (H, one, two) ->
  forall c, in_range4 (size (one_body_int d)) c ->
    ~ (exists p q r s, c ∈ spin_sectors p q r s) ->
    lookup4 two c = Some 0%Q.
Proof.
  intros Hrel Hd Hham c Hc Hout.
  rewrite (get_molecular_hamiltonian_Ok _ _ _ _ _ _ Hd), Hrel in Hham.
  cbn [filled fst snd] in Hham. injection Hham as _ _ <-.
  rewrite lookup4_truncate4_at, two_restricted_other_sectors by done.
  cbn [fmap option_fmap option_map]. by rewrite truncate_at_zero.
Qed.

(** X21. The Hamiltonian builder fails exactly when the parser does, and
    with the same exception: the missing dump, or the error of the first row
    that cannot be read. The filling and the truncation raise nothing. *)
Theorem hamiltonian_raises_parser_errors (fs : files)
    (self : MolecularData_Dirac) (e : exn) :
  (get_molecular_hamiltonian py_int py_float EQ_TOLERANCE fs self = Raise e <->
   get_integrals_FCIDUMP py_int py_float fs self = Raise e) /\
  (get_molecular_hamiltonian py_int py_float EQ_TOLERANCE fs self = Raise e ->
   e = FileNotFoundError
         "FCIDUMP not found, first make a run_dirac calculation" \/
   e = ValueError \/ e = IndexError).
Proof.
  assert (Hiff : get_molecular_hamiltonian py_int py_float EQ_TOLERANCE fs self
                 = Raise e <->
                 get_integrals_FCIDUMP py_int py_float fs self = Raise e).
  { destruct (get_integrals_FCIDUMP py_int py_float fs self) as [d|e'] eqn:Hd.
    - rewrite (get_molecular_hamiltonian_Ok _ _ _ _ _ _ Hd). by split.
    - unfold get_molecular_hamiltonian. rewrite Hd. cbn [mbind result_bind].
      by split; intros [= ->]. }
  split; [done|]. rewrite Hiff. clear Hiff.
  destruct (fs !! ("FCIDUMP_" +:+ name self)) as [lines|] eqn:Hfile.
  - rewrite (get_integrals_FCIDUMP_rows _ _ _ _ _ Hfile).
    intros (d & tokens & _ & Hrow)%for_in_Raise. right.
    by apply (store_row_Raise _ _ _ _ _ Hrow).
  - unfold get_integrals_FCIDUMP. rewrite Hfile. intros [= <-]. by left.
Qed.

End FillingClaims.

(** X22. The filling loops read the dictionaries only at the keys they
    probe: the relativistic branch at the keys with indices from 1 to [n],
    the restricted branch at the one-body keys from 1 to [n] and at the
    two-body keys of four odd indices below [2 * (n / 2)]. Whatever else the
    dictionaries hold, such as keys with an even index in restricted mode,
    has no effect. *)
Theorem fill_coefficients_probed_keys
    (one_body_integrals one_body_integrals' : gmap (Z * Z) Q)
    (two_body_integrals two_body_integrals' : gmap (Z * Z * Z * Z) Q)
    (n : nat) :
  (forall p q, p < n -> q < n ->
     one_body_integrals !! (succ_key p, succ_key q)
     = one_body_integrals' !! (succ_key p, succ_key q)) ->
  ((forall p q r s, p < n -> q < n -> r < n -> s < n ->
      two_body_integrals !! (succ_key p, succ_key q, succ_key r, succ_key s)
      = two_body_integrals' !! (succ_key p, succ_key q, succ_key r, succ_key s))
   -> fill_coefficients true one_body_integrals two_body_integrals n
      = fill_coefficients true one_body_integrals' two_body_integrals' n) /\
  ((forall t, in_range4 (n / 2) t ->
      two_body_integrals !! odd_keys t = two_body_integrals' !! odd_keys t)
   -> fill_coefficients false one_body_integrals two_body_integrals n
      = fill_coefficients false one_body_integrals' two_body_integrals' n).
Proof.
  intros Hone.
  assert (Hbind : forall (B : Type) (k : nat) (f g : nat -> list B),
            (forall x, x < k -> f x = g x) -> range k ≫= f = range k ≫= g).
  { intros B k f g Hfg. apply Forall_bind_ext, Forall_forall.
    intros x Hx%elem_of_range. by apply Hfg. }
  split; intros Htwo; rewrite !fill_coefficients_Ok; f_equal;
    unfold filled.
  - f_equal; f_equal.
    + unfold one_body_writes. apply Hbind. intros p Hp.
      apply Hbind. intros q Hq. unfold one_body_write. by rewrite Hone.
    + unfold two_body_writes. apply Hbind. intros p Hp.
      apply Hbind. intros q Hq. apply Hbind. intros r Hr.
      apply Hbind. intros s Hs. unfold two_body_write. by rewrite Htwo.
  - assert (Hsym : symmetry_writes two_body_integrals n
                   = symmetry_writes two_body_integrals' n).
    { unfold symmetry_writes. apply Hbind. intros p Hp.
      apply Hbind. intros q Hq. apply Hbind. intros r Hr.
      apply Hbind. intros s Hs. unfold symmetry_write.
      pose proof (Htwo (p, q, r, s) ltac:(by unfold in_range4)) as Hkey.
      unfold odd_keys in Hkey. by rewrite Hkey. }
    f_equal.
    + unfold one_restricted, mirror_writes. f_equal. apply Hbind. intros p Hp.
      apply Hbind. intros q Hq. unfold mirror_write. by rewrite Hone.
    + unfold two_restricted, two_symmetric. by rewrite Hsym.
Qed.

Lemma restricted_one_body_symmetric_witness :
  exists H one two,
    get_molecular_hamiltonian dec_int dec_float (1 # 100000000)
      {[ "FCIDUMP_m"%string := [" &END"; "0.3 1 2 0 0"; "0.6 1 1 0 0"]%string ]}
      {| name := "m"; relativistic := false |} = Ok (H, one, two) /\
    lookup2 one (0, 1) = lookup2 one (1, 0).
Proof.
  eexists _, _, _. split; [by vm_compute|].
  eapply (restricted_one_body_symmetric dec_int dec_float (1 # 100000000)
            {[ "FCIDUMP_m"%string :=
                 [" &END"; "0.3 1 2 0 0"; "0.6 1 1 0 0"]%string ]}
            {| name := "m"; relativistic := false |});
    [reflexivity|by vm_compute].
Defined.

Lemma restricted_two_body_sectors_only_witness :
  exists H one two,
    get_molecular_hamiltonian dec_int dec_float (1 # 100000000)
      {[ "FCIDUMP_m"%string :=
           [" &END"; "0.1 1 1 1 1"; "0.3 1 2 0 0"; "0.6 1 1 0 0"]%string ]}
      {| name := "m"; relativistic := false |} = Ok (H, one, two) /\
    lookup4 two (1, 0, 0, 0) = Some 0%Q.
Proof.
  eexists _, _, _. split; [by vm_compute|].
  eapply (restricted_two_body_sectors_only dec_int dec_float (1 # 100000000)
            {[ "FCIDUMP_m"%string :=
                 [" &END"; "0.1 1 1 1 1"; "0.3 1 2 0 0"; "0.6 1 1 0 0"]%string ]}
            {| name := "m"; relativistic := false |});
    [reflexivity|by vm_compute|by vm_compute|vm_compute; lia|].
  intros (p & q & r & s & Hc). unfold spin_sectors in Hc.
  rewrite !elem_of_cons, elem_of_nil in Hc.
  destruct Hc as [Hc|[Hc|[Hc|[Hc|[]]]]]; injection Hc; lia.
Defined.

Lemma hamiltonian_raises_parser_errors_witness :
  get_molecular_hamiltonian dec_int dec_float (1 # 100000000) ∅
    {| name := "m"; relativistic := false |}
  = Raise (FileNotFoundError
             "FCIDUMP not found, first make a run_dirac calculation").
Proof.
  apply (proj1 (hamiltonian_raises_parser_errors dec_int dec_float
                  (1 # 100000000) ∅ {| name := "m"; relativistic := false |}
                  _)).
  by vm_compute.
Defined.

Lemma fill_coefficients_probed_keys_witness :
  fill_coefficients false ∅ ∅ 2
  = fill_coefficients false ∅ {[ (2, 2, 2, 2)%Z := 1%Q ]} 2.
Proof.
  apply (fill_coefficients_probed_keys ∅ ∅ ∅ {[ (2, 2, 2, 2)%Z := 1%Q ]} 2);
    [done|].
  intros [[[p q] r] s] (Hp & Hq & Hr & Hs).
  change (2 / 2) with 1 in Hp, Hq, Hr, Hs.
  assert (p = 0) as -> by lia. assert (q = 0) as -> by lia.
  assert (r = 0) as -> by lia. assert (s = 0) as -> by lia.
  by vm_compute.
Defined.
